(** * CareerNova-AI: LLM call orchestration and response normalisation

    A shallow embedding of the parts of [generator.py], [jobs_engine.py]
    and [rag_engine.py] that drive the language-model calls: the JSON
    repair cascade, the schema normalisation of an extracted portfolio,
    the model-fallback loop, the job-scoring fallback, the job cache and
    the chat intent classifier; and of the code around them: the ATS
    resume call, the profile image extraction, the request to the
    listings API, the chat itself and the upload handler of [main.py].

    Python values are modelled as follows.
    - [str] is a list of Unicode code points ([N]).
    - Values produced by [json.loads] are the inductive type [json]; a
      [dict] is an association list in insertion order.
    - A function that may raise returns a [result]; exceptions are the
      inductive type [exn].
    - Network calls are answers supplied by an environment function and
      recorded in an event trace. *)

From Stdlib Require Import List NArith ZArith String Ascii Bool Lia.
From Stdlib Require Import DecimalString Sorted Permutation.
Import ListNotations.

Set Implicit Arguments.
Set Warnings "-register-all".

(** ** Python strings *)

Module PyStr.

Definition char := N.
Definition str := list char.

(** [u "abc"] is the Python string ['abc']. *)
Definition u (s : string) : str := map N_of_ascii (list_ascii_of_string s).

(** [js] writes a text that contains double quotes: every apostrophe of
    the literal stands for a double quote (code point 34). *)
Definition js (s : string) : str :=
  map (fun c => if (c =? 39)%N then 34%N else c) (u s).

Definition LF : char := 10%N.
Definition QUOTE : char := 34%N.
Definition BACKSLASH : char := 92%N.
Definition BACKTICK : char := 96%N.
Definition COMMA : char := 44%N.
Definition LBRACE : char := 123%N.
Definition RBRACE : char := 125%N.
Definition LBRACKET : char := 91%N.
Definition RBRACKET : char := 93%N.
Definition COLON : char := 58%N.

(** [str.isspace] on one code point; also the class [\s] of [re] on
    [str] patterns. *)
Definition isspace (c : char) : bool :=
  ((9 <=? c) && (c <=? 13) || (28 <=? c) && (c <=? 32) || (c =? 133)
   || (c =? 160) || (c =? 5760) || (8192 <=? c) && (c <=? 8202)
   || (c =? 8232) || (c =? 8233) || (c =? 8239) || (c =? 8287)
   || (c =? 12288))%N.

Fixpoint lstrip (s : str) : str :=
  match s with
  | [] => []
  | c :: s' => if isspace c then lstrip s' else s
  end.

Definition rstrip (s : str) : str := rev (lstrip (rev s)).

(** [s.strip()] *)
Definition strip (s : str) : str := rstrip (lstrip s).

Fixpoint str_eqb (a b : str) : bool :=
  match a, b with
  | [], [] => true
  | x :: a', y :: b' => (x =? y)%N && str_eqb a' b'
  | _, _ => false
  end.

(** [s.startswith(p)] *)
Fixpoint startswith (p s : str) : bool :=
  match p, s with
  | [], _ => true
  | x :: p', y :: s' => (x =? y)%N && startswith p' s'
  | _ :: _, [] => false
  end.

(** The longest prefix whose characters satisfy [f], and the rest. *)
Fixpoint span (f : char -> bool) (s : str) : str * str :=
  match s with
  | [] => ([], [])
  | c :: s' =>
      if f c then let (a, b) := span f s' in (c :: a, b) else ([], s)
  end.

(** [str(z)] for an integer *)
Definition Z_to_str (z : Z) : str :=
  u (NilZero.string_of_int (Z.to_int z)).

(** [sub in s] *)
Fixpoint contains (sub s : str) : bool :=
  startswith sub s
  || match s with
     | [] => false
     | _ :: s' => contains sub s'
     end.

(** [sep.join(parts)] *)
Fixpoint join (sep : str) (parts : list str) : str :=
  match parts with
  | [] => []
  | [p] => p
  | p :: rest => p ++ sep ++ join sep rest
  end.

End PyStr.
Import PyStr.

(** ** JSON values and [json.loads] *)

Module Json.

(** The values [json.loads] can return.  A float is kept as the literal
    it was read from ([NaN], [Infinity] and [-Infinity] included); no
    floating-point arithmetic is modelled. *)
Inductive json : Type :=
| JNull
| JBool (b : bool)
| JInt (z : Z)
| JFloat (literal : str)
| JStr (s : str)
| JList (items : list json)
| JDict (items : list (str * json)).

Definition dict := list (str * json).

(** [d.get(k)], [None] when the key is absent. *)
Fixpoint dict_get (d : dict) (k : str) : option json :=
  match d with
  | [] => None
  | (k', v) :: d' => if str_eqb k' k then Some v else dict_get d' k
  end.

(** [d[k] = v]: an existing key keeps its position. *)
Fixpoint dict_set (d : dict) (k : str) (v : json) : dict :=
  match d with
  | [] => [(k, v)]
  | (k', v') :: d' =>
      if str_eqb k' k then (k', v) :: d' else (k', v') :: dict_set d' k v
  end.

(** [d.get(k, default)] *)
Definition get_or (d : dict) (k : str) (default : json) : json :=
  match dict_get d k with
  | Some v => v
  | None => default
  end.

Definition dict_keys (d : dict) : list str := map fst d.

(** *** Lexical analysis

    [json.loads] is modelled in two passes, a lexer and a push-down
    parser over its tokens, both folds over their input.  A maximal run
    of letters, digits, [+], [-] and [.] is one atom: the scanner of the
    [json] module accepts a literal or a number only when the character
    that follows is a delimiter, white space or the end of the text. *)

Inductive token : Type :=
| TLBrace | TRBrace | TLBracket | TRBracket | TComma | TColon
| TString (s : str)
| TAtom (a : str).

(** The white space of the JSON grammar: space, tab, line feed, carriage
    return. *)
Definition is_json_ws (c : char) : bool :=
  ((c =? 32) || (c =? 9) || (c =? 10) || (c =? 13))%N.

Definition is_digit (c : char) : bool := ((48 <=? c) && (c <=? 57))%N.

Definition is_atom_char (c : char) : bool :=
  (is_digit c || (65 <=? c) && (c <=? 90) || (97 <=? c) && (c <=? 122)
   || (c =? 43) || (c =? 45) || (c =? 46))%N.

Definition punct (c : char) : option token :=
  if (c =? LBRACE)%N then Some TLBrace
  else if (c =? RBRACE)%N then Some TRBrace
  else if (c =? LBRACKET)%N then Some TLBracket
  else if (c =? RBRACKET)%N then Some TRBracket
  else if (c =? COMMA)%N then Some TComma
  else if (c =? COLON)%N then Some TColon
  else None.

(** The one-character escapes of a string literal. *)
Definition simple_escape (c : char) : option char :=
  if (c =? QUOTE)%N then Some QUOTE
  else if (c =? BACKSLASH)%N then Some BACKSLASH
  else if (c =? 47)%N then Some 47%N
  else if (c =? 98)%N then Some 8%N
  else if (c =? 102)%N then Some 12%N
  else if (c =? 110)%N then Some 10%N
  else if (c =? 114)%N then Some 13%N
  else if (c =? 116)%N then Some 9%N
  else None.

Definition hex_value (c : char) : option N :=
  if is_digit c then Some (c - 48)%N
  else if ((97 <=? c) && (c <=? 102))%N then Some (c - 87)%N
  else if ((65 <=? c) && (c <=? 70))%N then Some (c - 55)%N
  else None.

Definition is_high_surrogate (c : N) : bool :=
  ((55296 <=? c) && (c <=? 56319))%N.
Definition is_low_surrogate (c : N) : bool :=
  ((56320 <=? c) && (c <=? 57343))%N.
Definition join_surrogates (hi lo : N) : N :=
  (65536 + N.lor (N.shiftl (hi - 55296) 10) (lo - 56320))%N.

(** Lexer states.  The strings are accumulated in reverse.  [hi] holds
    the high surrogate written by the [\u] escape that has just ended,
    which a directly following low-surrogate escape joins. *)
Inductive lex_state : Type :=
| LBetween
| LAtom (a : str)
| LString (s : str) (hi : option N)
| LEscape (s : str) (hi : option N)
| LUnicode (s : str) (hi : option N) (digits : list N).

Definition close_atom (st : lex_state) (acc : list token) : list token :=
  match st with
  | LAtom a => TAtom (rev a) :: acc
  | _ => acc
  end.

Definition push_unicode (s : str) (hi : option N) (code : N) : lex_state :=
  match hi with
  | Some h =>
      if is_low_surrogate code
      then LString (join_surrogates h code :: tl s) None
      else LString (code :: s)
                   (if is_high_surrogate code then Some code else None)
  | None =>
      LString (code :: s) (if is_high_surrogate code then Some code else None)
  end.

(** One character: the next state and the tokens read so far (in
    reverse), or [None] on a lexical error. *)
Definition lex_step (st : lex_state) (acc : list token) (c : char)
  : option (lex_state * list token) :=
  match st with
  | LString s hi =>
      if (c =? QUOTE)%N then Some (LBetween, TString (rev s) :: acc)
      else if (c =? BACKSLASH)%N then Some (LEscape s hi, acc)
      else if (c <? 32)%N then None
      else Some (LString (c :: s) None, acc)
  | LEscape s hi =>
      if (c =? 117)%N then Some (LUnicode s hi [], acc)
      else match simple_escape c with
           | Some d => Some (LString (d :: s) None, acc)
           | None => None
           end
  | LUnicode s hi ds =>
      match hex_value c with
      | None => None
      | Some d =>
          match ds with
          | [d1; d2; d3] =>
              Some (push_unicode s hi (((d1 * 16 + d2) * 16 + d3) * 16 + d)%N,
                    acc)
          | _ => Some (LUnicode s hi (ds ++ [d]), acc)
          end
      end
  | LBetween | LAtom _ =>
      if is_atom_char c then
        Some (LAtom (c :: match st with LAtom a => a | _ => [] end), acc)
      else if is_json_ws c then Some (LBetween, close_atom st acc)
      else if (c =? QUOTE)%N then Some (LString [] None, close_atom st acc)
      else match punct c with
           | Some t => Some (LBetween, t :: close_atom st acc)
           | None => None
           end
  end.

Fixpoint lex (st : lex_state) (acc : list token) (s : str)
  : option (list token) :=
  match s with
  | [] =>
      match st with
      | LBetween | LAtom _ => Some (rev (close_atom st acc))
      | _ => None
      end
  | c :: s' =>
      match lex_step st acc c with
      | Some (st', acc') => lex st' acc' s'
      | None => None
      end
  end.

(** The states inside a string literal. *)
Definition in_string (st : lex_state) : bool :=
  match st with
  | LBetween | LAtom _ => false
  | _ => true
  end.

(** Whether the lexer reads [s] to its end from state [st]. *)
Fixpoint lex_accepts (st : lex_state) (s : str) : bool :=
  match s with
  | [] => negb (in_string st)
  | c :: s' =>
      match lex_step st [] c with
      | Some (st', _) => lex_accepts st' s'
      | None => false
      end
  end.

(** *** Literals and numbers *)

Fixpoint decimal_value (ds : str) (acc : Z) : Z :=
  match ds with
  | [] => acc
  | c :: ds' => decimal_value ds' (acc * 10 + Z.of_N (c - 48))%Z
  end.

(** The integer part of a number: [0] or a digit string without a
    leading zero. *)
Definition int_part_ok (ds : str) : bool :=
  match ds with
  | [] => false
  | [_] => true
  | c :: _ => negb (c =? 48)%N
  end.

(** A fraction [.d+] or nothing; [None] when a dot is not followed by a
    digit. *)
Definition skip_fraction (s : str) : option (bool * str) :=
  match s with
  | c :: s' =>
      if (c =? 46)%N then
        match span is_digit s' with
        | ([], _) => None
        | (_, r) => Some (true, r)
        end
      else Some (false, s)
  | [] => Some (false, [])
  end.

(** An exponent [[eE][+-]?d+] up to the end of the atom, or nothing. *)
Definition exponent_ok (s : str) : option bool :=
  match s with
  | [] => Some false
  | c :: s' =>
      if ((c =? 101) || (c =? 69))%N then
        let digits :=
          match s' with
          | sg :: s'' => if ((sg =? 43) || (sg =? 45))%N then s'' else s'
          | [] => []
          end in
        match span is_digit digits with
        | (_ :: _, []) => Some true
        | _ => None
        end
      else None
  end.

Definition number_value (a : str) : option json :=
  let (neg, body) :=
    match a with
    | c :: a' => if (c =? 45)%N then (true, a') else (false, a)
    | [] => (false, [])
    end in
  let (ds, r1) := span is_digit body in
  if int_part_ok ds then
    match skip_fraction r1 with
    | Some (frac, r2) =>
        match exponent_ok r2 with
        | Some ex =>
            if frac || ex then Some (JFloat a)
            else Some (JInt (if neg then - decimal_value ds 0
                             else decimal_value ds 0)%Z)
        | None => None
        end
    | None => None
    end
  else None.

Definition atom_value (a : str) : option json :=
  if str_eqb a (u "null") then Some JNull
  else if str_eqb a (u "true") then Some (JBool true)
  else if str_eqb a (u "false") then Some (JBool false)
  else if str_eqb a (u "NaN") || str_eqb a (u "Infinity")
          || str_eqb a (u "-Infinity") then Some (JFloat a)
  else number_value a.

(** *** Parsing the tokens

    A frame is a container under construction that waits for a value. *)
Inductive frame : Type :=
| InList (items : list json)            (* items read so far, reversed *)
| InDict (d : dict) (key : str).        (* the members so far and the key read *)

Inductive parse_state : Type :=
| PValue (stack : list frame)            (* a value must start here *)
| PListStart (stack : list frame)        (* after [[]: a value or []] *)
| PListNext (items : list json) (stack : list frame)   (* [,] or []] *)
| PDictStart (stack : list frame)        (* after [{]: a key or [}] *)
| PDictKey (d : dict) (stack : list frame)             (* after [,]: a key *)
| PDictColon (d : dict) (key : str) (stack : list frame)
| PDictNext (d : dict) (stack : list frame)            (* [,] or [}] *)
| PDone (v : json).                      (* the top-level value is complete *)

(** A value is complete: hand it to the innermost open container. *)
Definition complete (v : json) (stack : list frame) : parse_state :=
  match stack with
  | [] => PDone v
  | InList items :: stack' => PListNext (v :: items) stack'
  | InDict d k :: stack' => PDictNext (dict_set d k v) stack'
  end.

Definition start_value (t : token) (stack : list frame)
  : option parse_state :=
  match t with
  | TString s => Some (complete (JStr s) stack)
  | TAtom a =>
      match atom_value a with
      | Some v => Some (complete v stack)
      | None => None
      end
  | TLBracket => Some (PListStart stack)
  | TLBrace => Some (PDictStart stack)
  | _ => None
  end.

Definition parse_step (st : parse_state) (t : token) : option parse_state :=
  match st with
  | PValue stack => start_value t stack
  | PListStart stack =>
      match t with
      | TRBracket => Some (complete (JList []) stack)
      | _ => start_value t (InList [] :: stack)
      end
  | PListNext items stack =>
      match t with
      | TComma => Some (PValue (InList items :: stack))
      | TRBracket => Some (complete (JList (rev items)) stack)
      | _ => None
      end
  | PDictStart stack =>
      match t with
      | TRBrace => Some (complete (JDict []) stack)
      | TString k => Some (PDictColon [] k stack)
      | _ => None
      end
  | PDictKey d stack =>
      match t with
      | TString k => Some (PDictColon d k stack)
      | _ => None
      end
  | PDictColon d k stack =>
      match t with
      | TColon => Some (PValue (InDict d k :: stack))
      | _ => None
      end
  | PDictNext d stack =>
      match t with
      | TComma => Some (PDictKey d stack)
      | TRBrace => Some (complete (JDict d) stack)
      | _ => None
      end
  | PDone _ => None
  end.

Fixpoint parse (st : parse_state) (ts : list token) : option json :=
  match ts with
  | [] => match st with PDone v => Some v | _ => None end
  | t :: ts' =>
      match parse_step st t with
      | Some st' => parse st' ts'
      | None => None
      end
  end.

(** [json.loads(s)]: [None] stands for [json.JSONDecodeError]. *)
Definition json_loads (s : str) : option json :=
  match lex LBetween [] s with
  | Some ts => parse (PValue []) ts
  | None => None
  end.

End Json.
Import Json.

(** ** The regular expressions of [_fix_json_string]

    Each [re.sub] is a left-to-right scan that removes (or rewrites) the
    non-overlapping matches; [re.search] returns the leftmost match. *)

Module Re.

Inductive fence_state : Type :=
| FCopy                 (* outside a match *)
| FSkip (n : nat)       (* [n] characters of the marker still to drop *)
| FSpaces.              (* in the [\s*] that follows the marker *)

(** [re.sub(r"^```(?:json)?\s*\n?", "", s, flags=re.MULTILINE)].
    [bol] tells whether the current position is the start of the text or
    follows a line feed.  After the greedy [\s*] the optional [\n]
    matches nothing. *)
Fixpoint sub_open_fence (st : fence_state) (bol : bool) (s : str) : str :=
  match s with
  | [] => []
  | c :: s' =>
      let scan :=
        if bol && startswith (u "```json") s
        then sub_open_fence (FSkip 6) false s'
        else if bol && startswith (u "```") s
        then sub_open_fence (FSkip 2) false s'
        else c :: sub_open_fence FCopy (c =? LF)%N s' in
      match st with
      | FSkip (S (S n)) => sub_open_fence (FSkip (S n)) false s'
      | FSkip _ => sub_open_fence FSpaces false s'
      | FSpaces =>
          if isspace c then sub_open_fence FSpaces (c =? LF)%N s' else scan
      | FCopy => scan
      end
  end.

Definition re_sub_open_fence (s : str) : str := sub_open_fence FCopy true s.

(** Index of the last line feed of [s]. *)
Fixpoint last_lf (s : str) : option nat :=
  match s with
  | [] => None
  | c :: s' =>
      match last_lf s' with
      | Some i => Some (S i)
      | None => if (c =? LF)%N then Some 0 else None
      end
  end.

(** Length of the match of [\n?```\s*$] (MULTILINE) at the head of [s].
    The greedy [\s*] runs to the end of the text, or is cut back to just
    before the last line feed of the run. *)
Definition close_fence_match (s : str) : option nat :=
  let (nl, q) :=
    match s with
    | c :: s' => if (c =? LF)%N then (1, s') else (0, s)
    | [] => (0, [])
    end in
  if startswith (u "```") q then
    let (run, rest) := span isspace (skipn 3 q) in
    match rest with
    | [] => Some (nl + 3 + List.length run)
    | _ :: _ =>
        match last_lf run with
        | Some i => Some (nl + 3 + i)
        | None => None
        end
    end
  else None.

(** [re.sub(r"\n?```\s*$", "", s, flags=re.MULTILINE)]; [skip] counts the
    characters of the current match still to drop. *)
Fixpoint sub_close_fence (skip : nat) (s : str) : str :=
  match s with
  | [] => []
  | c :: s' =>
      match skip with
      | S n => sub_close_fence n s'
      | O =>
          match close_fence_match s with
          | Some (S n) => sub_close_fence n s'
          | _ => c :: sub_close_fence 0 s'
          end
      end
  end.

Definition re_sub_close_fence (s : str) : str := sub_close_fence 0 s.

(** The suffix of [s] that starts at the first [c0]. *)
Fixpoint from_first (c0 : char) (s : str) : str :=
  match s with
  | [] => []
  | c :: s' => if (c =? c0)%N then s else from_first c0 s'
  end.

(** [re.search(r"\{[\s\S]+\}", s)]: from the first [{] to the last [}]
    after it, with at least one character in between. *)
Definition re_search_braces (s : str) : option str :=
  let block := rev (from_first RBRACE (rev (from_first LBRACE s))) in
  if 3 <=? List.length block then Some block else None.

Definition closer_follows (s : str) : bool :=
  match snd (span isspace s) with
  | c :: _ => ((c =? RBRACE) || (c =? RBRACKET))%N
  | [] => false
  end.

(** [re.sub(r",\s*([}\]])", r"\1", s)]: a comma followed by white space
    and a closing brace or bracket loses the comma and the white space. *)
Fixpoint sub_trailing_commas (skip : nat) (s : str) : str :=
  match s with
  | [] => []
  | c :: s' =>
      match skip with
      | S n => sub_trailing_commas n s'
      | O =>
          if (c =? COMMA)%N && closer_follows s'
          then sub_trailing_commas (List.length (fst (span isspace s'))) s'
          else c :: sub_trailing_commas 0 s'
      end
  end.

Definition re_sub_trailing_commas (s : str) : str := sub_trailing_commas 0 s.

End Re.
Import Re.

(** ** Exceptions and results *)

Module Py.

Inductive value_error : Type :=
| CannotExtractJSON (raw : str)   (* carries the first 300 characters *)
| NonDictJSON (type_name : str)   (* "LLM returned non-dict JSON: ..." *)
| NoTextExtracted                 (* "... (not a scanned image)." *)
| MissingAdzunaKeys.

(** The text of a [ValueError]. *)
Definition value_error_message (e : value_error) : str :=
  match e with
  | CannotExtractJSON raw =>
      u "Cannot extract valid JSON from LLM response. Raw (first 300 chars): "
      ++ raw
  | NonDictJSON type_name =>
      u "LLM returned non-dict JSON: <class '" ++ type_name ++ u "'>"
  | NoTextExtracted =>
      u "No text could be extracted from the uploaded PDF. Please ensure it is a text-based PDF (not a scanned image)."
  | MissingAdzunaKeys =>
      u "Job search integration is not configured (missing Adzuna keys)."
  end.

(** The exception classes the modelled code raises or handles.
    [HTTPStatusError] keeps the status and the truncated body of its
    message (no body for the 429 message); [RuntimeError] keeps the two
    values interpolated into "All {n} LLM models failed. Last error:
    {last_error}".  [TransportError] stands for the [httpx] request
    errors that are not timeouts. *)
Inductive exn : Type :=
| HTTPStatusError (status : Z) (body : str)
| TimeoutException
| TransportError
| JSONDecodeError
| ValueError (msg : value_error)
| KeyError (key : json)
| IndexError
| TypeError
| AttributeError
| RuntimeError (n : nat) (last_error : option exn).

Inductive result (A : Type) : Type :=
| Ok (a : A)
| Raise (e : exn).
Arguments Ok {A} a.
Arguments Raise {A} e.

Definition bind {A B} (r : result A) (k : A -> result B) : result B :=
  match r with
  | Ok a => k a
  | Raise e => Raise e
  end.

(** [isinstance(e, (httpx.HTTPStatusError, httpx.TimeoutException))] *)
Definition is_http_or_timeout (e : exn) : bool :=
  match e with
  | HTTPStatusError _ _ | TimeoutException => true
  | _ => false
  end.

(** [isinstance(e, (ValueError, KeyError))]; [json.JSONDecodeError] is a
    subclass of [ValueError]. *)
Definition is_value_or_key (e : exn) : bool :=
  match e with
  | ValueError _ | JSONDecodeError | KeyError _ => true
  | _ => false
  end.

(** The handlers of the fallback loop catch exactly these. *)
Definition recoverable (e : exn) : bool :=
  is_http_or_timeout e || is_value_or_key e.

(** [type(v).__name__] *)
Definition type_name (v : json) : str :=
  match v with
  | JNull => u "NoneType"
  | JBool _ => u "bool"
  | JInt _ => u "int"
  | JFloat _ => u "float"
  | JStr _ => u "str"
  | JList _ => u "list"
  | JDict _ => u "dict"
  end.

(** [v[k]] for a string key. *)
Definition getitem_key (v : json) (k : str) : result json :=
  match v with
  | JDict d =>
      match dict_get d k with
      | Some x => Ok x
      | None => Raise (KeyError (JStr k))
      end
  | _ => Raise TypeError
  end.

(** [v[0]] *)
Definition getitem_0 (v : json) : result json :=
  match v with
  | JList (x :: _) => Ok x
  | JList [] => Raise IndexError
  | JStr (c :: _) => Ok (JStr [c])
  | JStr [] => Raise IndexError
  | JDict _ => Raise (KeyError (JInt 0))
  | _ => Raise TypeError
  end.

(** What the embedding takes from the interpreter and from [config.py]:
    built-ins whose result depends on the Unicode database, on binary
    floating point or on the interpreter version, and configured
    constants. *)
Class Host : Type := {
  (** [str(v)] for a value that is not a [str] *)
  py_str : json -> str;
  (** [s.title()] *)
  py_title : str -> str;
  (** [s.upper()] *)
  py_upper : str -> str;
  (** [bool(x)] for the float read from a literal *)
  float_truthy : str -> bool;
  (** the float read from a literal compared with an integer; [None]
      for NaN *)
  float_compare_int : str -> Z -> option comparison;
  (** two floats compared; [None] when one is NaN *)
  float_compare : str -> str -> option comparison;
  (** what [d[:500]] raises for a dict [d]: [TypeError] before Python
      3.12, [KeyError] from 3.12 on *)
  dict_slice_error : exn;
  (** [config.DEFAULT_LLM_MODEL] *)
  DEFAULT_LLM_MODEL : str;
  (** the text of [PORTFOLIO_EXTRACTION_PROMPT] *)
  PORTFOLIO_EXTRACTION_PROMPT : str;
  (** [config.ADZUNA_APP_ID] and [config.ADZUNA_APP_KEY] *)
  ADZUNA_APP_ID : str;
  ADZUNA_APP_KEY : str
}.

(** [bool(v)] *)
Definition truthy `{Host} (v : json) : bool :=
  match v with
  | JNull => false
  | JBool b => b
  | JInt z => negb (z =? 0)%Z
  | JFloat f => float_truthy f
  | JStr s => match s with [] => false | _ => true end
  | JList l => match l with [] => false | _ => true end
  | JDict d => match d with [] => false | _ => true end
  end.

End Py.
Import Py.

(** ** [generator.py] *)

Module Generator.

(** Ordered list of fallback models to try if the primary fails. *)
Definition FALLBACK_MODELS : list str :=
  [ u "google/gemma-3-12b-it:free";
    u "google/gemma-3-4b-it:free";
    u "meta-llama/llama-3.3-70b-instruct:free";
    u "meta-llama/llama-3.2-3b-instruct:free";
    u "mistralai/mistral-small-3.1-24b-instruct:free";
    u "deepseek/deepseek-r1-0528:free";
    u "qwen/qwen3-4b:free" ].

(** A PDF is given by the text [page.extract_text()] returns for each of
    its pages. *)
Definition pdf := list str.

(** Read all pages of a PDF and return concatenated text. *)
Definition extract_text_from_pdf (reader_pages : pdf) : str :=
  let pages :=
    filter (fun text => match text with [] => false | _ => true end)
           reader_pages in
  join [LF] pages.

(** Try several strategies to get valid JSON from LLM output. *)
Definition _fix_json_string (text : str) : result json :=
  let text := strip text in
  (* Strategy 1: strip markdown code fences *)
  let text := re_sub_open_fence text in
  let text := re_sub_close_fence text in
  let text := strip text in
  (* Strategy 2: direct JSON parse *)
  match json_loads text with
  | Some v => Ok v
  | None =>
  (* Strategy 3: the outermost { ... } block *)
  match match re_search_braces text with
        | Some candidate => json_loads candidate
        | None => None
        end with
  | Some v => Ok v
  | None =>
  (* Strategy 4: remove trailing commas before } or ] *)
  let cleaned := re_sub_trailing_commas text in
  match json_loads cleaned with
  | Some v => Ok v
  | None =>
  (* Strategy 5: the { ... } block of the cleaned text *)
  match match re_search_braces cleaned with
        | Some candidate => json_loads candidate
        | None => None
        end with
  | Some v => Ok v
  | None => Raise (ValueError (CannotExtractJSON (firstn 300 text)))
  end end end end.

(** The keys of an extraction result and their kinds. *)
Definition REQUIRED_KEYS : list str :=
  [u "name"; u "role"; u "tagline"; u "bio"; u "skills"; u "projects";
   u "experience"; u "education"; u "achievements"; u "contact"].
Definition STRING_KEYS : list str :=
  [u "name"; u "role"; u "tagline"; u "bio"].
Definition LIST_KEYS : list str :=
  [u "skills"; u "projects"; u "experience"; u "education";
   u "achievements"].

(** The text that reaches the parsing strategies. *)
Definition unfenced (text : str) : str :=
  strip (re_sub_close_fence (re_sub_open_fence (strip text))).

(** A text wrapped in a markdown code fence, tagged or bare. *)
Definition fence_json (t : str) : str :=
  u "```json" ++ [LF] ++ t ++ [LF] ++ u "```".
Definition fence_bare (t : str) : str :=
  u "```" ++ [LF] ++ t ++ [LF] ++ u "```".

Section WithHost.
Context {host : Host}.

Definition defaults (username : str) : list (str * json) :=
  [ (u "name", JStr (match username with
                     | [] => u "Unknown"
                     | _ => py_title username
                     end));
    (u "role", JStr []);
    (u "tagline", JStr []);
    (u "bio", JStr []);
    (u "skills", JList []);
    (u "projects", JList []);
    (u "experience", JList []);
    (u "education", JList []);
    (u "achievements", JList []);
    (u "contact", JDict []) ].

Definition is_list (v : json) : bool :=
  match v with JList _ => true | _ => false end.
Definition is_dict (v : json) : bool :=
  match v with JDict _ => true | _ => false end.
Definition is_str (v : json) : bool :=
  match v with JStr _ => true | _ => false end.

(** The three type-coercion tests of the loop body, in order. *)
Definition coerce (default val : json) : json :=
  let val := if is_list default && negb (is_list val) then default else val in
  let val := if is_dict default && negb (is_dict val) then default else val in
  let val :=
    if is_str default && negb (is_str val)
    then (if truthy val then JStr (py_str val) else default)
    else val in
  val.

Definition normalise_dict (data : dict) (username : str) : dict :=
  fold_left
    (fun result kd =>
       let '(key, default) := kd in
       let val := get_or data key default in
       dict_set result key (coerce default val))
    (defaults username) [].

(** Ensure all required keys are present and have correct types. *)
Definition _validate_and_normalise (data : json) (username : str)
  : result dict :=
  match data with
  | JDict d => Ok (normalise_dict d username)
  | _ => Raise (ValueError (NonDictJSON (type_name data)))
  end.

(** *** The model call *)

Record chat_request : Type := {
  req_model : str;
  req_api_key : str;
  req_prompt : str
}.

(** What [client.post] does: it raises, or returns a response with a
    status code and a body. *)
Inductive post_outcome : Type :=
| PostRaises (e : exn)
| PostReturns (status_code : Z) (text : str).

(** The network: the outcome of the [n]-th request of a run. *)
Definition http_client := nat -> chat_request -> post_outcome.

(** [len(v)] *)
Definition py_len (v : json) : result nat :=
  match v with
  | JStr s => Ok (List.length s)
  | JList l => Ok (List.length l)
  | JDict d => Ok (List.length d)
  | _ => Raise TypeError
  end.

(** [v[:n]] for a value that has a length. *)
Definition py_slice_to (n : nat) (v : json) : result json :=
  match v with
  | JStr s => Ok (JStr (firstn n s))
  | JList l => Ok (JList (firstn n l))
  | JDict _ => Raise dict_slice_error
  | _ => Raise TypeError
  end.

(** Make one LLM API call. Returns raw content. Raises on failure. *)
Definition _call_llm (client : http_client) (n : nat)
    (model api_key prompt : str) : result json :=
  match client n {| req_model := model; req_api_key := api_key;
                    req_prompt := prompt |} with
  | PostRaises e => Raise e
  | PostReturns status_code text =>
      if (status_code =? 429)%Z then Raise (HTTPStatusError 429 [])
      else if negb (status_code =? 200)%Z
      then Raise (HTTPStatusError status_code (firstn 300 text))
      else
        match json_loads text with
        | None => Raise JSONDecodeError
        | Some data =>
            bind (getitem_key data (u "choices")) (fun choices =>
            bind (getitem_0 choices) (fun choice =>
            bind (getitem_key choice (u "message")) (fun message =>
            bind (getitem_key message (u "content")) (fun content =>
            bind (py_len content) (fun _ =>
            bind (py_slice_to 500 content) (fun _ =>
            Ok content))))))
        end
  end.

(** *** The fallback loop *)

Inductive event : Type :=
| EvPost (model : str)        (* one chat-completion request *)
| EvSleep (seconds : Z).      (* [asyncio.sleep] *)

Definition models_to_try (preferred : str) : list str :=
  preferred :: filter (fun m => negb (str_eqb m preferred)) FALLBACK_MODELS.

(** The body of the [try] of one loop iteration. *)
Definition attempt (client : http_client) (n : nat)
    (attempt_model api_key prompt username : str) : result dict :=
  bind (_call_llm client n attempt_model api_key prompt) (fun raw_content =>
  bind (match raw_content with
        | JStr s => _fix_json_string s
        | _ => Raise AttributeError      (* [text.strip()] *)
        end) (fun parsed =>
  _validate_and_normalise parsed username)).

(** The [for] loop over the models still to try, from iteration [n];
    [total] is [len(models_to_try)]. *)
Fixpoint try_models (client : http_client) (api_key prompt username : str)
    (total n : nat) (models : list str) (last_error : option exn)
  : result dict * list event :=
  match models with
  | [] => (Raise (RuntimeError total last_error), [])
  | attempt_model :: rest =>
      match attempt client n attempt_model api_key prompt username with
      | Ok res => (Ok res, [EvPost attempt_model])
      | Raise e =>
          if is_http_or_timeout e then
            let (r, tr) := try_models client api_key prompt username total
                                      (S n) rest (Some e) in
            (r, EvPost attempt_model :: EvSleep 1 :: tr)
          else if is_value_or_key e then
            let (r, tr) := try_models client api_key prompt username total
                                      (S n) rest (Some e) in
            (r, EvPost attempt_model :: tr)
          else (Raise e, [EvPost attempt_model])
      end
  end.

(** [model or DEFAULT_LLM_MODEL] *)
Definition preferred_model (model : option str) : str :=
  match model with
  | Some ((_ :: _) as m) => m
  | _ => DEFAULT_LLM_MODEL
  end.

(** Call the LLM (with fallback models) to structure resume text into
    portfolio JSON. *)
Definition generate_portfolio_data (client : http_client)
    (resume_text api_key : str) (model : option str) (username : str)
  : result dict * list event :=
  let prompt := PORTFOLIO_EXTRACTION_PROMPT ++ resume_text in
  let preferred := preferred_model model in
  let models_to_try := models_to_try preferred in
  try_models client api_key prompt username (List.length models_to_try) 0
             models_to_try None.

(** End-to-end: extract PDF text -> generate structured portfolio data.
    [profile_image_url] is what [extract_profile_image_from_pdf]
    returns. *)
Definition process_resume (client : http_client) (pdf_pages : pdf)
    (api_key : str) (model : option str) (username : str)
    (profile_image_url : option str) : result dict * list event :=
  let text := extract_text_from_pdf pdf_pages in
  match strip text with
  | [] => (Raise (ValueError NoTextExtracted), [])
  | _ :: _ =>
      let (r, tr) := generate_portfolio_data client text api_key model
                                             username in
      match r with
      | Raise e => (Raise e, tr)
      | Ok portfolio =>
          let portfolio := dict_set portfolio (u "_raw_text") (JStr text) in
          let portfolio :=
            match profile_image_url with
            | Some ((_ :: _) as url) =>
                dict_set portfolio (u "profile_image_url") (JStr url)
            | _ => portfolio
            end in
          (Ok portfolio, tr)
      end
  end.

(** The calls to a model recorded in a trace. *)
Definition posts (tr : list event) : list str :=
  flat_map (fun e => match e with EvPost m => [m] | EvSleep _ => [] end) tr.

End WithHost.

End Generator.
Import Generator.

(** ** [jobs_engine.py] *)

Module JobsEngine.

Section WithHost.
Context {host : Host}.

(** The columns of the [Portfolio] row the job matcher reads. *)
Record Portfolio : Type := {
  slug : str;
  role : json;
  bio : json;
  skills : json;
  experience : json;
  contact : json
}.

Record JobFilter : Type := {
  location : option str;
  level : option str;
  remote : option bool;
  salary_min : option Z;
  what : option str
}.

Inductive event : Type :=
| EvListings (country : str)   (* the request to the listings API *)
| EvScoring.                   (* the scoring request to the LLM *)

(** *** Scoring *)

(** [s.replace(pat, "")] for a non-empty [pat]. *)
Fixpoint remove_all (pat : str) (skip : nat) (s : str) : str :=
  match s with
  | [] => []
  | c :: s' =>
      match skip with
      | S n => remove_all pat n s'
      | O =>
          if startswith pat s then remove_all pat (List.length pat - 1) s'
          else c :: remove_all pat 0 s'
      end
  end.

(** [', '.join(portfolio.skills or [])] raises [TypeError] unless the
    value is an iterable of strings; the rest of the summary cannot
    raise. *)
Definition user_summary_check (portfolio : Portfolio) : result unit :=
  if truthy (skills portfolio) then
    match skills portfolio with
    | JList l => if forallb is_str l then Ok tt else Raise TypeError
    | JStr _ | JDict _ => Ok tt
    | _ => Raise TypeError
    end
  else Ok tt.

(** The entry of one job in [jobs_json_str]: [j["title"]],
    [j["company"]] and [j["description"][:200] + "..."]. *)
Definition job_entry_check (j : dict) : result unit :=
  bind (getitem_key (JDict j) (u "title")) (fun _ =>
  bind (getitem_key (JDict j) (u "company")) (fun _ =>
  bind (getitem_key (JDict j) (u "description")) (fun description =>
  bind (py_slice_to 200 description) (fun truncated =>
  match truncated with
  | JStr _ => Ok tt
  | _ => Raise TypeError
  end)))).

Fixpoint job_entries_check (jobs_to_score : list dict) : result unit :=
  match jobs_to_score with
  | [] => Ok tt
  | j :: rest => bind (job_entry_check j) (fun _ => job_entries_check rest)
  end.

(** Building the prompt (lines 93 to 127): only whether it raises is
    modelled, not its text. *)
Definition scoring_prompt_check (portfolio : Portfolio)
    (jobs_to_score : list dict) : result unit :=
  bind (user_summary_check portfolio) (fun _ =>
  job_entries_check jobs_to_score).

Definition as_int (v : json) : option Z :=
  match v with
  | JInt z => Some z
  | JBool b => Some (if b then 1 else 0)%Z
  | _ => None
  end.

(** [v >= n] and [v < n] for an integer [n]. *)
Definition ge_int (v : json) (n : Z) : result bool :=
  match v with
  | JFloat f =>
      Ok (match float_compare_int f n with
          | Some Eq | Some Gt => true
          | _ => false
          end)
  | _ => match as_int v with
         | Some z => Ok (n <=? z)%Z
         | None => Raise TypeError
         end
  end.

Definition lt_int (v : json) (n : Z) : result bool :=
  match v with
  | JFloat f =>
      Ok (match float_compare_int f n with
          | Some Lt => true
          | _ => false
          end)
  | _ => match as_int v with
         | Some z => Ok (z <? n)%Z
         | None => Raise TypeError
         end
  end.

(** [idx is not None and 0 <= idx < n] *)
Definition index_in_range (idx : json) (n : nat) : result bool :=
  match idx with
  | JNull => Ok false
  | _ => bind (ge_int idx 0) (fun nonneg =>
         if nonneg then lt_int idx (Z.of_nat n) else Ok false)
  end.

(** [jobs_to_score[idx]] for an index known to be in range. *)
Definition job_at (jobs_to_score : list dict) (idx : json) : result dict :=
  match as_int idx with
  | Some z =>
      match nth_error jobs_to_score (Z.to_nat z) with
      | Some j => Ok j
      | None => Raise IndexError
      end
  | None => Raise TypeError
  end.

(** [for s in scores] *)
Definition iterate (v : json) : result (list json) :=
  match v with
  | JList l => Ok l
  | JDict d => Ok (map (fun kv => JStr (fst kv)) d)
  | JStr s => Ok (map (fun c => JStr [c]) s)
  | _ => Raise TypeError
  end.

Definition score_of (job : dict) : json := get_or job (u "match_score") JNull.

(** Merge scores back to jobs, keeping the jobs with a score of 40 or
    more. *)
Fixpoint merge_scores (jobs_to_score : list dict) (scores : list json)
    (scored_jobs : list dict) : result (list dict) :=
  match scores with
  | [] => Ok scored_jobs
  | s :: rest =>
      match s with
      | JDict sd =>
          let idx := get_or sd (u "index") JNull in
          bind (index_in_range idx (List.length jobs_to_score)) (fun ok =>
          if ok then
            bind (job_at jobs_to_score idx) (fun job =>
            let job := dict_set job (u "match_score")
                                (get_or sd (u "score") (JInt 0)) in
            let job := dict_set job (u "match_reason")
                                (get_or sd (u "reason")
                                        (JStr (u "Good match for your profile."))) in
            bind (ge_int (score_of job) 40) (fun keep =>
            merge_scores jobs_to_score rest
                         (if keep then scored_jobs ++ [job] else scored_jobs)))
          else merge_scores jobs_to_score rest scored_jobs)
      | _ => Raise AttributeError       (* [s.get] *)
      end
  end.

(** [a < b] on two scores that passed the [>= 40] test. *)
Definition score_lt (a b : json) : bool :=
  match a, b with
  | JFloat x, JFloat y =>
      match float_compare x y with Some Lt => true | _ => false end
  | JFloat x, _ =>
      match as_int b with
      | Some z => match float_compare_int x z with Some Lt => true | _ => false end
      | None => false
      end
  | _, JFloat y =>
      match as_int a with
      | Some z => match float_compare_int y z with Some Gt => true | _ => false end
      | None => false
      end
  | _, _ =>
      match as_int a, as_int b with
      | Some x, Some y => (x <? y)%Z
      | _, _ => false
      end
  end.

(** [scored_jobs.sort(key=..., reverse=True)]: descending and stable. *)
Fixpoint insert_desc (job : dict) (sorted : list dict) : list dict :=
  match sorted with
  | [] => [job]
  | j :: rest =>
      if score_lt (score_of j) (score_of job) then job :: sorted
      else j :: insert_desc job rest
  end.

Definition sort_desc (jobs : list dict) : list dict :=
  fold_left (fun sorted job => insert_desc job sorted) jobs [].

(** The body of the [try]: [Ok (Some jobs)] when it returns,
    [Ok None] when the response is not a 200 and control leaves the
    [try] without returning. *)
Definition scoring_attempt (answer : post_outcome)
    (jobs_to_score : list dict) : result (option (list dict)) :=
  match answer with
  | PostRaises e => Raise e
  | PostReturns status_code text =>
      if (status_code =? 200)%Z then
        match json_loads text with
        | None => Raise JSONDecodeError
        | Some data =>
            bind (getitem_key data (u "choices")) (fun choices =>
            bind (getitem_0 choices) (fun choice =>
            bind (getitem_key choice (u "message")) (fun message =>
            bind (getitem_key message (u "content")) (fun content =>
            match content with
            | JStr content =>
                let content :=
                  strip (remove_all (u "```") 0
                           (remove_all (u "```json") 0 content)) in
                match json_loads content with
                | None => Raise JSONDecodeError
                | Some scores =>
                    bind (iterate scores) (fun items =>
                    bind (merge_scores jobs_to_score items []) (fun scored =>
                    Ok (Some (sort_desc scored))))
                end
            | _ => Raise AttributeError      (* [content.replace] *)
            end))))
        end
      else Ok None
  end.

(** The scoring path does not return: the [try] block is left without a
    [return], normally or by an exception. *)
Definition scoring_fails (answer : post_outcome) (jobs_to_score : list dict)
  : Prop :=
  scoring_attempt answer jobs_to_score = Ok None
  \/ exists e, scoring_attempt answer jobs_to_score = Raise e.

Definition FALLBACK_REASON : str :=
  u "Based on keyword matching with your resume skills.".

(** The fallback loop over [enumerate(jobs[:10])], from index [i]. *)
Fixpoint fallback_from (i : Z) (jobs : list dict) : list dict :=
  match jobs with
  | [] => []
  | j :: rest =>
      let j := dict_set j (u "match_score") (JInt (80 - i * 2)) in
      let j := dict_set j (u "match_reason") (JStr FALLBACK_REASON) in
      j :: fallback_from (i + 1) rest
  end.

Definition fallback_jobs (jobs : list dict) : list dict :=
  fallback_from 0 (firstn 10 jobs).

(** Use an LLM to evaluate the relevance of each job against the user
    portfolio.  [answer] is the outcome of the scoring request. *)
Definition _score_and_filter_jobs (answer : post_outcome)
    (jobs : list dict) (portfolio : Portfolio)
  : result (list dict) * list event :=
  match jobs with
  | [] => (Ok [], [])
  | _ :: _ =>
      let jobs_to_score := firstn 15 jobs in
      match scoring_prompt_check portfolio jobs_to_score with
      | Raise e => (Raise e, [])
      | Ok _ =>
          match scoring_attempt answer jobs_to_score with
          | Ok (Some scored_jobs) => (Ok scored_jobs, [EvScoring])
          | Ok None | Raise _ => (Ok (fallback_jobs jobs), [EvScoring])
          end
      end
  end.

(** *** The listings request

    The request to the listings API and the reading of its answer
    (lines 38 to 85) are an answer of the environment: the jobs read, or
    the exception raised on the way.  The credentials are checked
    first. *)
Definition _fetch_adzuna_jobs (listings : str -> result (list dict))
    (user_country : str) : result (list dict) * list event :=
  match ADZUNA_APP_ID, ADZUNA_APP_KEY with
  | _ :: _, _ :: _ => (listings user_country, [EvListings user_country])
  | _, _ => (Raise (ValueError MissingAdzunaKeys), [])
  end.

(** *** The cache: [TTLCache(maxsize=100, ttl=600)]

    The entries are kept in the order of the cache's links, the least
    recently used first; times are readings of the cache's timer. *)
Record cache_entry : Type := {
  ce_key : str;
  ce_value : list dict;
  ce_expires : Z
}.

Definition ttl_cache := list cache_entry.

Definition MAXSIZE : nat := 100.
Definition TTL : Z := 600.

Fixpoint cache_find (c : ttl_cache) (k : str) : option cache_entry :=
  match c with
  | [] => None
  | e :: c' => if str_eqb (ce_key e) k then Some e else cache_find c' k
  end.

Definition cache_remove (c : ttl_cache) (k : str) : ttl_cache :=
  filter (fun e => negb (str_eqb (ce_key e) k)) c.

(** [k in cache] at time [now] *)
Definition cache_contains (c : ttl_cache) (k : str) (now : Z) : bool :=
  match cache_find c k with
  | Some e => (now <? ce_expires e)%Z
  | None => false
  end.

(** [cache[k]] at time [now]; the entry read becomes the most recently
    used. *)
Definition cache_getitem (c : ttl_cache) (k : str) (now : Z)
  : result (list dict) * ttl_cache :=
  match cache_find c k with
  | Some e =>
      if (now <? ce_expires e)%Z
      then (Ok (ce_value e), cache_remove c k ++ [e])
      else (Raise (KeyError (JStr k)), cache_remove c k ++ [e])
  | None => (Raise (KeyError (JStr k)), c)
  end.

(** [cache.expire(now)] *)
Definition cache_expire (c : ttl_cache) (now : Z) : ttl_cache :=
  filter (fun e => (now <? ce_expires e)%Z) c.

(** [cache[k] = v] at time [now]: expired entries go, then the least
    recently used ones while there is no room for a new key. *)
Definition cache_setitem (c : ttl_cache) (k : str) (v : list dict) (now : Z)
  : ttl_cache :=
  let c := cache_expire c now in
  let c :=
    match cache_find c k with
    | Some _ => c
    | None => skipn (List.length c + 1 - MAXSIZE) c
    end in
  cache_remove c k ++ [{| ce_key := k; ce_value := v;
                          ce_expires := now + TTL |}].

(** *** The cached entry point *)

Definition fmt_str (o : option str) : str :=
  match o with Some s => s | None => u "None" end.
Definition fmt_bool (o : option bool) : str :=
  match o with
  | Some true => u "True"
  | Some false => u "False"
  | None => u "None"
  end.
Definition fmt_int (o : option Z) : str :=
  match o with Some z => Z_to_str z | None => u "None" end.

Definition filters_hash (filters : JobFilter) : str :=
  fmt_str (location filters) ++ u "-" ++ fmt_str (level filters) ++ u "-"
  ++ fmt_bool (remote filters) ++ u "-" ++ fmt_int (salary_min filters)
  ++ u "-" ++ fmt_str (what filters).

Definition cache_key (portfolio : Portfolio) (filters : JobFilter) : str :=
  slug portfolio ++ u "_" ++ filters_hash filters.

(** The country heuristic on the phone number of the contact mapping. *)
Definition user_country (portfolio : Portfolio) : result str :=
  match contact portfolio with
  | JDict ((_ :: _) as c) =>
      match get_or c (u "phone") (JStr []) with
      | JStr phone =>
          if startswith (u "+44") phone then Ok (u "gb")
          else if startswith (u "+91") phone then Ok (u "in")
          else Ok (u "us")
      | _ => Raise AttributeError          (* [phone.startswith] *)
      end
  | _ => Ok (u "us")
  end.

(** The three readings of the cache's timer in one request. *)
Record clock : Type := {
  t_lookup : Z;    (* [cache_key in jobs_cache] *)
  t_read : Z;      (* [jobs_cache[cache_key]] *)
  t_store : Z      (* [jobs_cache[cache_key] = scored_jobs] *)
}.

(** Main entrypoint to get AI job recommendations with caching. *)
Definition get_recommended_jobs (jobs_cache : ttl_cache) (time : clock)
    (listings : str -> result (list dict)) (answer : post_outcome)
    (portfolio : Portfolio) (filters : JobFilter)
  : result (list dict) * ttl_cache * list event :=
  let cache_key := cache_key portfolio filters in
  if cache_contains jobs_cache cache_key (t_lookup time) then
    let (r, c) := cache_getitem jobs_cache cache_key (t_read time) in
    (r, c, [])
  else
    match user_country portfolio with
    | Raise e => (Raise e, jobs_cache, [])
    | Ok country =>
        let (fetched, tr1) := _fetch_adzuna_jobs listings country in
        match fetched with
        | Raise e => (Raise e, jobs_cache, tr1)
        | Ok raw_jobs =>
            let (scored, tr2) :=
              _score_and_filter_jobs answer raw_jobs portfolio in
            match scored with
            | Raise e => (Raise e, jobs_cache, tr1 ++ tr2)
            | Ok scored_jobs =>
                (Ok scored_jobs,
                 cache_setitem jobs_cache cache_key scored_jobs
                               (t_store time),
                 tr1 ++ tr2)
            end
        end
    end.

End WithHost.

End JobsEngine.

(** ** [rag_engine.py] *)

Module RagEngine.

Section WithHost.
Context {host : Host}.

Definition INTENTS : list str := [u "INTERVIEW"; u "ATS"; u "RAG"].

(** Classify the user intent into RAG, INTERVIEW, or ATS mode.
    [gemini] is what [_call_gemini(prompt)] returns or raises. *)
Definition detect_intent (gemini : result json) : str :=
  match gemini with
  | Ok (JStr response) =>
      let intent := py_upper (strip response) in
      if existsb (str_eqb intent) INTENTS then intent else u "RAG"
  | Ok _ => u "RAG"           (* [response.strip()] raises, caught *)
  | Raise _ => u "RAG"
  end.

End WithHost.

End RagEngine.

(** ** A host for closed examples

    The case mappings are those of ASCII letters.  [py_str] is exact
    for [None], booleans and integers, the only values the examples
    convert; the examples contain no float. *)

Module SampleHost.

Definition is_lower (c : char) : bool := ((97 <=? c) && (c <=? 122))%N.
Definition is_upper (c : char) : bool := ((65 <=? c) && (c <=? 90))%N.
Definition to_upper (c : char) : char := if is_lower c then (c - 32)%N else c.
Definition to_lower (c : char) : char := if is_upper c then (c + 32)%N else c.

Fixpoint title_from (previous_is_cased : bool) (s : str) : str :=
  match s with
  | [] => []
  | c :: s' =>
      if is_lower c || is_upper c
      then (if previous_is_cased then to_lower c else to_upper c)
             :: title_from true s'
      else c :: title_from false s'
  end.

Definition str_of (v : json) : str :=
  match v with
  | JNull => u "None"
  | JBool true => u "True"
  | JBool false => u "False"
  | JInt z => Z_to_str z
  | _ => u "..."
  end.

Definition sample_host : Host := {|
  py_str := str_of;
  py_title := title_from false;
  py_upper := map to_upper;
  float_truthy := fun _ => true;
  float_compare_int := fun _ _ => None;
  float_compare := fun _ _ => None;
  dict_slice_error := TypeError;
  DEFAULT_LLM_MODEL := u "google/gemma-3-12b-it:free";
  PORTFOLIO_EXTRACTION_PROMPT := u "Resume text:" ++ [LF];
  ADZUNA_APP_ID := u "app-id";
  ADZUNA_APP_KEY := u "app-key"
|}.

(** A network that answers 429 to the first [k] requests of a run and
    200 with [body] to the later ones. *)
Definition rate_limited_until (k : nat) (body : str) : http_client :=
  fun n _ => if n <? k then PostReturns 429 [] else PostReturns 200 body.

(** The body of a chat-completion answer whose content is the text
    [{"name": "Ada"}], and one whose content is the text [[1]]. *)
Definition OBJECT_ANSWER : str :=
  js "{'choices': [{'message': {'content': '{\'name\': \'Ada\'}'}}]}".
Definition LIST_ANSWER : str :=
  js "{'choices': [{'message': {'content': '[1]'}}]}".
Definition NO_CHOICE_ANSWER : str := js "{'choices': []}".

Definition sample_job (i : nat) : dict :=
  [(u "id", JInt (Z.of_nat i)); (u "title", JStr (u "Engineer"));
   (u "company", JStr (u "Acme")); (u "location", JStr (u "Remote"));
   (u "description", JStr (u "Build and run services."))].

Definition sample_portfolio : JobsEngine.Portfolio :=
  {| JobsEngine.slug := u "ada";
     JobsEngine.role := JStr (u "Engineer");
     JobsEngine.bio := JNull;
     JobsEngine.skills := JList [JStr (u "Python"); JStr (u "Go")];
     JobsEngine.experience := JList [];
     JobsEngine.contact := JDict [(u "phone", JStr (u "+44 20 7946 0000"))] |}.

Definition sample_filters : JobsEngine.JobFilter :=
  {| JobsEngine.location := Some (u "London");
     JobsEngine.level := None;
     JobsEngine.remote := Some true;
     JobsEngine.salary_min := Some 50000%Z;
     JobsEngine.what := None |}.

(** A first request on an empty cache: three jobs are fetched and the
    scoring request fails. *)
Definition first_request :=
  @JobsEngine.get_recommended_jobs sample_host []
    {| JobsEngine.t_lookup := 0; JobsEngine.t_read := 0;
       JobsEngine.t_store := 5 |}
    (fun _ => Ok (map sample_job (seq 0 3))) (PostRaises TransportError)
    sample_portfolio sample_filters.

End SampleHost.

(** ** Notions used to state properties of the repair cascade *)

Module RepairProps.

(** The character [c0] does not occur in [s]. *)
Definition no_char (c0 : char) (s : str) : Prop :=
  Forall (fun c => c <> c0) s.

End RepairProps.

(** ** [generator.py]: the ATS resume call *)

Module Ats.

Section WithHost.
Context {host : Host}.

(** The text of [ATS_RESUME_PROMPT]. *)
Variable ATS_RESUME_PROMPT : str.





End WithHost.

End Ats.

(** ** [generator.py]: the profile image *)

Module ProfileImage.

(** What [doc.extract_image(xref)] returns for an image. *)
Record base_image : Type := {
  image : list N;        (* the bytes *)
  width : Z;
  height : Z;
  ext : str
}.

Definition area (b : base_image) : Z := (width b * height b)%Z.

(** A page is given by the images [page.get_images(full=True)] lists:
    for each one, what [doc.extract_image] returns for it and the three
    look-ups that follow, or the exception raised on the way. *)
Definition page := list (result base_image).

(** The file written under [UPLOAD_DIR]. *)
Record saved_file : Type := {
  sf_name : str;
  sf_bytes : list N
}.

(** The loop that finds the largest image by area. *)
Fixpoint largest_image (image_list : page) (largest_img : option base_image)
    (max_area : Z) : result (option base_image) :=
  match image_list with
  | [] => Ok largest_img
  | img :: rest =>
      bind img (fun base_image =>
      if (max_area <? area base_image)%Z
      then largest_image rest (Some base_image) (area base_image)
      else largest_image rest largest_img max_area)
  end.

(** Extract the largest image from the first page of the PDF to use as
    a profile picture.  [doc] is what [fitz.open] returns or raises,
    [hex8] is [uuid.uuid4().hex[:8]], [write_ok] tells whether the file
    could be written. *)
Definition extract_profile_image_from_pdf (doc : result (list page))
    (username hex8 : str) (write_ok : bool)
  : option str * option saved_file :=
  match doc with
  | Raise _ => (None, None)
  | Ok [] => (None, None)
  | Ok (page :: _) =>
      match page with
      | [] => (None, None)
      | _ :: _ =>
          match largest_image page None 0 with
          | Raise _ => (None, None)
          | Ok None => (None, None)
          | Ok (Some largest_img) =>
              let filename :=
                username ++ u "_profile_" ++ hex8 ++ u "."
                ++ ext largest_img in
              if write_ok
              then (Some (u "/uploads/" ++ filename),
                    Some {| sf_name := filename;
                            sf_bytes := image largest_img |})
              else (None, None)
          end
      end
  end.

End ProfileImage.

Module ImageSamples.
Import ProfileImage.

(** A logo of 20 by 20 and two photos of 300 by 400. *)
Definition logo : base_image :=
  {| image := [137; 80]%N; width := 20; height := 20; ext := u "png" |}.
Definition photo : base_image :=
  {| image := [255; 216]%N; width := 300; height := 400; ext := u "jpeg" |}.
Definition scan : base_image :=
  {| image := [255; 217]%N; width := 400; height := 300; ext := u "jpeg" |}.

End ImageSamples.

(** ** [main.py]: the upload handler *)

Module Upload.

Section WithHost.
Context {host : Host}.

(** The data used when [process_resume] raises. *)
Definition fallback_data (username : str) : dict :=
  [ (u "name", JStr (py_title username));
    (u "role", JStr (u "Professional"));
    (u "tagline", JStr (u "Building the future with AI"));
    (u "bio", JStr (u "This portfolio was generated from your resume. Please update with your specific details."));
    (u "skills", JList [JStr (u "Python"); JStr (u "JavaScript");
                        JStr (u "AI"); JStr (u "Web Development")]);
    (u "projects", JList []);
    (u "experience", JList []);
    (u "education", JList []);
    (u "achievements", JList []);
    (u "contact", JDict []);
    (u "_raw_text",
     JStr (u "Fallback portfolio created due to processing error")) ].

(** [d.pop(k, default)]: the value and the dict that is left. *)
Fixpoint dict_remove (d : dict) (k : str) : dict :=
  match d with
  | [] => []
  | (k', v) :: d' =>
      if str_eqb k' k then d' else (k', v) :: dict_remove d' k
  end.

Definition dict_pop (d : dict) (k : str) (default : json) : json * dict :=
  (get_or d k default, dict_remove d k).

(** The columns of the [Portfolio] row the handler writes. *)
Record portfolio_row : Type := {
  row_name : json;
  row_role : json;
  row_tagline : json;
  row_bio : json;
  row_skills : json;
  row_projects : json;
  row_experience : json;
  row_education : json;
  row_achievements : json;
  row_contact : json;
  row_slug : str;
  row_resume_text : json;
  row_profile_image_url : option json
}.

(** The row has values of the types of its columns. *)
Definition well_typed (row : portfolio_row) : Prop :=
  is_str (row_name row) = true /\ is_str (row_role row) = true
  /\ is_str (row_tagline row) = true /\ is_str (row_bio row) = true
  /\ is_list (row_skills row) = true /\ is_list (row_projects row) = true
  /\ is_list (row_experience row) = true
  /\ is_list (row_education row) = true
  /\ is_list (row_achievements row) = true
  /\ is_dict (row_contact row) = true.

(** The [try] around [process_resume]: any exception gives the fallback
    data. *)
Definition resume_data (processed : result dict) (username : str) : dict :=
  match processed with
  | Ok data => data
  | Raise _ => fallback_data username
  end.

(** The row built from the data, for an update as for an insert. *)
Definition portfolio_of (data : dict) (username : str) : portfolio_row :=
  let (raw_text, data) := dict_pop data (u "_raw_text") (JStr []) in
  {| row_name := get_or data (u "name") (JStr []);
     row_role := get_or data (u "role") (JStr []);
     row_tagline := get_or data (u "tagline") (JStr []);
     row_bio := get_or data (u "bio") (JStr []);
     row_skills := get_or data (u "skills") (JList []);
     row_projects := get_or data (u "projects") (JList []);
     row_experience := get_or data (u "experience") (JList []);
     row_education := get_or data (u "education") (JList []);
     row_achievements := get_or data (u "achievements") (JList []);
     row_contact := get_or data (u "contact") (JDict []);
     row_slug := username;
     row_resume_text := raw_text;
     row_profile_image_url := dict_get data (u "profile_image_url") |}.

(** The part of [upload_resume] from the call of [process_resume] to
    the row: the PDF text, the network and the image extraction are
    those of [process_resume]. *)
Definition upload_resume (client : http_client) (pdf_pages : pdf)
    (api_key username : str) (profile_image_url : option str)
  : portfolio_row * list event :=
  let (processed, tr) :=
    process_resume client pdf_pages api_key None username
                   profile_image_url in
  (portfolio_of (resume_data processed username) username, tr).

End WithHost.

End Upload.

(** ** [jobs_engine.py]: notions used to state its properties *)

Module JobsProps.
Import JobsEngine.

(** The score of [a] is an integer at least that of [b]. *)
Definition score_ge (a b : dict) : Prop :=
  match as_int (score_of a), as_int (score_of b) with
  | Some x, Some y => (y <= x)%Z
  | _, _ => False
  end.

Definition int_scored (j : dict) : Prop :=
  exists z, as_int (score_of j) = Some z.



(** A job from which an entry of the scoring prompt can be built: it
    has a title, a company and a description that is a string. *)
Definition prompt_job_ok (j : dict) : Prop :=
  dict_get j (u "title") <> None
  /\ dict_get j (u "company") <> None
  /\ exists s, dict_get j (u "description") = Some (JStr s).

(** What the scoring request answered, down to the entries the merge
    loop iterates over: a 200 whose body is JSON with a string at
    [choices[0].message.content] which, the fence markers removed and
    trimmed, is JSON that can be iterated. *)
Definition answer_entries (answer : post_outcome) (items : list json)
  : Prop :=
  exists text data choices choice message content scores,
    answer = PostReturns 200 text
    /\ json_loads text = Some data
    /\ getitem_key data (u "choices") = Ok choices
    /\ getitem_0 choices = Ok choice
    /\ getitem_key choice (u "message") = Ok message
    /\ getitem_key message (u "content") = Ok (JStr content)
    /\ json_loads (strip (remove_all (u "```") 0
                            (remove_all (u "```json") 0 content)))
       = Some scores
    /\ iterate scores = Ok items.

Section WithHost.
Context {host : Host}.

(** A portfolio whose skills can be joined into the user summary:
    nothing, or strings only. *)
Definition prompt_skills_ok (portfolio : Portfolio) : Prop :=
  truthy (skills portfolio) = false
  \/ match skills portfolio with
     | JList l => forallb is_str l = true
     | JStr _ | JDict _ => True
     | _ => False
     end.

(** The job written for the score entry [sd]: the index of the entry is
    in range and [job] is the job at that index with the score of the
    entry under [match_score] and its reason under [match_reason], or
    their defaults when the entry has none. *)
Definition entry_job (jobs_to_score : list dict) (sd : dict) (job : dict)
  : Prop :=
  exists j0,
    index_in_range (get_or sd (u "index") JNull) (List.length jobs_to_score)
    = Ok true
    /\ job_at jobs_to_score (get_or sd (u "index") JNull) = Ok j0
    /\ job = dict_set
               (dict_set j0 (u "match_score")
                         (get_or sd (u "score") (JInt 0)))
               (u "match_reason")
               (get_or sd (u "reason")
                       (JStr (u "Good match for your profile."))).

(** A job written for one of the entries. *)
Definition scored_from (jobs_to_score : list dict) (items : list json)
    (job : dict) : Prop :=
  exists sd, In (JDict sd) items /\ entry_job jobs_to_score sd job.

End WithHost.

End JobsProps.

Module JobsSamples.
Import SampleHost.

(** A scoring answer with four entries: a score under the threshold,
    two above it, out of order, and an index out of range. *)
Definition SCORES_ANSWER : str :=
  js "{'choices': [{'message': {'content': '[{\'index\': 0, \'score\': 30}, {\'index\': 2, \'score\': 55}, {\'index\': 1, \'score\': 90, \'reason\': \'fits\'}, {\'index\': 7, \'score\': 99}]'}}]}".

(** A fetched job whose description is [null]. *)
Definition NULL_DESCRIPTION_JOB : dict :=
  [(u "id", JInt 7); (u "title", JStr (u "Engineer"));
   (u "company", JStr (u "Acme")); (u "location", JStr (u "Unknown"));
   (u "description", JNull)].


End JobsSamples.

(** ** [jobs_engine.py]: the request to the listings API *)

Module Adzuna.
Import JobsEngine.

(** *** [urllib.parse.quote_plus] *)

(** The UTF-8 encoding of a code point; none for a surrogate, which
    [str.encode] refuses. *)
Definition utf8 (c : char) : option (list N) :=
  (if c <? 128 then Some [c]
   else if c <? 2048 then Some [192 + c / 64; 128 + c mod 64]
   else if (55296 <=? c) && (c <=? 57343) then None
   else if c <? 65536
   then Some [224 + c / 4096; 128 + (c / 64) mod 64; 128 + c mod 64]
   else Some [240 + c / 262144; 128 + (c / 4096) mod 64;
              128 + (c / 64) mod 64; 128 + c mod 64])%N.

Fixpoint encode (s : str) : option (list N) :=
  match s with
  | [] => Some []
  | c :: s' =>
      match utf8 c, encode s' with
      | Some b, Some bs => Some (b ++ bs)
      | _, _ => None
      end
  end.

(** Letters, digits and [_.-~] are never quoted. *)
Definition always_safe (b : N) : bool :=
  ((65 <=? b) && (b <=? 90) || (97 <=? b) && (b <=? 122)
   || (48 <=? b) && (b <=? 57)
   || (b =? 95) || (b =? 46) || (b =? 45) || (b =? 126))%N.

Definition hex_digit (n : N) : char :=
  (if n <? 10 then 48 + n else 55 + n)%N.

Definition quote_byte (b : N) : str :=
  if always_safe b then [b]
  else if (b =? 32)%N then [43%N]
  else [37%N; hex_digit (b / 16); hex_digit (b mod 16)].

(** [quote_plus(s)]; [None] when it raises [UnicodeEncodeError]. *)
Definition quote_plus (s : str) : option str :=
  option_map (flat_map quote_byte) (encode s).

(** The code points of a Python string. *)
Definition code_point (c : char) : Prop := (c <= 1114111)%N.

(** A character that [quote_plus] may produce. *)
Definition quoted (c : char) : Prop :=
  always_safe c = true \/ c = 43%N \/ c = 37%N.

Section WithHost.
Context {host : Host}.

(** [s.lower()] *)
Variable py_lower : str -> str.

(** How the reading of the listings ends. *)
Inductive fetched : Type :=
| Returns (parsed_jobs : list dict)
| Raises (e : exn)
| RaisesUnicodeEncodeError.       (* from [quote_plus] *)

(** [f"{v}"] *)
Definition fmt (v : json) : str :=
  match v with
  | JStr s => s
  | _ => py_str v
  end.

(** [" ".join(x)] for what [skills[:3]] gave. *)
Definition join_spaces (x : json) : result str :=
  match x with
  | JList l =>
      if forallb is_str l then Ok (join (u " ") (map fmt l))
      else Raise TypeError
  | JStr s => Ok (join (u " ") (map (fun c => [c]) s))
  | JDict d => Ok (join (u " ") (map fst d))
  | _ => Raise TypeError
  end.

(** Lines 39 to 43: the text searched for.  [skills] is the value of
    [portfolio.skills or []]. *)
Definition search_query (skills : json) (filters : JobFilter) : result str :=
  let search_query := match what filters with Some s => s | None => [] end in
  bind (match search_query with
        | _ :: _ => Ok search_query
        | [] =>
            if truthy skills
            then bind (py_slice_to 3 skills) join_spaces
            else Ok search_query
        end) (fun search_query =>
  match search_query with
  | [] => Ok (u "software engineer")
  | _ :: _ => Ok search_query
  end).

(** The URL up to the encoded query. *)
Definition url_prefix (user_country : str) : str :=
  u "https://api.adzuna.com/v1/api/jobs/" ++ user_country
  ++ u "/search/1?app_id=" ++ ADZUNA_APP_ID
  ++ u "&app_key=" ++ ADZUNA_APP_KEY
  ++ u "&results_per_page=50&what=".

(** Lines 45 to 53: the URL of the request. *)
Definition request_url (search_query : str) (filters : JobFilter)
    (user_country : str) : option str :=
  match quote_plus search_query with
  | None => None
  | Some encoded_query =>
      let url := url_prefix user_country ++ encoded_query in
      match match location filters with
            | Some ((_ :: _) as l) =>
                option_map (fun e => url ++ u "&where=" ++ e) (quote_plus l)
            | _ => Some url
            end with
      | None => None
      | Some url =>
          match salary_min filters with
          | Some z =>
              if (z =? 0)%Z then Some url
              else Some (url ++ u "&salary_min=" ++ Z_to_str z)
          | None => Some url
          end
      end
  end.

(** [job.get(k, {}).get("display_name", "Unknown")] *)
Definition display_name (job : dict) (k : str) : result json :=
  match get_or job k (JDict []) with
  | JDict d => Ok (get_or d (u "display_name") (JStr (u "Unknown")))
  | _ => Raise AttributeError
  end.

(** The test of the remote filter on the title and the description. *)
Definition mentions_remote (job : dict) : bool :=
  let title_desc :=
    py_lower (fmt (get_or job (u "title") (JStr [])) ++ u " "
              ++ fmt (get_or job (u "description") (JStr []))) in
  contains (u "remote") title_desc
  || contains (u "work from home") title_desc.

(** The dict appended for one listing. *)
Definition parse_job (job : dict) : result dict :=
  bind (display_name job (u "company")) (fun company =>
  bind (display_name job (u "location")) (fun location =>
  Ok [ (u "id", get_or job (u "id") JNull);
       (u "title", get_or job (u "title") JNull);
       (u "company", company);
       (u "location", location);
       (u "salary_min", get_or job (u "salary_min") JNull);
       (u "salary_max", get_or job (u "salary_max") JNull);
       (u "description", get_or job (u "description") (JStr []));
       (u "url", get_or job (u "redirect_url") JNull) ])).

(** The loop over [raw_results]; [remote] is the truth value of
    [filters.remote]. *)
Fixpoint parse_jobs (remote : bool) (raw_results : list json)
  : result (list dict) :=
  match raw_results with
  | [] => Ok []
  | JDict job :: rest =>
      if remote && negb (mentions_remote job) then parse_jobs remote rest
      else
        bind (parse_job job) (fun parsed =>
        bind (parse_jobs remote rest) (fun parsed_jobs =>
        Ok (parsed :: parsed_jobs)))
  | _ :: _ => Raise AttributeError            (* [job.get] *)
  end.

Definition remote_wanted (filters : JobFilter) : bool :=
  match remote filters with
  | Some b => b
  | None => false
  end.

(** Lines 56 to 85: what is read from the answer to the request. *)
Definition read_response (response : post_outcome) (filters : JobFilter)
  : result (list dict) :=
  match response with
  | PostRaises e => Raise e
  | PostReturns status_code text =>
      if negb (status_code =? 200)%Z then Ok []
      else
        match json_loads text with
        | None => Raise JSONDecodeError
        | Some (JDict data) =>
            bind (iterate (get_or data (u "results") (JList [])))
                 (parse_jobs (remote_wanted filters))
        | Some _ => Raise AttributeError      (* [data.get] *)
        end
  end.



(** The keys of a parsed job. *)
Definition JOB_KEYS : list str :=
  [u "id"; u "title"; u "company"; u "location"; u "salary_min";
   u "salary_max"; u "description"; u "url"].

(** A listing of the shape the API documents: an object whose company
    and location, when given, are objects and whose description, when
    given, is a string. *)
Definition listing_ok (listing : json) : Prop :=
  match listing with
  | JDict job =>
      is_dict (get_or job (u "company") (JDict [])) = true
      /\ is_dict (get_or job (u "location") (JDict [])) = true
      /\ is_str (get_or job (u "description") (JStr [])) = true
  | _ => False
  end.

End WithHost.

End Adzuna.

Module AdzunaSamples.
Import SampleHost.

(** An answer with two listings, the first of which mentions remote
    work. *)
Definition LISTINGS_ANSWER : str :=
  js "{'results': [{'id': 1, 'title': 'Engineer', 'company': {'display_name': 'Acme'}, 'description': 'Work from home.'}, {'id': 2, 'title': 'Clerk'}]}".

Definition lower : str -> str := map to_lower.


End AdzunaSamples.

(** ** [rag_engine.py]: the chat *)

Module Chat.
Import RagEngine.

Section WithHost.
Context {host : Host}.

(** The three prompt templates, as functions of the values they
    interpolate. *)
Variable intent_prompt : str -> str.
Variables interview_prompt ats_prompt : str -> str -> str.

(** [_call_gemini]: what the [n]-th call of a chat returns or raises
    for a prompt. *)
Definition gemini := nat -> str -> result json.

(** [f"{v}"] *)
Definition fmt (v : json) : str :=
  match v with
  | JStr s => s
  | _ => py_str v
  end.

(** [", ".join(l)] *)
Definition join_commas (l : list json) : result str :=
  if forallb is_str l then Ok (join (u ", ") (map fmt l))
  else Raise TypeError.

Definition get_str (d : dict) (k : str) : str := fmt (get_or d k (JStr [])).

(** The dicts of a list, the other elements being skipped. *)
Definition dicts_of (l : list json) : list dict :=
  flat_map (fun v => match v with JDict d => [d] | _ => [] end) l.

Definition experience_line (e : dict) : str :=
  u "  - " ++ get_str e (u "role") ++ u " at " ++ get_str e (u "company")
  ++ u " (" ++ get_str e (u "duration") ++ u "): "
  ++ get_str e (u "description").

Definition project_line (p : dict) : result str :=
  bind (match dict_get p (u "technologies") with
        | Some (JList l) => join_commas l
        | _ => Ok []
        end) (fun techs =>
  Ok (u "  - " ++ get_str p (u "title") ++ u ": "
      ++ get_str p (u "description") ++ u " [Technologies: " ++ techs
      ++ u "]")).

Fixpoint project_lines (projects : list dict) : result (list str) :=
  match projects with
  | [] => Ok []
  | p :: rest =>
      bind (project_line p) (fun line =>
      bind (project_lines rest) (fun lines => Ok (line :: lines)))
  end.

Definition education_line (ed : dict) : str :=
  u "  - " ++ get_str ed (u "degree") ++ u " from "
  ++ get_str ed (u "institution") ++ u " (" ++ get_str ed (u "year")
  ++ u ")".

(** A section with a heading, present when it has lines. *)
Definition section (heading : str) (lines : list str) : list str :=
  match lines with
  | [] => []
  | _ :: _ => [heading ++ [LF] ++ join [LF] lines]
  end.

(** A scalar field, present when its value is truthy. *)
Definition field (label : str) (portfolio_data : dict) (k : str)
  : list str :=
  match dict_get portfolio_data k with
  | Some v => if truthy v then [label ++ fmt v] else []
  | None => []
  end.

(** The non-empty list stored under a key, if any. *)
Definition list_at (portfolio_data : dict) (k : str) : option (list json) :=
  match dict_get portfolio_data k with
  | Some (JList ((_ :: _) as l)) => Some l
  | _ => None
  end.

(** The sections of the context, in order. *)
Definition context_parts (portfolio_data : dict) : result (list str) :=
  let name := field (u "Name: ") portfolio_data (u "name") in
  let role := field (u "Role: ") portfolio_data (u "role") in
  let bio := field (u "Bio: ") portfolio_data (u "bio") in
  bind (match list_at portfolio_data (u "skills") with
        | Some skills =>
            bind (join_commas skills) (fun s => Ok [u "Skills: " ++ s])
        | None => Ok []
        end) (fun skills =>
  let experience :=
    match list_at portfolio_data (u "experience") with
    | Some experience =>
        section (u "Experience:") (map experience_line (dicts_of experience))
    | None => []
    end in
  bind (match list_at portfolio_data (u "projects") with
        | Some projects =>
            bind (project_lines (dicts_of projects)) (fun proj_lines =>
            Ok (section (u "Projects:") proj_lines))
        | None => Ok []
        end) (fun projects =>
  let education :=
    match list_at portfolio_data (u "education") with
    | Some education =>
        section (u "Education:") (map education_line (dicts_of education))
    | None => []
    end in
  let achievements :=
    match list_at portfolio_data (u "achievements") with
    | Some achievements =>
        [u "Achievements:" ++ [LF]
         ++ join [LF] (map (fun a => u "  - " ++ fmt a)
                           (filter truthy achievements))]
    | None => []
    end in
  let contact :=
    match dict_get portfolio_data (u "contact") with
    | Some (JDict ((_ :: _) as contact)) =>
        match join (u ", ")
                (map (fun kv => fst kv ++ u ": " ++ fmt (snd kv))
                     (filter (fun kv => truthy (snd kv)) contact)) with
        | [] => []
        | (_ :: _) as contact_str => [u "Contact Info: " ++ contact_str]
        end
    | _ => []
    end in
  Ok (name ++ role ++ bio ++ skills ++ experience ++ projects ++ education
      ++ achievements ++ contact))).

(** The context: the sections, or the head of the raw text when there
    are fewer than three. *)
Definition build_context (portfolio_data : dict) (resume_text : option str)
  : result str :=
  bind (context_parts portfolio_data) (fun parts =>
  if List.length parts <? 3
  then Ok (firstn 4000 (match resume_text with Some t => t | None => [] end))
  else Ok (join [LF; LF] parts)).

Record reply : Type := {
  answer : json;
  mode : str
}.

Definition INTERVIEW_APOLOGY : str :=
  u "Sorry, I couldn't generate interview questions at this time. Please try again.".
Definition ATS_APOLOGY : str :=
  u "Sorry, I couldn't run the ATS analysis at this time. Please try again.".
Definition CHAT_APOLOGY : str :=
  u "I'm sorry, I'm having trouble connecting to my brain right now. Please try again in a few seconds.".

(** Generate tailored interview questions based on the candidate's
    resume context. *)
Definition generate_interview_questions (call : str -> result json)
    (context user_message : str) : json :=
  match call (interview_prompt context user_message) with
  | Ok v => v
  | Raise _ => JStr INTERVIEW_APOLOGY
  end.

(** Evaluate candidate's resume context and return an ATS score with
    suggestions. *)
Definition generate_ats_analysis (call : str -> result json)
    (context user_message : str) : json :=
  match call (ats_prompt context user_message) with
  | Ok v => v
  | Raise _ => JStr ATS_APOLOGY
  end.

(** The line of one turn of the history; none for a turn without
    content. *)
Definition history_line (turn : json) : result str :=
  match turn with
  | JDict t =>
      let role := get_or t (u "role") (JStr (u "user")) in
      let content := get_or t (u "content") (JStr []) in
      if truthy content then
        match role with
        | JStr r => Ok (py_upper r ++ u ": " ++ fmt content ++ [LF])
        | _ => Raise AttributeError          (* [role.upper()] *)
        end
      else Ok []
  | _ => Raise AttributeError                (* [turn.get] *)
  end.

Fixpoint history_lines (turns : list json) : result str :=
  match turns with
  | [] => Ok []
  | turn :: rest =>
      bind (history_line turn) (fun line =>
      bind (history_lines rest) (fun lines => Ok (line ++ lines)))
  end.

(** [l[-6:]] *)
Definition last6 {A : Type} (l : list A) : list A :=
  skipn (List.length l - 6) l.

Definition consolidated_prompt (context user_message : str)
    (conversation_history : option (list json)) : result str :=
  let system_prompt :=
    u "You are an AI assistant representing a professional's portfolio. "
    ++ u "Answer questions about the candidate based on their resume information provided below. "
    ++ u "Be concise, professional, and helpful. If information is not available, say so politely."
    ++ [LF; LF]
    ++ u "=== CANDIDATE PORTFOLIO INFO ===" ++ [LF] ++ context ++ [LF]
    ++ u "=== END INFO ===" in
  bind (match conversation_history with
        | Some turns => history_lines (last6 turns)
        | None => Ok []
        end) (fun history =>
  Ok (system_prompt ++ [LF; LF] ++ u "--- Conversation History ---" ++ [LF]
      ++ history ++ [LF] ++ u "USER: " ++ user_message ++ [LF]
      ++ u "ASSISTANT:")).

(** Answer a question about a portfolio using context provided from the
    database.  The second component is the list of the prompts sent. *)
Definition chat (call : gemini) (user_message : str)
    (resume_text : option str) (portfolio_data : dict)
    (conversation_history : option (list json))
  : result reply * list str :=
  match build_context portfolio_data resume_text with
  | Raise e => (Raise e, [])
  | Ok context =>
      let p0 := intent_prompt user_message in
      let mode := detect_intent (call 0 p0) in
      if str_eqb mode (u "INTERVIEW") then
        (Ok {| answer := generate_interview_questions (call 1) context
                                                      user_message;
               mode := mode |},
         [p0; interview_prompt context user_message])
      else if str_eqb mode (u "ATS") then
        (Ok {| answer := generate_ats_analysis (call 1) context user_message;
               mode := mode |},
         [p0; ats_prompt context user_message])
      else
        match consolidated_prompt context user_message
                                  conversation_history with
        | Raise e => (Raise e, [p0])
        | Ok prompt =>
            (Ok {| answer :=
                     match call 1 prompt with
                     | Ok v =>
                         match py_len v with
                         | Ok _ => v
                         | Raise _ => JStr CHAT_APOLOGY
                         end
                     | Raise _ => JStr CHAT_APOLOGY
                     end;
                   mode := mode |},
             [p0; prompt])
        end
  end.

(** The value under a key is missing or falsy. *)
Definition empty_at (portfolio_data : dict) (k : str) : Prop :=
  match dict_get portfolio_data k with
  | Some v => truthy v = false
  | None => True
  end.

(** The apology of a mode. *)
Definition apology (mode : str) : str :=
  if str_eqb mode (u "INTERVIEW") then INTERVIEW_APOLOGY
  else if str_eqb mode (u "ATS") then ATS_APOLOGY
  else CHAT_APOLOGY.

End WithHost.

End Chat.

Module ChatSamples.
Import SampleHost.

(** A model that is never reachable. *)
Definition offline : Chat.gemini := fun _ _ => Raise TimeoutException.

(** A model that classifies every message as an interview request and
    then fails. *)
Definition classifier_only : Chat.gemini :=
  fun n _ =>
    match n with
    | 0 => Ok (JStr (u " interview "))
    | _ => Raise TimeoutException
    end.

End ChatSamples.

(** * Properties *)

Unset Implicit Arguments.
Import SampleHost.

Module StrFacts.

(** Turns boolean tests on code points into arithmetic and calls [lia]. *)
Ltac char_arith :=
  unfold isspace, is_json_ws, is_atom_char, is_digit, LF, QUOTE, BACKSLASH,
    BACKTICK, COMMA, LBRACE, RBRACE, LBRACKET, RBRACKET, COLON in *;
  repeat match goal with
         | H : _ = false |- _ => apply not_true_iff_false in H
         | |- _ = false => apply not_true_iff_false; intro
         end;
  rewrite ?orb_true_iff, ?andb_true_iff, ?N.leb_le, ?N.eqb_eq, ?N.ltb_lt in *;
  repeat match goal with
         | H : ~ _ |- _ =>
             rewrite ?orb_true_iff, ?andb_true_iff, ?N.leb_le, ?N.eqb_eq,
               ?N.ltb_lt in H
         end;
  lia.

Lemma json_ws_isspace c : is_json_ws c = true -> isspace c = true.
Proof. intros; char_arith. Qed.

Lemma lstrip_nonspace c s : isspace c = false -> lstrip (c :: s) = c :: s.
Proof. intros H; simpl; now rewrite H. Qed.

Lemma lstrip_app_spaces w s :
  forallb isspace w = true -> lstrip (w ++ s) = lstrip s.
Proof.
  induction w as [|c w IH]; simpl; [easy|].
  intros H; apply andb_true_iff in H as [Hc Hw]; rewrite Hc; auto.
Qed.

Lemma lstrip_snoc_nonspace a c :
  isspace c = false -> lstrip (a ++ [c]) = lstrip a ++ [c].
Proof.
  intros Hc; induction a as [|x a IH]; simpl.
  - now rewrite Hc.
  - destruct (isspace x); auto.
Qed.

Lemma lstrip_idem s : lstrip (lstrip s) = lstrip s.
Proof.
  induction s as [|c s IH]; simpl; [easy|].
  destruct (isspace c) eqn:E; auto. simpl; now rewrite E.
Qed.

(** [lstrip] cuts a prefix of white space. *)
Lemma lstrip_split s :
  exists w, s = w ++ lstrip s /\ forallb isspace w = true.
Proof.
  induction s as [|c s (w & E & Hw)]; simpl.
  - now exists [].
  - destruct (isspace c) eqn:Ec.
    + exists (c :: w); simpl; rewrite Ec, Hw; split; [congruence|easy].
    + now exists [].
Qed.

Lemma rstrip_snoc_nonspace a c :
  isspace c = false -> rstrip (a ++ [c]) = a ++ [c].
Proof.
  intros Hc; unfold rstrip. rewrite rev_app_distr; simpl.
  rewrite Hc; simpl. now rewrite rev_involutive.
Qed.

Lemma rstrip_app_spaces s w :
  forallb isspace w = true -> rstrip (s ++ w) = rstrip s.
Proof.
  intros Hw; unfold rstrip. rewrite rev_app_distr, lstrip_app_spaces; auto.
  rewrite forallb_forall in *; intros x Hx; apply Hw; now apply in_rev.
Qed.

Lemma rstrip_cons_nonspace c s :
  isspace c = false -> rstrip (c :: s) = c :: rstrip s.
Proof.
  intros Hc; unfold rstrip; simpl.
  rewrite lstrip_snoc_nonspace by assumption.
  rewrite rev_app_distr; reflexivity.
Qed.

Lemma rstrip_split s :
  exists w, s = rstrip s ++ w /\ forallb isspace w = true.
Proof.
  unfold rstrip. destruct (lstrip_split (rev s)) as (w & E & Hw).
  exists (rev w); split.
  - rewrite <- rev_app_distr, <- E. now rewrite rev_involutive.
  - rewrite forallb_forall in *; intros x Hx; apply Hw; now apply in_rev.
Qed.

Lemma rstrip_idem s : rstrip (rstrip s) = rstrip s.
Proof. unfold rstrip. now rewrite rev_involutive, lstrip_idem. Qed.

Lemma strip_idem s : strip (strip s) = strip s.
Proof.
  unfold strip. destruct (lstrip s) as [|c x] eqn:E; [reflexivity|].
  assert (Hc : isspace c = false).
  { destruct (isspace c) eqn:Hc; [|reflexivity].
    assert (H := lstrip_idem s). rewrite E in H. simpl in H.
    rewrite Hc in H.
    destruct (lstrip_split x) as (w & Ew & _).
    assert (L : List.length (lstrip x) <= List.length x).
    { rewrite Ew at 2. rewrite length_app. lia. }
    rewrite H in L; simpl in L; lia. }
  rewrite rstrip_cons_nonspace by assumption.
  rewrite lstrip_nonspace by assumption.
  rewrite <- rstrip_cons_nonspace by assumption.
  apply rstrip_idem.
Qed.

End StrFacts.
Import StrFacts.

Module LexFacts.

Local Arguments lex_step : simpl never.

Ltac step_cases H :=
  unfold lex_step in H;
  repeat match type of H with
         | context [match ?st with LBetween => _ | _ => _ end] =>
             destruct st; simpl in H
         | context [if ?b then _ else _] => destruct b eqn:?
         | context [match ?o with Some _ => _ | None => _ end] =>
             destruct o eqn:?
         | context [match ?l with [] => _ | _ :: _ => _ end] =>
             destruct l; simpl in H
         end;
  try discriminate.

Lemma lex_step_acc st acc c st' acc' :
  lex_step st acc c = Some (st', acc') ->
  exists a, lex_step st [] c = Some (st', a).
Proof.
  intros H. unfold lex_step in *.
  destruct st; simpl in *;
    repeat match goal with
           | H : context [if ?b then _ else _] |- _ => destruct b eqn:?
           | H : context [match ?o with Some _ => _ | None => _ end] |- _ =>
               destruct o eqn:?
           | H : context [match ?l with [] => _ | _ :: _ => _ end] |- _ =>
               destruct l; simpl in H
           end;
    try discriminate; inversion H; subst; eexists; reflexivity.
Qed.

Lemma lex_accepts_of_lex s : forall st acc r,
  lex st acc s = Some r -> lex_accepts st s = true.
Proof.
  induction s as [|c s IH]; simpl; intros st acc r H.
  - destruct st; simpl; congruence.
  - destruct (lex_step st acc c) as [[st' acc']|] eqn:E; [|discriminate].
    destruct (lex_step_acc _ _ _ _ _ E) as (a & ->). eauto.
Qed.

Lemma step_lf st acc st' acc' :
  lex_step st acc LF = Some (st', acc') -> st' = LBetween.
Proof.
  intros H. destruct st; vm_compute in H; try discriminate;
    try (inversion H; reflexivity).
Qed.

Lemma step_backtick st acc st' acc' :
  lex_step st acc BACKTICK = Some (st', acc') ->
  exists s hi, st = LString s hi /\ st' = LString (BACKTICK :: s) None.
Proof.
  intros H. destruct st; vm_compute in H; try discriminate.
  inversion H; eauto.
Qed.

Lemma punct_space c : isspace c = true -> punct c = None.
Proof.
  intros H. unfold punct.
  repeat match goal with
         | |- context [(c =? ?k)%N] =>
             destruct (N.eqb_spec c k); [subst; discriminate H|]
         end.
  reflexivity.
Qed.

Lemma step_space_outside st acc c st' acc' :
  in_string st = false -> isspace c = true ->
  lex_step st acc c = Some (st', acc') ->
  is_json_ws c = true /\ st' = LBetween /\ acc' = close_atom st acc.
Proof.
  intros Hst Hc H.
  assert (Ha : is_atom_char c = false) by char_arith.
  assert (Hq : (c =? QUOTE)%N = false) by char_arith.
  destruct st; try discriminate; unfold lex_step in H; rewrite Ha in H;
    destruct (is_json_ws c) eqn:Hw; try (inversion H; auto; fail);
    rewrite Hq, (punct_space _ Hc) in H; discriminate.
Qed.

Lemma step_json_ws st acc c :
  in_string st = false -> is_json_ws c = true ->
  lex_step st acc c = Some (LBetween, close_atom st acc).
Proof.
  intros Hst Hc.
  assert (Ha : is_atom_char c = false) by char_arith.
  destruct st; try discriminate; unfold lex_step; now rewrite Ha, Hc.
Qed.

Lemma step_space_string s hi acc c st' acc' :
  isspace c = true ->
  lex_step (LString s hi) acc c = Some (st', acc') ->
  (c <? 32)%N = false /\ st' = LString (c :: s) None.
Proof.
  intros Hc H. unfold lex_step in H.
  assert (Hq : (c =? QUOTE)%N = false) by char_arith.
  assert (Hb : (c =? BACKSLASH)%N = false) by char_arith.
  rewrite Hq, Hb in H. destruct (c <? 32)%N eqn:E32; [discriminate H|].
  inversion H; auto.
Qed.

(** Leading white space does not change what the lexer reads. *)
Lemma lex_lstrip s : forall acc,
  lex_accepts LBetween s = true ->
  lex LBetween acc (lstrip s) = lex LBetween acc s.
Proof.
  induction s as [|c s IH]; simpl; intros acc H; [reflexivity|].
  destruct (isspace c) eqn:Hc; [|reflexivity].
  destruct (lex_step LBetween [] c) as [[st' a]|] eqn:E; [|discriminate].
  destruct (step_space_outside LBetween [] c _ _ eq_refl Hc E) as (Hw & -> & _).
  rewrite (step_json_ws LBetween acc c eq_refl Hw). simpl. auto.
Qed.

Lemma lex_accepts_lstrip s :
  lex_accepts LBetween s = true -> lex_accepts LBetween (lstrip s) = true.
Proof.
  induction s as [|c s IH]; simpl; intros H; [reflexivity|].
  destruct (isspace c) eqn:Hc.
  - destruct (lex_step LBetween [] c) as [[st' a]|] eqn:E; [|discriminate].
    destruct (step_space_outside LBetween [] c _ _ eq_refl Hc E) as (Hw & -> & _).
    auto.
  - simpl. exact H.
Qed.

(** Trailing white space: the lexer read the same tokens without it. *)
Lemma lex_spaces_only w : forall st acc r,
  forallb isspace w = true ->
  lex st acc w = Some r -> lex st acc [] = Some r.
Proof.
  induction w as [|c w IH]; simpl; intros st acc r Hw H; [exact H|].
  apply andb_true_iff in Hw as [Hc Hw].
  destruct (lex_step st acc c) as [[st' acc']|] eqn:E; [|discriminate].
  destruct (in_string st) eqn:Hst.
  - exfalso. destruct st; try discriminate.
    + destruct (step_space_string _ _ _ _ _ _ Hc E) as (_ & ->).
      specialize (IH _ _ _ Hw H). simpl in IH. discriminate.
    + unfold lex_step in E. destruct (c =? 117)%N eqn:E1; [char_arith|].
      unfold simple_escape in E.
      repeat match type of E with
             | context [(c =? ?k)%N] =>
                 destruct (N.eqb_spec c k); [subst; discriminate Hc|]
             end.
      discriminate.
    + unfold lex_step, hex_value in E.
      assert (H1 : is_digit c = false) by char_arith.
      assert (H2 : ((97 <=? c) && (c <=? 102))%N = false) by char_arith.
      assert (H3 : ((65 <=? c) && (c <=? 70))%N = false) by char_arith.
      rewrite H1, H2, H3 in E. discriminate.
  - destruct (step_space_outside st acc c _ _ Hst Hc E) as (_ & -> & ->).
    specialize (IH _ _ _ Hw H). simpl in IH.
    destruct st; try discriminate; simpl in *; exact IH.
Qed.

Lemma lex_drop_trailing s : forall st acc w r,
  forallb isspace w = true ->
  lex st acc (s ++ w) = Some r -> lex st acc s = Some r.
Proof.
  induction s as [|c s IH]; simpl; intros st acc w r Hw H.
  - apply (lex_spaces_only w _ _ _ Hw H).
  - destruct (lex_step st acc c) as [[st' acc']|]; [eauto|discriminate].
Qed.

Lemma lex_strip s r :
  lex LBetween [] s = Some r -> lex LBetween [] (strip s) = Some r.
Proof.
  intros H. unfold strip.
  destruct (rstrip_split (lstrip s)) as (w & E & Hw).
  apply lex_drop_trailing with (w := w); [exact Hw|].
  rewrite <- E, lex_lstrip; [exact H|].
  eapply lex_accepts_of_lex; eauto.
Qed.

(** Appending JSON white space keeps a text acceptable. *)
Lemma lex_accepts_app_ws s : forall st w,
  forallb is_json_ws w = true ->
  lex_accepts st s = true -> lex_accepts st (s ++ w) = true.
Proof.
  induction s as [|c s IH]; simpl; intros st w Hw H.
  - revert st H. induction w as [|x w IHw]; simpl; intros st H; [exact H|].
    apply andb_true_iff in Hw as [Hx Hw].
    apply negb_true_iff in H.
    rewrite (step_json_ws st [] x H Hx). apply IHw; auto.
  - destruct (lex_step st [] c) as [[st' a]|]; [auto|discriminate].
Qed.

End LexFacts.
Import LexFacts.

Module FenceFacts.

Local Arguments lex_step : simpl never.

(** Case analysis on the step the lexer takes in hypothesis [H]. *)
Ltac lex_step_in H E :=
  match type of H with
  | context [lex_step ?st [] ?c] =>
      destruct (lex_step st [] c) as [[? ?]|] eqn:E; [|discriminate H]
  end.

(** A character that does not start a fence marker is copied. *)
Lemma open_fence_copy_cons bol c s :
  bol = false \/ c <> BACKTICK ->
  sub_open_fence FCopy bol (c :: s)
  = c :: sub_open_fence FCopy (c =? LF)%N s.
Proof.
  intros H. cbn -[N.eqb].
  destruct bol; [|reflexivity].
  destruct H as [H|H]; [discriminate|].
  destruct (N.eqb_spec 96 c) as [E|E]; [symmetry in E; contradiction|].
  reflexivity.
Qed.

Lemma open_fence_spaces_cons b c s :
  isspace c = false ->
  sub_open_fence FSpaces b (c :: s) = sub_open_fence FCopy b (c :: s).
Proof. intros H. cbn -[N.eqb startswith]. now rewrite H. Qed.

(** Inside a text the lexer accepts no line starts with a back-tick, so
    the opening-fence substitution copies it. *)
Lemma open_fence_accepted s : forall st bol tail,
  lex_accepts st s = true ->
  (bol = true -> in_string st = false) ->
  exists b',
    sub_open_fence FCopy bol (s ++ tail)
    = s ++ sub_open_fence FCopy b' tail.
Proof.
  induction s as [|c s IH]; intros st bol tail H Hbol.
  - exists bol; reflexivity.
  - simpl in H.
    destruct (lex_step st [] c) as [[st' a]|] eqn:E; [|discriminate].
    assert (Hc : bol = false \/ c <> BACKTICK).
    { destruct bol; [right|now left]. intros ->.
      destruct (step_backtick _ _ _ _ E) as (x & hi & -> & _).
      specialize (Hbol eq_refl). discriminate. }
    simpl app. rewrite open_fence_copy_cons by exact Hc.
    destruct (IH st' (c =? LF)%N tail H) as (b' & ->).
    + intros Hlf. apply N.eqb_eq in Hlf. subst c.
      now rewrite (step_lf _ _ _ _ E).
    + exists b'; reflexivity.
Qed.

Lemma open_fence_after_marker t : forall b tail,
  lex_accepts LBetween t = true -> lstrip t <> [] ->
  exists b',
    sub_open_fence FSpaces b (t ++ tail)
    = lstrip t ++ sub_open_fence FCopy b' tail.
Proof.
  induction t as [|c t IH]; intros b tail H Hne; [now elim Hne|].
  simpl lstrip in *. destruct (isspace c) eqn:Hc.
  - simpl in H.
    destruct (lex_step LBetween [] c) as [[st' a]|] eqn:E; [|discriminate].
    destruct (step_space_outside LBetween [] c _ _ eq_refl Hc E)
      as (_ & -> & _).
    simpl app. cbn -[N.eqb startswith]. rewrite Hc. now apply IH.
  - simpl app. rewrite open_fence_spaces_cons by exact Hc.
    apply (open_fence_accepted (c :: t) LBetween b tail H). reflexivity.
Qed.

(** After a back-tick of a string literal the white space never reaches
    a line end. *)
Lemma string_tail r : forall s hi,
  lex_accepts (LString s hi) r = true ->
  snd (span isspace r) <> [] /\ last_lf (fst (span isspace r)) = None.
Proof.
  induction r as [|c r IH]; intros s hi H; [discriminate|].
  simpl in H. simpl span.
  destruct (isspace c) eqn:Hc.
  - destruct (lex_step (LString s hi) [] c) as [[st' a]|] eqn:E;
      [|discriminate].
    destruct (step_space_string _ _ _ _ _ _ Hc E) as (H32 & ->).
    destruct (IH _ _ H) as (H1 & H2).
    destruct (span isspace r) as [run rest]. simpl in *.
    split; [exact H1|]. rewrite H2.
    assert ((c =? LF)%N = false) as -> by char_arith. reflexivity.
  - simpl. split; [discriminate|reflexivity].
Qed.

Lemma close_fence_none st c s :
  lex_accepts st (c :: s) = true -> close_fence_match (c :: s) = None.
Proof.
  intros H. simpl in H.
  destruct (lex_step st [] c) as [[st1 a1]|] eqn:E1; [|discriminate].
  unfold close_fence_match.
  destruct (N.eqb_spec c LF) as [->|Hlf].
  - rewrite (step_lf _ _ _ _ E1) in H.
    destruct s as [|x s]; [reflexivity|].
    cbn -[N.eqb]. destruct (N.eqb_spec 96 x) as [<-|]; [|reflexivity].
    cbn [lex_accepts] in H. lex_step_in H E2.
    destruct (step_backtick _ _ _ _ E2) as (? & ? & ? & _). discriminate.
  - cbn -[N.eqb span skipn].
    destruct (N.eqb_spec 96 c) as [<-|]; [|reflexivity].
    destruct (step_backtick _ _ _ _ E1) as (x & hi & -> & ->).
    destruct s as [|c2 s]; [reflexivity|].
    destruct (N.eqb_spec 96 c2) as [<-|]; [|reflexivity].
    cbn [lex_accepts] in H. lex_step_in H E2.
    destruct (step_backtick _ _ _ _ E2) as (? & ? & _ & ->).
    destruct s as [|c3 s]; [reflexivity|].
    destruct (N.eqb_spec 96 c3) as [<-|]; [|reflexivity].
    cbn [lex_accepts] in H. lex_step_in H E3.
    destruct (step_backtick _ _ _ _ E3) as (? & ? & _ & ->).
    simpl skipn.
    destruct (string_tail _ _ _ H) as (H1 & H2).
    destruct (span isspace s) as [run rest]. simpl in *.
    destruct rest; [now elim H1|]. now rewrite H2.
Qed.

(** The closing-fence substitution copies a text the lexer accepts. *)
Lemma close_fence_accepted s : forall st,
  lex_accepts st s = true -> sub_close_fence 0 s = s.
Proof.
  induction s as [|c s IH]; intros st H; [reflexivity|].
  cbn [sub_close_fence]. rewrite (close_fence_none _ _ _ H).
  simpl in H.
  destruct (lex_step st [] c) as [[st' a]|]; [|discriminate].
  f_equal. eauto.
Qed.

End FenceFacts.
Import FenceFacts.

Module FixJsonFacts.

Lemma fix_of_unfenced text v :
  json_loads (unfenced text) = Some v -> _fix_json_string text = Ok v.
Proof. unfold unfenced, _fix_json_string. now intros ->. Qed.

Lemma fix_unfenced_eq t1 t2 :
  unfenced t1 = unfenced t2 -> _fix_json_string t1 = _fix_json_string t2.
Proof. unfold unfenced, _fix_json_string. now intros ->. Qed.

Lemma lstrip_head s c x : lstrip s = c :: x -> isspace c = false.
Proof.
  induction s as [|a s IH]; simpl; [discriminate|].
  destruct (isspace a) eqn:E; [exact IH|]. now intros [= <- _].
Qed.

Lemma loads_accepts t v :
  json_loads t = Some v -> lex_accepts LBetween t = true.
Proof.
  unfold json_loads. destruct (lex LBetween [] t) eqn:E; [|discriminate].
  intros _. eapply lex_accepts_of_lex; eauto.
Qed.

Lemma loads_strip t v :
  json_loads t = Some v -> json_loads (strip t) = Some v.
Proof.
  unfold json_loads. destruct (lex LBetween [] t) eqn:E; [|discriminate].
  now rewrite (lex_strip _ _ E).
Qed.

Lemma loads_not_blank t v : json_loads t = Some v -> lstrip t <> [].
Proof.
  intros H E. assert (A := loads_accepts _ _ H).
  unfold json_loads in H.
  rewrite <- (lex_lstrip t [] A), E in H. discriminate.
Qed.

Lemma unfenced_valid t v : json_loads t = Some v -> unfenced t = strip t.
Proof.
  intros H. unfold unfenced, re_sub_open_fence, re_sub_close_fence.
  assert (A : lex_accepts LBetween (strip t) = true)
    by (eapply loads_accepts, loads_strip; eauto).
  destruct (open_fence_accepted (strip t) LBetween true [] A) as (b & E);
    [reflexivity|].
  rewrite app_nil_r in E. rewrite E. simpl. rewrite app_nil_r.
  rewrite (close_fence_accepted _ _ A). apply strip_idem.
Qed.

Lemma strip_trimmed c s d :
  isspace c = false -> isspace d = false ->
  strip (c :: s ++ [d]) = c :: s ++ [d].
Proof.
  intros Hc Hd. unfold strip. rewrite lstrip_nonspace by exact Hc.
  rewrite app_comm_cons. now apply rstrip_snoc_nonspace.
Qed.

Lemma strip_fence_json t : strip (fence_json t) = fence_json t.
Proof.
  assert (E : fence_json t
              = 96%N :: (u "``json" ++ [LF] ++ t ++ [LF] ++ u "``") ++ [96%N]).
  { unfold fence_json. cbn. now rewrite <- !app_assoc. }
  rewrite E. now apply strip_trimmed.
Qed.

Lemma strip_fence_bare t : strip (fence_bare t) = fence_bare t.
Proof.
  assert (E : fence_bare t
              = 96%N :: (u "``" ++ [LF] ++ t ++ [LF] ++ u "``") ++ [96%N]).
  { unfold fence_bare. cbn. now rewrite <- !app_assoc. }
  rewrite E. now apply strip_trimmed.
Qed.

Lemma open_fence_json s :
  re_sub_open_fence (u "```json" ++ [LF] ++ s) = sub_open_fence FSpaces true s.
Proof. reflexivity. Qed.

Lemma open_fence_bare s :
  re_sub_open_fence (u "```" ++ [LF] ++ s) = sub_open_fence FSpaces true s.
Proof. reflexivity. Qed.

(** What is left of a fenced valid text after both substitutions. *)
Lemma fence_body t v :
  json_loads t = Some v ->
  strip (re_sub_close_fence
           (sub_open_fence FSpaces true (t ++ [LF] ++ u "```")))
  = strip t.
Proof.
  intros H.
  assert (A := loads_accepts _ _ H). assert (Hne := loads_not_blank _ _ H).
  destruct (open_fence_after_marker t true ([LF] ++ u "```") A Hne)
    as (b & ->).
  assert (sub_open_fence FCopy b ([LF] ++ u "```") = [LF]) as ->
    by (destruct b; reflexivity).
  unfold re_sub_close_fence.
  rewrite (close_fence_accepted (lstrip t ++ [LF]) LBetween)
    by (apply lex_accepts_app_ws; [reflexivity|now apply lex_accepts_lstrip]).
  unfold strip.
  destruct (lstrip t) as [|c x] eqn:E; [now elim Hne|].
  assert (Hc := lstrip_head _ _ _ E).
  simpl app. rewrite (lstrip_nonspace c (x ++ [LF]) Hc).
  rewrite app_comm_cons. now apply rstrip_app_spaces.
Qed.

Lemma unfenced_fence_json t v :
  json_loads t = Some v -> unfenced (fence_json t) = strip t.
Proof.
  intros H. unfold unfenced. rewrite strip_fence_json.
  unfold fence_json. rewrite open_fence_json. eapply fence_body; eauto.
Qed.

Lemma unfenced_fence_bare t v :
  json_loads t = Some v -> unfenced (fence_bare t) = strip t.
Proof.
  intros H. unfold unfenced. rewrite strip_fence_bare.
  unfold fence_bare. rewrite open_fence_bare. eapply fence_body; eauto.
Qed.

End FixJsonFacts.
Import FixJsonFacts.

(** C5: an LLM output that is a valid JSON object wrapped in a markdown
    code fence, tagged [json] or bare, is repaired to the very object the
    unwrapped text gives. *)
Theorem fenced_object_recovered (t : str) (o : dict) :
  json_loads t = Some (JDict o) ->
  _fix_json_string t = Ok (JDict o)
  /\ _fix_json_string (fence_json t) = _fix_json_string t
  /\ _fix_json_string (fence_bare t) = _fix_json_string t.
Proof.
  intros H.
  assert (U := unfenced_valid _ _ H).
  split; [|split].
  - apply fix_of_unfenced. rewrite U. now apply loads_strip.
  - apply fix_unfenced_eq. rewrite U. eapply unfenced_fence_json; eauto.
  - apply fix_unfenced_eq. rewrite U. eapply unfenced_fence_bare; eauto.
Qed.

(** The theorem at a fenced two-key object whose string holds back-ticks. *)
Lemma fenced_object_recovered_witness :
  json_loads (js "{'name': 'Ada', 'skills': ['a```b']}")
  = Some (JDict [(u "name", JStr (u "Ada"));
                 (u "skills", JList [JStr (u "a```b")])])
  /\ _fix_json_string (fence_json (js "{'name': 'Ada', 'skills': ['a```b']}"))
     = Ok (JDict [(u "name", JStr (u "Ada"));
                  (u "skills", JList [JStr (u "a```b")])]).
Proof.
  split; [reflexivity|].
  destruct (fenced_object_recovered
              (js "{'name': 'Ada', 'skills': ['a```b']}")
              [(u "name", JStr (u "Ada"));
               (u "skills", JList [JStr (u "a```b")])] eq_refl)
    as (H1 & H2 & _).
  rewrite H2. exact H1.
Defined.

Module NormaliseFacts.
Section WithHost.
Context {host : Host}.

(** The loop over the defaults, unrolled. *)
Lemma normalise_dict_unrolled d username :
  normalise_dict d username
  = map (fun kd => (fst kd, coerce (snd kd) (get_or d (fst kd) (snd kd))))
        (defaults username).
Proof. reflexivity. Qed.

Lemma normalise_get d username k default :
  In (k, default) (defaults username) ->
  dict_get (normalise_dict d username) k
  = Some (coerce default (get_or d k default)).
Proof.
  intros H. simpl in H.
  repeat (destruct H as [H|H]; [inversion H; subst; reflexivity|]).
  contradiction.
Qed.

Lemma default_shape username k default :
  In (k, default) (defaults username) ->
  is_str default || is_list default || is_dict default = true.
Proof.
  intros H. simpl in H.
  repeat (destruct H as [H|H]; [inversion H; subst; reflexivity|]).
  contradiction.
Qed.

Lemma coerce_idem default v :
  is_str default || is_list default || is_dict default = true ->
  coerce default (coerce default v) = coerce default v.
Proof.
  intros H. unfold coerce.
  destruct default; try discriminate; destruct v; simpl; try reflexivity;
    match goal with
    | |- context [if ?b then _ else _] => destruct b; reflexivity
    | |- context [match ?l with [] => _ | _ :: _ => _ end] =>
        destruct l; reflexivity
    end.
Qed.

Lemma coerce_list default v :
  is_list default = true ->
  coerce default v = if is_list v then v else default.
Proof. destruct default; try discriminate; destruct v; reflexivity. Qed.

Lemma coerce_dict default v :
  is_dict default = true ->
  coerce default v = if is_dict v then v else default.
Proof. destruct default; try discriminate; destruct v; reflexivity. Qed.

Lemma coerce_str default v :
  is_str default = true ->
  coerce default v
  = if is_str v then v
    else if truthy v then JStr (py_str v) else default.
Proof. destruct default; try discriminate; destruct v; reflexivity. Qed.

End WithHost.
End NormaliseFacts.
Import NormaliseFacts.

Section NormaliseTheorems.
Context {host : Host}.

(** C3: the normalisation of a parsed dict has exactly the ten required
    keys.  A list-typed key holds the list given for it, or the empty
    list when the key is missing or its value is not a list; [contact]
    holds the mapping given, or the empty mapping; a string-typed key
    holds a string: the one given, or the string conversion of a truthy
    value of another type.  So a missing [skills] gives [[]] and a
    [contact] given as a list gives [{}]. *)
Theorem normalised_has_every_key (d : dict) (username : str) :
  _validate_and_normalise (JDict d) username
  = Ok (normalise_dict d username)
  /\ dict_keys (normalise_dict d username) = REQUIRED_KEYS
  /\ (forall k, In k LIST_KEYS ->
      dict_get (normalise_dict d username) k
      = Some (match dict_get d k with
              | Some (JList l) => JList l
              | _ => JList []
              end))
  /\ dict_get (normalise_dict d username) (u "contact")
     = Some (match dict_get d (u "contact") with
             | Some (JDict c) => JDict c
             | _ => JDict []
             end)
  /\ (forall k, In k STRING_KEYS ->
      exists s, dict_get (normalise_dict d username) k = Some (JStr s)
        /\ (forall s', dict_get d k = Some (JStr s') -> s = s')
        /\ (forall v, dict_get d k = Some v -> is_str v = false ->
            truthy v = true -> s = py_str v))
  /\ (dict_get d (u "skills") = None ->
      dict_get (normalise_dict d username) (u "skills") = Some (JList []))
  /\ (forall l, dict_get d (u "contact") = Some (JList l) ->
      dict_get (normalise_dict d username) (u "contact") = Some (JDict [])).
Proof.
  assert (L : forall k, In k LIST_KEYS ->
      dict_get (normalise_dict d username) k
      = Some (match dict_get d k with
              | Some (JList l) => JList l
              | _ => JList []
              end)).
  { intros k H. simpl in H.
    repeat (destruct H as [H|H];
            [subst k; rewrite (normalise_get d username _ (JList []))
                by (simpl; tauto);
             rewrite coerce_list by reflexivity; unfold get_or;
             destruct (dict_get d _) as [[]|]; reflexivity|]).
    contradiction. }
  assert (C : dict_get (normalise_dict d username) (u "contact")
     = Some (match dict_get d (u "contact") with
             | Some (JDict c) => JDict c
             | _ => JDict []
             end)).
  { rewrite (normalise_get d username _ (JDict [])) by (simpl; tauto).
    rewrite coerce_dict by reflexivity. unfold get_or.
    destruct (dict_get d _) as [[]|]; reflexivity. }
  repeat split; auto.
  - intros k H.
    assert (exists default, In (k, JStr default) (defaults username))
      as (default & Hd).
    { simpl in H. simpl.
      repeat (destruct H as [H|H]; [subst k; eexists; tauto|]).
      contradiction. }
    rewrite (normalise_get d username _ _ Hd).
    rewrite coerce_str by reflexivity. unfold get_or.
    destruct (dict_get d k) as [v|].
    + destruct (is_str v) eqn:Hs.
      * destruct v; try discriminate. eexists; split; [reflexivity|].
        split; [now intros ? [= ->]|]. intros ? [= <-]. discriminate.
      * destruct (truthy v) eqn:Ht.
        -- eexists; split; [reflexivity|]. split.
           ++ intros ? [= ->]. discriminate.
           ++ now intros ? [= <-].
        -- eexists; split; [reflexivity|]. split.
           ++ intros ? [= ->]. discriminate.
           ++ intros ? [= <-] _ ?. congruence.
    + eexists; split; [reflexivity|]. split; intros; discriminate.
  - intros H. rewrite (L (u "skills")) by (simpl; tauto). now rewrite H.
  - intros l H. rewrite C. now rewrite H.
Qed.

(** C9: normalising the result of a normalisation changes nothing. *)
Theorem normalise_idempotent (d : dict) (username : str) :
  _validate_and_normalise (JDict (normalise_dict d username)) username
  = Ok (normalise_dict d username)
  /\ normalise_dict (normalise_dict d username) username
     = normalise_dict d username.
Proof.
  assert (E : normalise_dict (normalise_dict d username) username
              = normalise_dict d username).
  { rewrite (normalise_dict_unrolled (normalise_dict d username)).
    etransitivity; [|symmetry; apply normalise_dict_unrolled].
    apply map_ext_in. intros [k default] H. simpl. f_equal.
    unfold get_or at 1. rewrite (normalise_get d username _ _ H).
    apply coerce_idem. eapply default_shape; eauto. }
  split; [|exact E]. simpl. now rewrite E.
Qed.

End NormaliseTheorems.

Module FallbackFacts.
Section WithHost.
Context {host : Host}.
Variables (client : http_client) (api_key prompt username : str).

Let att (n : nat) (m : str) : result dict :=
  attempt client n m api_key prompt username.
Let run (total n : nat) (models : list str) (last : option exn) :=
  try_models client api_key prompt username total n models last.

(** One more iteration of the loop after a failure the handlers catch. *)
Lemma try_models_next total n m rest last e :
  att n m = Raise e -> recoverable e = true ->
  fst (run total n (m :: rest) last) = fst (run total (S n) rest (Some e))
  /\ posts (snd (run total n (m :: rest) last))
     = m :: posts (snd (run total (S n) rest (Some e))).
Proof.
  unfold att, run, recoverable. intros E R. simpl. rewrite E.
  destruct (try_models client api_key prompt username total (S n) rest
              (Some e)) as [r tr].
  destruct (is_http_or_timeout e); [now split|].
  simpl in R. rewrite R. now split.
Qed.

Lemma try_models_ok total n m rest last r :
  att n m = Ok r -> run total n (m :: rest) last = (Ok r, [EvPost m]).
Proof. unfold att, run. intros E. simpl. now rewrite E. Qed.

Lemma try_models_escape total n m rest last e :
  att n m = Raise e -> recoverable e = false ->
  run total n (m :: rest) last = (Raise e, [EvPost m]).
Proof.
  unfold att, run, recoverable. intros E R. simpl. rewrite E.
  apply orb_false_iff in R as [-> ->]. reflexivity.
Qed.

(** The models called are an initial segment of the candidate list. *)
Lemma posts_prefix total models : forall n last,
  exists rest, models = posts (snd (run total n models last)) ++ rest.
Proof.
  induction models as [|m models IH]; intros n last.
  - now exists [].
  - destruct (att n m) as [r|e] eqn:E.
    + rewrite (try_models_ok total n m models last r E).
      now exists models.
    + destruct (recoverable e) eqn:R.
      * destruct (try_models_next total n m models last e E R) as (_ & ->).
        destruct (IH (S n) (Some e)) as (rest & Hr).
        exists rest. simpl. now f_equal.
      * rewrite (try_models_escape total n m models last e E R).
        now exists models.
Qed.

(** Every candidate fails in a way the handlers catch: all are called
    and the loop ends with the last error. *)
Lemma all_fail total models : forall n last,
  (forall i m, nth_error models i = Some m ->
     exists e, att (n + i) m = Raise e /\ recoverable e = true) ->
  posts (snd (run total n models last)) = models
  /\ exists last',
       fst (run total n models last) = Raise (RuntimeError total last')
       /\ match rev models with
          | [] => last' = last
          | m :: _ =>
              exists e, last' = Some e
                /\ att (n + (List.length models - 1)) m = Raise e
          end.
Proof.
  induction models as [|m models IH]; intros n last H.
  - split; [reflexivity|]. exists last. now split.
  - destruct (H 0 m eq_refl) as (e & E & R). rewrite Nat.add_0_r in E.
    destruct (try_models_next total n m models last e E R) as (-> & ->).
    destruct (IH (S n) (Some e)) as (P & last' & F & L).
    { intros i x Hi. destruct (H (S i) x Hi) as (e' & E' & R').
      exists e'. now rewrite Nat.add_succ_comm. }
    split; [now rewrite P|]. exists last'. split; [exact F|].
    simpl rev. destruct (rev models) as [|x xs] eqn:Er.
    + apply (f_equal (@rev _)) in Er. rewrite rev_involutive in Er.
      subst models. cbn [app rev List.length] in *. subst last'. exists e.
      split; [reflexivity|]. now rewrite Nat.add_0_r.
    + cbn [app]. destruct L as (e' & -> & E'). exists e'.
      split; [reflexivity|].
      assert (List.length models <> 0).
      { intros Z. apply length_zero_iff_nil in Z. now subst. }
      replace (n + (List.length (m :: models) - 1))
        with (S n + (List.length models - 1)) by (cbn [List.length]; lia).
      exact E'.
Qed.

(** The candidates before [m] fail in a way the handlers catch and the
    attempt on [m] succeeds. *)
Lemma fail_then_ok total pre : forall n last m rest r,
  (forall i x, nth_error pre i = Some x ->
     exists e, att (n + i) x = Raise e /\ recoverable e = true) ->
  att (n + List.length pre) m = Ok r ->
  fst (run total n (pre ++ m :: rest) last) = Ok r
  /\ posts (snd (run total n (pre ++ m :: rest) last)) = pre ++ [m].
Proof.
  induction pre as [|p pre IH]; intros n last m rest r H E.
  - simpl in *. rewrite Nat.add_0_r in E.
    rewrite (try_models_ok total n m rest last r E). now split.
  - destruct (H 0 p eq_refl) as (e & Ep & R). rewrite Nat.add_0_r in Ep.
    simpl app.
    destruct (try_models_next total n p (pre ++ m :: rest) last e Ep R)
      as (-> & ->).
    destruct (IH (S n) (Some e) m rest r) as (F & P).
    + intros i x Hi. destruct (H (S i) x Hi) as (e' & E' & R').
      exists e'. now rewrite Nat.add_succ_comm.
    + simpl in E. now rewrite Nat.add_succ_comm.
    + split; [exact F|]. simpl. now rewrite P.
Qed.

(** An error that reaches the caller is the terminal [RuntimeError] or
    an exception of a class the handlers do not catch, raised by an
    attempt. *)
Lemma raised_origin total models : forall n last e,
  fst (run total n models last) = Raise e ->
  (exists last', e = RuntimeError total last')
  \/ (recoverable e = false
      /\ exists i m, nth_error models i = Some m
           /\ att (n + i) m = Raise e).
Proof.
  induction models as [|m models IH]; intros n last e H.
  - left. exists last. simpl in H. congruence.
  - destruct (att n m) as [r|e'] eqn:E.
    + rewrite (try_models_ok total n m models last r E) in H.
      discriminate.
    + destruct (recoverable e') eqn:R.
      * destruct (try_models_next total n m models last e' E R) as (F & _).
        rewrite F in H. destruct (IH _ _ _ H) as [L|(R' & i & x & Hi & Hx)];
          [now left|right].
        split; [exact R'|]. exists (S i), x. split; [exact Hi|].
        now rewrite <- Nat.add_succ_comm.
      * rewrite (try_models_escape total n m models last e' E R) in H.
        simpl in H. injection H as <-. right. split; [exact R|].
        exists 0, m. split; [reflexivity|]. now rewrite Nat.add_0_r.
Qed.

End WithHost.

Lemma fallback_models_nodup : NoDup FALLBACK_MODELS.
Proof.
  unfold FALLBACK_MODELS.
  repeat (constructor; [vm_compute; intuition discriminate|]).
  constructor.
Qed.

Lemma str_eqb_eq a : forall b, str_eqb a b = true <-> a = b.
Proof.
  induction a as [|x a IH]; intros [|y b]; simpl; split; try easy.
  - intros H. apply andb_true_iff in H as [H1 H2].
    apply N.eqb_eq in H1. apply IH in H2. congruence.
  - intros [= -> ->]. rewrite N.eqb_refl. now apply IH.
Qed.

Lemma models_to_try_nodup preferred : NoDup (models_to_try preferred).
Proof.
  unfold models_to_try. constructor.
  - intros H. apply filter_In in H as [_ H].
    apply negb_true_iff in H.
    assert (str_eqb preferred preferred = true) by now apply str_eqb_eq.
    congruence.
  - apply NoDup_filter, fallback_models_nodup.
Qed.

End FallbackFacts.
Import FallbackFacts.

Module AttemptFacts.
Section WithHost.
Context {host : Host}.

Lemma nth_error_last_split {A : Type} (l : list A) (x : A) :
  nth_error l (List.length l - 1) = Some x ->
  l = firstn (List.length l - 1) l ++ [x].
Proof.
  intros H. rewrite <- (firstn_skipn (List.length l - 1) l) at 1.
  f_equal.
  assert (L : List.length (skipn (List.length l - 1) l) = 1).
  { rewrite length_skipn.
    assert (List.length l - 1 < List.length l)
      by (apply nth_error_Some; congruence). lia. }
  rewrite <- (Nat.add_0_r (List.length l - 1)), <- nth_error_skipn in H.
  destruct (skipn (List.length l - 1) l) as [|y [|z t]]; try discriminate.
  simpl in H. congruence.
Qed.

Lemma nth_error_rev_head {A : Type} (l : list A) (x : A) (xs : list A) :
  rev l = x :: xs -> nth_error l (List.length l - 1) = Some x.
Proof.
  intros H. apply (f_equal (@rev _)) in H. rewrite rev_involutive in H.
  subst l. simpl. rewrite length_app, nth_error_app2; simpl;
    rewrite ?length_rev; [|lia].
  replace (_ - _) with 0 by lia. reflexivity.
Qed.

Lemma fix_json_raises s e :
  _fix_json_string s = Raise e ->
  e = ValueError (CannotExtractJSON (firstn 300 (unfenced s))).
Proof.
  unfold _fix_json_string, unfenced.
  repeat match goal with
         | |- context [match ?x with Some _ => _ | None => _ end] =>
             destruct x
         end; congruence.
Qed.

Lemma attempt_post_raises client n m api_key prompt username e :
  client n {| req_model := m; req_api_key := api_key; req_prompt := prompt |}
  = PostRaises e ->
  attempt client n m api_key prompt username = Raise e.
Proof. unfold attempt, _call_llm. now intros ->. Qed.

Lemma attempt_rate_limited client n m api_key prompt username text :
  client n {| req_model := m; req_api_key := api_key; req_prompt := prompt |}
  = PostReturns 429 text ->
  attempt client n m api_key prompt username = Raise (HTTPStatusError 429 []).
Proof. unfold attempt, _call_llm. now intros ->. Qed.

Lemma attempt_upstream_error client n m api_key prompt username status text :
  client n {| req_model := m; req_api_key := api_key; req_prompt := prompt |}
  = PostReturns status text ->
  status <> 200%Z -> status <> 429%Z ->
  attempt client n m api_key prompt username
  = Raise (HTTPStatusError status (firstn 300 text)).
Proof.
  unfold attempt, _call_llm. intros -> H1 H2.
  apply Z.eqb_neq in H1, H2. now rewrite H1, H2.
Qed.

Lemma attempt_unparsable client n m api_key prompt username s e :
  _call_llm client n m api_key prompt = Ok (JStr s) ->
  _fix_json_string s = Raise e ->
  attempt client n m api_key prompt username
  = Raise (ValueError (CannotExtractJSON (firstn 300 (unfenced s)))).
Proof.
  unfold attempt. intros -> H. simpl. rewrite H. simpl.
  now rewrite (fix_json_raises s e H).
Qed.

Lemma attempt_parsed_object client n m api_key prompt username s d :
  _call_llm client n m api_key prompt = Ok (JStr s) ->
  _fix_json_string s = Ok (JDict d) ->
  attempt client n m api_key prompt username
  = Ok (normalise_dict d username).
Proof. unfold attempt. intros -> H. simpl. now rewrite H. Qed.

End WithHost.
End AttemptFacts.
Import AttemptFacts.

Section FallbackTheorems.
Context {host : Host}.
Variables (client : http_client) (resume_text api_key : str)
          (model : option str) (username : str).

(** C1 (amended): the candidates are the preferred model followed by the
    fallback models other than it, without repetition; the models called
    in a run are an initial segment of that list, each once.  When the
    attempts on the first N-1 candidates fail with an error the loop
    handles and the N-th yields text that parses to a JSON object, the
    result is the normalisation of that object after exactly N calls.
    When all N attempts fail with such errors, the terminal error is
    raised after exactly N calls and carries the error of the last
    attempt. *)
Theorem fallback_tries_each_model_once :
  let prompt := PORTFOLIO_EXTRACTION_PROMPT ++ resume_text in
  let preferred := preferred_model model in
  let models := models_to_try preferred in
  let N := List.length models in
  let att := fun i m => attempt client i m api_key prompt username in
  let out := generate_portfolio_data client resume_text api_key model
                                     username in
  (models = preferred
            :: filter (fun m => negb (str_eqb m preferred)) FALLBACK_MODELS
   /\ NoDup models)
  /\ (exists rest, models = posts (snd out) ++ rest)
  /\ (forall m s d,
        (forall i x, i < N - 1 -> nth_error models i = Some x ->
           exists e, att i x = Raise e /\ recoverable e = true) ->
        nth_error models (N - 1) = Some m ->
        _call_llm client (N - 1) m api_key prompt = Ok (JStr s) ->
        _fix_json_string s = Ok (JDict d) ->
        fst out = Ok (normalise_dict d username)
        /\ posts (snd out) = models
        /\ List.length (posts (snd out)) = N)
  /\ ((forall i x, nth_error models i = Some x ->
         exists e, att i x = Raise e /\ recoverable e = true) ->
      posts (snd out) = models
      /\ List.length (posts (snd out)) = N
      /\ exists m e, nth_error models (N - 1) = Some m
           /\ att (N - 1) m = Raise e
           /\ fst out = Raise (RuntimeError N (Some e))).
Proof.
  intros prompt preferred models N att out.
  split; [split; [reflexivity|apply models_to_try_nodup]|].
  split; [apply posts_prefix|]. split.
  - intros m s d Hpre Hm Hcall Hfix.
    assert (E := nth_error_last_split models m Hm). fold N in E.
    assert (L : List.length (firstn (N - 1) models) = N - 1)
      by (rewrite length_firstn; unfold N; lia).
    destruct (fail_then_ok client api_key prompt username N
                (firstn (N - 1) models) 0 None m []
                (normalise_dict d username)) as (F & P).
    + intros i x Hi.
      assert (i < N - 1)
        by (rewrite <- L; apply nth_error_Some; congruence).
      apply Hpre; [assumption|].
      rewrite E, nth_error_app1 by lia. exact Hi.
    + rewrite L. apply attempt_parsed_object with (s := s); assumption.
    + rewrite <- E in F, P. unfold out, generate_portfolio_data.
      fold prompt preferred models N. rewrite F, P. auto.
  - intros Hall.
    destruct (all_fail client api_key prompt username N models 0 None Hall)
      as (P & last' & F & L).
    unfold out, generate_portfolio_data. fold prompt preferred models N.
    rewrite P, F. split; [reflexivity|]. split; [reflexivity|].
    destruct (rev models) as [|m xs] eqn:Er.
    + apply (f_equal (@rev _)) in Er. rewrite rev_involutive in Er.
      discriminate.
    + destruct L as (e & -> & E). exists m, e.
      split; [eapply nth_error_rev_head; eauto|]. split; [exact E|].
      reflexivity.
Qed.

(** C2 (amended): a rate-limited answer, a timeout, another non-200
    answer and content that cannot be repaired into JSON each make the
    attempt fail with an error the loop handles; after such an error the
    loop goes on with the next model.  When every failing attempt of a
    run fails with an error the loop handles, the run returns a result
    or raises the terminal error and no other. *)
Theorem transient_failures_move_to_next_model :
  let prompt := PORTFOLIO_EXTRACTION_PROMPT ++ resume_text in
  let models := models_to_try (preferred_model model) in
  let N := List.length models in
  let att := fun i m => attempt client i m api_key prompt username in
  let request := fun m => {| req_model := m; req_api_key := api_key;
                             req_prompt := prompt |} in
  let out := generate_portfolio_data client resume_text api_key model
                                     username in
  (forall i m text, client i (request m) = PostReturns 429 text ->
     exists e, att i m = Raise e /\ recoverable e = true)
  /\ (forall i m, client i (request m) = PostRaises TimeoutException ->
     exists e, att i m = Raise e /\ recoverable e = true)
  /\ (forall i m status text,
        client i (request m) = PostReturns status text ->
        status <> 200%Z ->
        exists e, att i m = Raise e /\ recoverable e = true)
  /\ (forall i m s e, _call_llm client i m api_key prompt = Ok (JStr s) ->
        _fix_json_string s = Raise e ->
        exists e', att i m = Raise e' /\ recoverable e' = true)
  /\ (forall total i m rest last e,
        att i m = Raise e -> recoverable e = true ->
        fst (try_models client api_key prompt username total i (m :: rest)
                        last)
        = fst (try_models client api_key prompt username total (S i) rest
                          (Some e))
        /\ posts (snd (try_models client api_key prompt username total i
                                  (m :: rest) last))
           = m :: posts (snd (try_models client api_key prompt username
                                         total (S i) rest (Some e))))
  /\ ((forall i x e, nth_error models i = Some x -> att i x = Raise e ->
         recoverable e = true) ->
      (exists res, fst out = Ok res)
      \/ (exists last, fst out = Raise (RuntimeError N last))).
Proof.
  intros prompt models N att request out.
  split; [|split; [|split; [|split; [|split]]]].
  - intros i m text H. eexists; split;
      [eapply attempt_rate_limited; exact H|reflexivity].
  - intros i m H. eexists; split;
      [eapply attempt_post_raises; exact H|reflexivity].
  - intros i m status text H Hs.
    destruct (Z.eq_dec status 429) as [->|H429].
    + eexists; split; [eapply attempt_rate_limited; exact H|reflexivity].
    + eexists; split;
        [eapply attempt_upstream_error; [exact H|exact Hs|exact H429]
        |reflexivity].
  - intros i m s e H1 H2. eexists; split;
      [eapply attempt_unparsable; [exact H1|exact H2]|reflexivity].
  - intros total i m rest last e H R.
    apply (try_models_next client api_key prompt username total i m rest
                           last e H R).
  - intros Hall. unfold out, generate_portfolio_data.
    fold prompt models N.
    destruct (fst (try_models client api_key prompt username N 0 models
                              None)) as [res|e] eqn:F.
    + left. now exists res.
    + right.
      destruct (raised_origin client api_key prompt username N models 0
                              None e F)
        as [(last & ->)|(R & i & x & Hi & Hx)].
      * now exists last.
      * rewrite (Hall i x e Hi Hx) in R. discriminate.
Qed.

End FallbackTheorems.

(** C1 as stated fails: the first six candidates are rate limited and
    the seventh yields the text [[1]], which parses, yet the run raises
    the terminal error instead of returning a parsed result. *)
Lemma parsed_list_is_not_returned :
  let client := rate_limited_until 6 LIST_ANSWER in
  let models := models_to_try (@preferred_model sample_host None) in
  let prompt := @PORTFOLIO_EXTRACTION_PROMPT sample_host ++ [] in
  List.length models = 7
  /\ Forall (fun i => @attempt sample_host client i (nth i models []) []
                                prompt []
                      = Raise (HTTPStatusError 429 []))
            (seq 0 6)
  /\ @_call_llm sample_host client 6 (nth 6 models []) [] prompt
     = Ok (JStr (u "[1]"))
  /\ _fix_json_string (u "[1]") = Ok (JList [JInt 1])
  /\ fst (@generate_portfolio_data sample_host client [] [] None [])
     = Raise (RuntimeError 7 (Some (ValueError (NonDictJSON (u "list"))))).
Proof.
  cbv zeta. split; [reflexivity|]. split.
  - repeat constructor.
  - repeat split; vm_compute; reflexivity.
Qed.

(** The theorem at the default candidates: six rate-limited answers and
    then an object, and seven rate-limited answers. *)
Lemma fallback_tries_each_model_once_witness :
  fst (@generate_portfolio_data sample_host
         (rate_limited_until 6 OBJECT_ANSWER) [] [] None (u "ada"))
  = Ok (@normalise_dict sample_host [(u "name", JStr (u "Ada"))] (u "ada"))
  /\ List.length
       (posts (snd (@generate_portfolio_data sample_host
                      (rate_limited_until 6 OBJECT_ANSWER) [] [] None
                      (u "ada")))) = 7
  /\ exists e,
       fst (@generate_portfolio_data sample_host
              (rate_limited_until 7 OBJECT_ANSWER) [] [] None (u "ada"))
       = Raise (RuntimeError 7 (Some e)).
Proof.
  destruct (@fallback_tries_each_model_once sample_host
              (rate_limited_until 6 OBJECT_ANSWER) [] [] None (u "ada"))
    as (_ & _ & H & _).
  destruct (H (u "qwen/qwen3-4b:free") (js "{'name': 'Ada'}")
              [(u "name", JStr (u "Ada"))]) as (F & _ & L).
  - intros i x Hi Hx.
    do 6 (destruct i as [|i];
          [vm_compute in Hx; injection Hx as <-;
           exists (HTTPStatusError 429 []); split; reflexivity|]).
    vm_compute in Hi. lia.
  - reflexivity.
  - reflexivity.
  - reflexivity.
  - split; [exact F|]. split; [exact L|].
    destruct (@fallback_tries_each_model_once sample_host
                (rate_limited_until 7 OBJECT_ANSWER) [] [] None (u "ada"))
      as (_ & _ & _ & A).
    destruct A as (_ & _ & m & e & _ & _ & R).
    + intros i x Hx.
      do 7 (destruct i as [|i];
            [vm_compute in Hx; injection Hx as <-;
             exists (HTTPStatusError 429 []); split; reflexivity|]).
      destruct i; discriminate.
    + exists e. exact R.
Defined.

(** C2 as stated fails: an answer with an empty [choices] list makes
    the first attempt raise [IndexError], which no handler of the loop
    catches and which reaches the caller as it is. *)
Lemma empty_choices_raise_index_error :
  @generate_portfolio_data sample_host
    (rate_limited_until 0 NO_CHOICE_ANSWER) [] [] None []
  = (Raise IndexError, [EvPost (u "google/gemma-3-12b-it:free")])
  /\ recoverable IndexError = false.
Proof. split; reflexivity. Qed.

(** The theorem at a run whose seven attempts are all rate limited. *)
Lemma transient_failures_move_to_next_model_witness :
  exists last,
    fst (@generate_portfolio_data sample_host
           (rate_limited_until 7 OBJECT_ANSWER) [] [] None (u "ada"))
    = Raise (RuntimeError 7 last).
Proof.
  destruct (@transient_failures_move_to_next_model sample_host
              (rate_limited_until 7 OBJECT_ANSWER) [] [] None (u "ada"))
    as (_ & _ & _ & _ & _ & H).
  destruct H as [(res & R)|H].
  - intros i x e Hx.
    do 7 (destruct i as [|i];
          [vm_compute in Hx; injection Hx as <-;
           intros A; vm_compute in A; injection A as <-; reflexivity|]).
    destruct i; discriminate.
  - vm_compute in R. discriminate.
  - exact H.
Defined.

(** C4: the object [{"a": "x,]"}] written with a trailing comma is
    repaired to a different object: the comma inside the string literal
    is removed with the trailing one. *)
Theorem comma_inside_string_is_removed :
  json_loads (js "{'a': 'x,]'}") = Some (JDict [(u "a", JStr (u "x,]"))])
  /\ _fix_json_string (js "{'a': 'x,]'}")
     = Ok (JDict [(u "a", JStr (u "x,]"))])
  /\ _fix_json_string (js "{'a': 'x,]',}")
     = Ok (JDict [(u "a", JStr (u "x]"))])
  /\ _fix_json_string (js "{'a': 'x,]',}")
     <> _fix_json_string (js "{'a': 'x,]'}")
  /\ _fix_json_string (js "{'a': [1, 2,],}")
     = _fix_json_string (js "{'a': [1, 2]}").
Proof.
  repeat split; try reflexivity. vm_compute. discriminate.
Qed.

Section PdfTheorems.
Context {host : Host}.

Lemma lstrip_blank s : forallb isspace s = true -> lstrip s = [].
Proof.
  induction s as [|c s IH]; simpl; [reflexivity|].
  intros H. apply andb_true_iff in H as [-> H]. auto.
Qed.

Lemma join_blank parts :
  Forall (fun p => forallb isspace p = true) parts ->
  forallb isspace (join [LF] parts) = true.
Proof.
  induction 1 as [|p parts Hp _ IH]; [reflexivity|].
  destruct parts as [|q parts]; [exact Hp|].
  change (join [LF] (p :: q :: parts)) with (p ++ [LF] ++ join [LF] (q :: parts)).
  rewrite !forallb_app, Hp, IH. reflexivity.
Qed.

(** Pages that are all blank give a blank text. *)
Lemma blank_pages_blank_text (pages : pdf) :
  Forall (fun p => forallb isspace p = true) pages ->
  forallb isspace (extract_text_from_pdf pages) = true.
Proof.
  intros H. unfold extract_text_from_pdf. apply join_blank.
  apply Forall_forall. intros p Hp. apply filter_In in Hp as [Hp _].
  rewrite Forall_forall in H. auto.
Qed.

(** C10: when the text extracted from the PDF is empty or white space
    only, the entry point raises the [ValueError] whose message mentions
    a scanned image, and no request to a model is made. *)
Theorem blank_pdf_raises_before_any_call (client : http_client)
    (pages : pdf) (api_key : str) (model : option str) (username : str)
    (profile_image_url : option str) :
  forallb isspace (extract_text_from_pdf pages) = true ->
  process_resume client pages api_key model username profile_image_url
  = (Raise (ValueError NoTextExtracted), [])
  /\ contains (u "scanned image") (value_error_message NoTextExtracted)
     = true.
Proof.
  intros H. split; [|reflexivity].
  unfold process_resume, strip. now rewrite (lstrip_blank _ H).
Qed.

End PdfTheorems.

(** The theorem at a PDF of three blank pages. *)
Lemma blank_pdf_raises_before_any_call_witness :
  @process_resume sample_host (rate_limited_until 0 OBJECT_ANSWER)
     [u "  "; []; [LF; 9%N]] [] None (u "ada") None
  = (Raise (ValueError NoTextExtracted), []).
Proof.
  apply (@blank_pdf_raises_before_any_call sample_host). reflexivity.
Defined.

Section IntentTheorems.
Context {host : Host}.
Import RagEngine.

Lemma existsb_str_eqb s l : existsb (str_eqb s) l = true <-> In s l.
Proof.
  rewrite existsb_exists. split.
  - intros (x & Hx & E). apply str_eqb_eq in E. now subst.
  - intros H. exists s. split; [exact H|now apply str_eqb_eq].
Qed.

(** C7: the classifier returns one of the three labels; it returns RAG
    when the call fails, when the reply is not a text, and when the
    trimmed, upper-cased reply is not one of the labels. *)
Theorem detect_intent_defaults_to_rag (gemini : result json) :
  In (detect_intent gemini) INTENTS
  /\ INTENTS = [u "INTERVIEW"; u "ATS"; u "RAG"]
  /\ (forall e, gemini = Raise e -> detect_intent gemini = u "RAG")
  /\ (forall v, gemini = Ok v -> is_str v = false ->
      detect_intent gemini = u "RAG")
  /\ (forall s, gemini = Ok (JStr s) ->
      ~ In (py_upper (strip s)) INTENTS -> detect_intent gemini = u "RAG")
  /\ (forall s, gemini = Ok (JStr s) ->
      In (py_upper (strip s)) INTENTS ->
      detect_intent gemini = py_upper (strip s)).
Proof.
  assert (R : In (u "RAG") INTENTS) by (simpl; tauto).
  split; [|split; [reflexivity|split; [|split; [|split]]]].
  - unfold detect_intent. destruct gemini as [[]|e]; try exact R.
    destruct (existsb _ INTENTS) eqn:E; [|exact R].
    now apply existsb_str_eqb.
  - now intros e ->.
  - intros v -> H. destruct v; try reflexivity; discriminate.
  - intros s -> H. unfold detect_intent.
    destruct (existsb _ INTENTS) eqn:E; [|reflexivity].
    apply existsb_str_eqb in E. contradiction.
  - intros s -> H. unfold detect_intent.
    apply existsb_str_eqb in H. now rewrite H.
Qed.

End IntentTheorems.

Module JobsFacts.
Import JobsEngine.

Lemma str_eqb_refl s : str_eqb s s = true.
Proof. now apply str_eqb_eq. Qed.

Lemma dict_get_set_same d k v : dict_get (dict_set d k v) k = Some v.
Proof.
  induction d as [|[k' v'] d IH]; simpl.
  - now rewrite str_eqb_refl.
  - destruct (str_eqb k' k) eqn:E; simpl; now rewrite E.
Qed.

Lemma dict_get_set_other d k k' v :
  str_eqb k k' = false -> dict_get (dict_set d k v) k' = dict_get d k'.
Proof.
  intros H. induction d as [|[x y] d IH]; simpl.
  - now rewrite H.
  - destruct (str_eqb x k) eqn:E; simpl.
    + apply str_eqb_eq in E. subst x. now rewrite H.
    + now rewrite IH.
Qed.

Lemma fallback_from_length jobs : forall i,
  List.length (fallback_from i jobs) = List.length jobs.
Proof. induction jobs; intros i; simpl; auto. Qed.

Lemma fallback_from_nth jobs : forall i n j,
  nth_error (fallback_from i jobs) n = Some j ->
  exists j0, nth_error jobs n = Some j0
    /\ j = dict_set (dict_set j0 (u "match_score")
                              (JInt (80 - (i + Z.of_nat n) * 2)))
                    (u "match_reason") (JStr FALLBACK_REASON).
Proof.
  induction jobs as [|j0 jobs IH]; intros i n j H.
  - destruct n; discriminate.
  - destruct n as [|n]; simpl in H.
    + injection H as <-. exists j0. split; [reflexivity|].
      now rewrite Z.add_0_r.
    + destruct (IH _ _ _ H) as (x & Hx & ->). exists x.
      split; [exact Hx|].
      replace (i + 1 + Z.of_nat n)%Z with (i + Z.of_nat (S n))%Z by lia.
      reflexivity.
Qed.

Lemma fallback_from_scores jobs : forall i,
  map score_of (fallback_from i jobs)
  = map (fun n => JInt (80 - (i + Z.of_nat n) * 2))
        (seq 0 (List.length jobs)).
Proof.
  induction jobs as [|j jobs IH]; intros i; [reflexivity|].
  cbn [fallback_from map List.length seq]. f_equal.
  - unfold score_of, get_or.
    rewrite dict_get_set_other by reflexivity.
    rewrite dict_get_set_same. now rewrite Z.add_0_r.
  - rewrite IH, <- seq_shift, map_map. apply map_ext.
    intros n.
    replace (i + 1 + Z.of_nat n)%Z with (i + Z.of_nat (S n))%Z by lia.
    reflexivity.
Qed.

End JobsFacts.
Import JobsFacts.

Section JobsTheorems.
Context {host : Host}.
Import JobsEngine.

(** The entries of the prompt can be built for jobs that have the
    fields read, and the user summary for skills that are strings. *)
Lemma prompt_shape_ok (portfolio : Portfolio) (jobs_to_score : list dict) :
  Forall JobsProps.prompt_job_ok jobs_to_score ->
  JobsProps.prompt_skills_ok portfolio ->
  scoring_prompt_check portfolio jobs_to_score = Ok tt.
Proof.
  intros J S. unfold scoring_prompt_check.
  assert (U : user_summary_check portfolio = Ok tt).
  { unfold user_summary_check. destruct S as [->|S]; [reflexivity|].
    destruct (truthy (skills portfolio)); [|reflexivity].
    destruct (skills portfolio); try contradiction; try reflexivity.
    now rewrite S. }
  rewrite U. cbn [bind].
  induction J as [|j js (T & C & d & D) _ IH]; [reflexivity|].
  cbn [job_entries_check]. unfold job_entry_check, getitem_key.
  destruct (dict_get j (u "title")); [|now elim T].
  destruct (dict_get j (u "company")); [|now elim C].
  rewrite D. cbn [bind py_slice_to]. exact IH.
Qed.

(** C6 (amended): for a non-empty list of fetched jobs of which the
    first fifteen each have a title, a company and a description that
    is a string, and a portfolio whose skills are empty or strings,
    when the scoring path does not return (the request raises, the
    answer is not a 200, or some later step such as parsing the scores
    raises), the function does not raise: it returns the first ten jobs
    at most, the one at position [i] with [match_score] [80 - 2 * i]
    and the generic [match_reason]. *)
Theorem scoring_failure_returns_fallback (answer : post_outcome)
    (jobs : list dict) (portfolio : Portfolio) :
  jobs <> [] ->
  Forall JobsProps.prompt_job_ok (firstn 15 jobs) ->
  JobsProps.prompt_skills_ok portfolio ->
  scoring_fails answer (firstn 15 jobs) ->
  _score_and_filter_jobs answer jobs portfolio
  = (Ok (fallback_jobs jobs), [EvScoring])
  /\ List.length (fallback_jobs jobs) = Nat.min 10 (List.length jobs)
  /\ (forall i j, nth_error (fallback_jobs jobs) i = Some j ->
      dict_get j (u "match_score") = Some (JInt (80 - 2 * Z.of_nat i))
      /\ dict_get j (u "match_reason") = Some (JStr FALLBACK_REASON)
      /\ exists j0, nth_error jobs i = Some j0
           /\ j = dict_set (dict_set j0 (u "match_score")
                                     (JInt (80 - 2 * Z.of_nat i)))
                           (u "match_reason") (JStr FALLBACK_REASON))
  /\ (List.length jobs = 20 ->
      map score_of (fallback_jobs jobs)
      = map JInt [80; 78; 76; 74; 72; 70; 68; 66; 64; 62]%Z).
Proof.
  intros Hne Hjobs Hskills Hfail.
  pose proof (prompt_shape_ok portfolio (firstn 15 jobs) Hjobs Hskills)
    as Hprompt.
  split; [|split; [|split]].
  - unfold _score_and_filter_jobs. destruct jobs as [|j jobs]; [now elim Hne|].
    rewrite Hprompt.
    destruct Hfail as [->|(e & ->)]; reflexivity.
  - unfold fallback_jobs. now rewrite fallback_from_length, length_firstn.
  - intros i j H. unfold fallback_jobs in H.
    destruct (fallback_from_nth _ _ _ _ H) as (j0 & H0 & E).
    replace ((0 + Z.of_nat i) * 2)%Z with (2 * Z.of_nat i)%Z in E by lia.
    subst j. split; [|split].
    + rewrite dict_get_set_other by reflexivity. apply dict_get_set_same.
    + apply dict_get_set_same.
    + exists j0. split; [|reflexivity].
      assert (i < 10).
      { assert (i < List.length (firstn 10 jobs))
          by (apply nth_error_Some; congruence).
        rewrite length_firstn in *. lia. }
      now rewrite nth_error_firstn in H0;
        destruct (Nat.ltb_spec i 10); [|lia].
  - intros L. unfold fallback_jobs. rewrite fallback_from_scores.
    rewrite length_firstn, L. reflexivity.
Qed.

(** The failures the specification names make the scoring path fail:
    a network error, an answer that is not a 200, a body or a content
    that is not JSON. *)
Lemma named_scoring_failures (jobs_to_score : list dict) :
  (forall e, scoring_fails (PostRaises e) jobs_to_score)
  /\ (forall status text, status <> 200%Z ->
      scoring_fails (PostReturns status text) jobs_to_score)
  /\ (forall text, json_loads text = None ->
      scoring_fails (PostReturns 200 text) jobs_to_score)
  /\ (forall text data choices choice message content,
      json_loads text = Some data ->
      getitem_key data (u "choices") = Ok choices ->
      getitem_0 choices = Ok choice ->
      getitem_key choice (u "message") = Ok message ->
      getitem_key message (u "content") = Ok (JStr content) ->
      json_loads (strip (remove_all (u "```") 0
                           (remove_all (u "```json") 0 content))) = None ->
      scoring_fails (PostReturns 200 text) jobs_to_score).
Proof.
  unfold scoring_fails. repeat split.
  - intros e. right. now exists e.
  - intros status text H. left. simpl. apply Z.eqb_neq in H. now rewrite H.
  - intros text H. right. exists JSONDecodeError. simpl. now rewrite H.
  - intros text data choices choice message content H1 H2 H3 H4 H5 H6.
    right. exists JSONDecodeError.
    simpl. rewrite H1. simpl. rewrite H2. simpl. rewrite H3. simpl.
    rewrite H4. simpl. rewrite H5. simpl. now rewrite H6.
Qed.

End JobsTheorems.

(** The theorem at twenty fetched jobs and a scoring request that raises. *)
Lemma scoring_failure_returns_fallback_witness :
  @JobsEngine._score_and_filter_jobs sample_host (PostRaises TransportError)
     (map sample_job (seq 0 20)) sample_portfolio
  = (Ok (JobsEngine.fallback_jobs (map sample_job (seq 0 20))),
     [JobsEngine.EvScoring])
  /\ List.length (JobsEngine.fallback_jobs (map sample_job (seq 0 20))) = 10
  /\ map JobsEngine.score_of
         (JobsEngine.fallback_jobs (map sample_job (seq 0 20)))
     = map JInt [80; 78; 76; 74; 72; 70; 68; 66; 64; 62]%Z.
Proof.
  destruct (@scoring_failure_returns_fallback sample_host
              (PostRaises TransportError) (map sample_job (seq 0 20))
              sample_portfolio) as (H1 & H2 & _ & H4).
  - discriminate.
  - repeat (apply Forall_cons;
            [split; [discriminate|split; [discriminate|eexists; reflexivity]]
            |]).
    apply Forall_nil.
  - right. reflexivity.
  - right. exists TransportError. reflexivity.
  - split; [exact H1|]. split; [exact H2|]. apply H4. reflexivity.
Defined.

(** C6 as stated fails: the prompt is built before the [try], from the
    title, the company and the first 200 characters of the description
    of each job.  For a fetched job whose description is [null] and a
    scoring request that raises, the function raises [TypeError]
    instead of returning the fallback. *)
Lemma null_description_raises_before_scoring :
  @JobsEngine.scoring_fails sample_host (PostRaises TransportError)
    (firstn 15 [JobsSamples.NULL_DESCRIPTION_JOB])
  /\ @JobsEngine._score_and_filter_jobs sample_host
       (PostRaises TransportError) [JobsSamples.NULL_DESCRIPTION_JOB]
       sample_portfolio
     = (Raise TypeError, []).
Proof.
  split; [right; exists TransportError|]; reflexivity.
Qed.

Module CacheFacts.
Import JobsEngine.

Lemma cache_find_removed c k : cache_find (cache_remove c k) k = None.
Proof.
  induction c as [|e c IH]; simpl; [reflexivity|].
  destruct (str_eqb (ce_key e) k) eqn:E; simpl; [exact IH|].
  now rewrite E.
Qed.

Lemma cache_find_app c1 c2 k :
  cache_find (c1 ++ c2) k
  = match cache_find c1 k with
    | Some e => Some e
    | None => cache_find c2 k
    end.
Proof.
  induction c1 as [|e c1 IH]; simpl; [reflexivity|].
  now destruct (str_eqb (ce_key e) k).
Qed.

(** The entry written or read last is found under its key. *)
Lemma cache_find_moved c e :
  cache_find (cache_remove c (ce_key e) ++ [e]) (ce_key e) = Some e.
Proof.
  rewrite cache_find_app, cache_find_removed. simpl.
  now rewrite str_eqb_refl.
Qed.

Lemma cache_find_key c k e : cache_find c k = Some e -> ce_key e = k.
Proof.
  induction c as [|x c IH]; simpl; [discriminate|].
  destruct (str_eqb (ce_key x) k) eqn:E; [|exact IH].
  intros [= <-]. now apply str_eqb_eq.
Qed.

Lemma cache_find_setitem c k v now :
  cache_find (cache_setitem c k v now) k
  = Some {| ce_key := k; ce_value := v; ce_expires := now + TTL |}.
Proof.
  unfold cache_setitem.
  match goal with
  | |- cache_find (cache_remove ?x k ++ [?e]) k = _ =>
      apply (cache_find_moved x e)
  end.
Qed.

End CacheFacts.
Import CacheFacts.

Section CacheTheorems.
Context {host : Host}.
Import JobsEngine.

(** A request whose key has a live entry is answered from the cache:
    no request to the listings API and none to the LLM. *)
Lemma cache_hit (jobs_cache : ttl_cache) (time : clock)
    (listings : str -> result (list dict)) (answer : post_outcome)
    (portfolio : Portfolio) (filters : JobFilter) (e : cache_entry) :
  cache_find jobs_cache (cache_key portfolio filters) = Some e ->
  (t_lookup time < ce_expires e)%Z -> (t_read time < ce_expires e)%Z ->
  get_recommended_jobs jobs_cache time listings answer portfolio filters
  = (Ok (ce_value e),
     cache_remove jobs_cache (cache_key portfolio filters) ++ [e], []).
Proof.
  intros F H1 H2. unfold get_recommended_jobs, cache_contains, cache_getitem.
  rewrite F. apply Z.ltb_lt in H1, H2. now rewrite H1, H2.
Qed.


End CacheTheorems.


(** * More properties of the code *)

(** X1: a text that [json.loads] accepts, whatever value it holds and
    whatever white space surrounds it, comes out of the repair cascade
    as that value: the fence substitutions leave valid JSON alone. *)
Theorem valid_json_is_returned (t : str) (v : json) :
  json_loads t = Some v -> _fix_json_string t = Ok v.
Proof.
  intros H. apply fix_of_unfenced.
  rewrite (unfenced_valid t v H). now apply loads_strip.
Qed.

(** The theorem at a list with a fenced-looking string, padded with
    blank lines. *)
Lemma valid_json_is_returned_witness :
  _fix_json_string ([LF] ++ js " [1, '```', {'a': null}] " ++ [LF])
  = Ok (JList [JInt 1; JStr (u "```"); JDict [(u "a", JNull)]]).
Proof. apply valid_json_is_returned. reflexivity. Defined.

Module ProseFacts.
Import RepairProps.

Lemma open_fence_no_backtick s : forall bol,
  no_char BACKTICK s -> sub_open_fence FCopy bol s = s.
Proof.
  induction s as [|c s IH]; intros bol H; [reflexivity|].
  inversion H; subst.
  rewrite open_fence_copy_cons by (now right). f_equal. auto.
Qed.

Lemma close_fence_no_backtick s :
  no_char BACKTICK s -> sub_close_fence 0 s = s.
Proof.
  induction s as [|c s IH]; intros H; [reflexivity|].
  inversion H as [|? ? Hc Hs]; subst.
  cbn [sub_close_fence].
  assert (close_fence_match (c :: s) = None) as ->.
  { unfold close_fence_match.
    destruct (N.eqb_spec c LF) as [->|_].
    - destruct s as [|x s]; [reflexivity|].
      inversion Hs as [|? ? Hx _]; subst. cbn -[N.eqb].
      destruct (N.eqb_spec 96 x) as [E|_]; [now elim Hx|reflexivity].
    - cbn -[N.eqb span skipn].
      destruct (N.eqb_spec 96 c) as [E|_]; [now elim Hc|reflexivity]. }
  f_equal. auto.
Qed.

Lemma lstrip_sub s c : In c (lstrip s) -> In c s.
Proof.
  destruct (lstrip_split s) as (w & E & _). intros H.
  rewrite E. apply in_or_app. now right.
Qed.

Lemma lstrip_app_nonspace a c z :
  isspace c = false -> lstrip (a ++ c :: z) = lstrip a ++ c :: z.
Proof.
  intros Hc. induction a as [|x a IH]; simpl.
  - now rewrite Hc.
  - destruct (isspace x); auto.
Qed.

Lemma rstrip_app_nonspace y c q :
  isspace c = false -> rstrip ((y ++ [c]) ++ q) = (y ++ [c]) ++ rstrip q.
Proof.
  intros Hc. unfold rstrip.
  assert (E : rev ((y ++ [c]) ++ q) = rev q ++ c :: rev y).
  { rewrite !rev_app_distr. reflexivity. }
  rewrite E, lstrip_app_nonspace by exact Hc.
  rewrite rev_app_distr. cbn [rev]. now rewrite rev_involutive.
Qed.

Lemma rstrip_sub s c : In c (rstrip s) -> In c s.
Proof.
  unfold rstrip. intros H. apply in_rev in H. apply lstrip_sub in H.
  now apply in_rev.
Qed.

Lemma no_char_sub (f : str -> str) c0 s :
  (forall c, In c (f s) -> In c s) -> no_char c0 s -> no_char c0 (f s).
Proof.
  unfold no_char. rewrite !Forall_forall. auto.
Qed.

Lemma from_first_skip c0 p s :
  no_char c0 p -> from_first c0 (p ++ c0 :: s) = c0 :: s.
Proof.
  induction 1 as [|c p Hc _ IH]; simpl.
  - now rewrite N.eqb_refl.
  - apply N.eqb_neq in Hc. now rewrite Hc.
Qed.

(** The search finds the block between the first opening and the last
    closing brace. *)
Lemma search_braces_block p b q :
  no_char LBRACE p -> no_char RBRACE q -> b <> [] ->
  re_search_braces (p ++ (LBRACE :: b ++ [RBRACE]) ++ q)
  = Some (LBRACE :: b ++ [RBRACE]).
Proof.
  intros Hp Hq Hb. unfold re_search_braces.
  cbn [app]. rewrite (from_first_skip LBRACE p _ Hp).
  assert (E : rev (LBRACE :: (b ++ [RBRACE]) ++ q)
              = rev q ++ RBRACE :: rev (LBRACE :: b)).
  { cbn [rev]. rewrite !rev_app_distr. cbn [rev app].
    now rewrite <- !app_assoc. }
  rewrite E, from_first_skip.
  - change (RBRACE :: rev (LBRACE :: b)) with (rev ((LBRACE :: b) ++ [RBRACE]))
      || idtac.
    assert (R : rev (RBRACE :: rev (LBRACE :: b)) = LBRACE :: b ++ [RBRACE]).
    { cbn [rev]. now rewrite rev_app_distr, rev_involutive. }
    rewrite R. cbn [List.length]. rewrite length_app. cbn [List.length].
    destruct b; [now elim Hb|]. cbn [List.length].
    destruct (3 <=? _) eqn:L; [reflexivity|].
    apply Nat.leb_gt in L. lia.
  - unfold no_char in *. rewrite Forall_forall in *.
    intros c Hc. apply Hq. now apply in_rev.
Qed.

End ProseFacts.
Import ProseFacts.

Section ProseTheorems.
Import RepairProps.

(** X2: a JSON object with at least one character between its braces,
    surrounded by prose that has no back-tick, no opening brace before
    the object and no closing brace after it, is recovered: when the
    whole text is not JSON itself, the result is the object. *)
Theorem object_in_prose_is_recovered (p b q : str) (v : json) :
  no_char BACKTICK (p ++ (LBRACE :: b ++ [RBRACE]) ++ q) ->
  no_char LBRACE p -> no_char RBRACE q -> b <> [] ->
  json_loads (LBRACE :: b ++ [RBRACE]) = Some v ->
  exists w,
    _fix_json_string (p ++ (LBRACE :: b ++ [RBRACE]) ++ q) = Ok w
    /\ (json_loads (strip (p ++ (LBRACE :: b ++ [RBRACE]) ++ q)) = None ->
        w = v).
Proof.
  intros Ht Hp Hq Hb Hv.
  set (m := LBRACE :: b ++ [RBRACE]) in *.
  assert (S : strip (p ++ m ++ q) = lstrip p ++ m ++ rstrip q).
  { unfold strip. unfold m at 1. cbn [app].
    rewrite lstrip_app_nonspace by reflexivity.
    change (LBRACE :: (b ++ [RBRACE]) ++ q) with (((LBRACE :: b) ++ [RBRACE]) ++ q).
    rewrite app_assoc.
    replace (lstrip p ++ ((LBRACE :: b) ++ [RBRACE]))
      with ((lstrip p ++ LBRACE :: b) ++ [RBRACE])
      by now rewrite <- app_assoc.
    rewrite rstrip_app_nonspace by reflexivity.
    unfold m. rewrite <- !app_assoc. cbn [app].
    now rewrite <- !app_assoc. }
  assert (Ts : no_char BACKTICK (strip (p ++ m ++ q))).
  { unfold strip. apply (no_char_sub rstrip); [apply rstrip_sub|].
    apply (no_char_sub lstrip); [apply lstrip_sub|]. exact Ht. }
  assert (U : unfenced (p ++ m ++ q) = strip (p ++ m ++ q)).
  { unfold unfenced, re_sub_open_fence, re_sub_close_fence.
    rewrite (open_fence_no_backtick _ true Ts).
    rewrite (close_fence_no_backtick _ Ts). apply strip_idem. }
  assert (B : re_search_braces (strip (p ++ m ++ q)) = Some m).
  { rewrite S. apply search_braces_block; [| |exact Hb].
    - apply (no_char_sub lstrip); [apply lstrip_sub|exact Hp].
    - apply (no_char_sub rstrip); [apply rstrip_sub|exact Hq]. }
  unfold _fix_json_string. fold (unfenced (p ++ m ++ q)). rewrite U.
  destruct (json_loads (strip (p ++ m ++ q))) as [w|] eqn:L.
  - exists w. split; [reflexivity|discriminate].
  - rewrite B, Hv. exists v. now split.
Qed.

End ProseTheorems.

(** The theorem at an object between two sentences. *)
Lemma object_in_prose_is_recovered_witness :
  _fix_json_string
    (u "Here is the data: " ++ js "{'name': 'Ada'}" ++ u " Hope it helps.")
  = Ok (JDict [(u "name", JStr (u "Ada"))]).
Proof.
  destruct (object_in_prose_is_recovered (u "Here is the data: ")
              (js "'name': 'Ada'") (u " Hope it helps.")
              (JDict [(u "name", JStr (u "Ada"))])) as (w & E & W).
  - repeat constructor; discriminate.
  - repeat constructor; discriminate.
  - repeat constructor; discriminate.
  - discriminate.
  - reflexivity.
  - rewrite <- (W eq_refl). exact E.
Defined.

Module SuccessFacts.
Section WithHost.
Context {host : Host}.
Variables (client : http_client) (api_key prompt username : str).

(** A run of the loop that returns a value: some model of the list gave
    it, and every model before it failed with an error the handlers
    catch. *)
Lemma ok_origin total models : forall n last d,
  fst (try_models client api_key prompt username total n models last) = Ok d ->
  exists i m,
    nth_error models i = Some m
    /\ attempt client (n + i) m api_key prompt username = Ok d
    /\ posts (snd (try_models client api_key prompt username total n models
                              last))
       = firstn (S i) models
    /\ forall j x, j < i -> nth_error models j = Some x ->
         exists e, attempt client (n + j) x api_key prompt username = Raise e
                   /\ recoverable e = true.
Proof.
  induction models as [|m models IH]; intros n last d H.
  - discriminate.
  - destruct (attempt client n m api_key prompt username) as [r|e] eqn:E.
    + rewrite (try_models_ok client api_key prompt username total n m models
                             last r E) in *.
      simpl in H. injection H as <-.
      exists 0, m. rewrite Nat.add_0_r. repeat split; auto.
      intros j x Hj. lia.
    + destruct (recoverable e) eqn:R.
      * destruct (try_models_next client api_key prompt username total n m
                                  models last e E R) as (F & P).
        rewrite F in H. rewrite P.
        destruct (IH (S n) (Some e) d H) as (i & x & Hx & A & Q & B).
        exists (S i), x. rewrite Nat.add_succ_r. repeat split; auto.
        -- now rewrite Q.
        -- intros j y Hj Hy. destruct j as [|j].
           ++ simpl in Hy. injection Hy as <-. rewrite Nat.add_0_r.
              now exists e.
           ++ rewrite Nat.add_succ_r. apply B; [lia|exact Hy].
      * rewrite (try_models_escape client api_key prompt username total n m
                                   models last e E R) in H.
        discriminate.
Qed.

(** What an attempt that returns went through. *)
Lemma attempt_ok_inv n m d :
  attempt client n m api_key prompt username = Ok d ->
  exists s parsed,
    _call_llm client n m api_key prompt = Ok (JStr s)
    /\ _fix_json_string s = Ok (JDict parsed)
    /\ d = normalise_dict parsed username.
Proof.
  unfold attempt. intros H.
  destruct (_call_llm client n m api_key prompt) as [c|e]; [|discriminate].
  simpl in H. destruct c as [| | | |s| |]; try discriminate.
  destruct (_fix_json_string s) as [v|e] eqn:F; [|discriminate].
  simpl in H. destruct v as [| | | | | |parsed]; try discriminate.
  simpl in H. injection H as <-. now exists s, parsed.
Qed.

(** The first event of a run over a non-empty list is the request to
    its first model. *)
Lemma first_event total n m rest last :
  hd_error (snd (try_models client api_key prompt username total n (m :: rest)
                            last))
  = Some (EvPost m).
Proof.
  simpl. destruct (attempt client n m api_key prompt username) as [r|e];
    [reflexivity|].
  destruct (is_http_or_timeout e).
  - now destruct (try_models _ _ _ _ _ _ _ _).
  - destruct (is_value_or_key e); [|reflexivity].
    now destruct (try_models _ _ _ _ _ _ _ _).
Qed.

End WithHost.

(** A value the orchestrator returns is a normalised dict. *)
Lemma generated_is_normalised {host : Host} client resume_text api_key model
    username d tr :
  generate_portfolio_data client resume_text api_key model username
  = (Ok d, tr) ->
  exists parsed, d = normalise_dict parsed username.
Proof.
  unfold generate_portfolio_data. intros H.
  pose proof (ok_origin client api_key
                (PORTFOLIO_EXTRACTION_PROMPT ++ resume_text) username
                (List.length (models_to_try (preferred_model model)))
                (models_to_try (preferred_model model)) 0 None d) as O.
  rewrite H in O. destruct (O eq_refl) as (i & m & _ & A & _).
  destruct (attempt_ok_inv client api_key _ username _ _ _ A)
    as (s & parsed & _ & _ & ->).
  now exists parsed.
Qed.

Lemma keys_set_new (d : dict) (k : str) (v : json) :
  dict_get d k = None -> dict_set d k v = d ++ [(k, v)].
Proof.
  induction d as [|[k' v'] d IH]; simpl; [reflexivity|].
  destruct (str_eqb k' k); [discriminate|].
  intros H. now rewrite IH.
Qed.

Lemma dict_get_not_key (d : dict) (k : str) :
  ~ In k (dict_keys d) -> dict_get d k = None.
Proof.
  induction d as [|[k' v'] d IH]; simpl; [reflexivity|].
  intros H. destruct (str_eqb k' k) eqn:E.
  - apply str_eqb_eq in E. tauto.
  - apply IH. tauto.
Qed.

Lemma dict_get_app_left (d d' : dict) (k : str) (v : json) :
  dict_get d k = Some v -> dict_get (d ++ d') k = Some v.
Proof.
  induction d as [|[k' v'] d IH]; simpl; [discriminate|].
  destruct (str_eqb k' k); auto.
Qed.

Lemma nonblank_strip (s : str) :
  forallb isspace s = false -> strip s <> [].
Proof.
  intros H.
  assert (L : lstrip s <> []).
  { induction s as [|c s IH]; [discriminate|].
    simpl in *. destruct (isspace c); [now apply IH|discriminate]. }
  destruct (lstrip_split s) as (w & E & W).
  destruct (lstrip s) as [|c x] eqn:Ls; [now elim L|].
  assert (Hc : isspace c = false).
  { clear -Ls. induction s as [|a s IH]; [discriminate|].
    simpl in Ls. destruct (isspace a) eqn:A; [now apply IH|].
    injection Ls as -> _. exact A. }
  unfold strip, rstrip. rewrite Ls. cbn [rev].
  rewrite lstrip_app_nonspace by exact Hc.
  rewrite rev_app_distr. discriminate.
Qed.

End SuccessFacts.
Import SuccessFacts.

Section SuccessTheorems.
Context {host : Host}.

(** X3: whenever the orchestrator returns a value, it is the
    normalisation of a JSON object that one of the candidate models
    answered with, every candidate before it was asked once and failed
    with an error the handlers catch, and no candidate after it was
    asked; so the value has exactly the ten required keys. *)
Theorem returned_portfolio_is_normalised
    (client : http_client) (resume_text api_key : str) (model : option str)
    (username : str) (d : dict) (tr : list event) :
  generate_portfolio_data client resume_text api_key model username
  = (Ok d, tr) ->
  dict_keys d = REQUIRED_KEYS
  /\ exists i m s parsed,
       nth_error (models_to_try (preferred_model model)) i = Some m
       /\ _call_llm client i m api_key
                    (PORTFOLIO_EXTRACTION_PROMPT ++ resume_text)
          = Ok (JStr s)
       /\ _fix_json_string s = Ok (JDict parsed)
       /\ d = normalise_dict parsed username
       /\ posts tr = firstn (S i) (models_to_try (preferred_model model))
       /\ forall j x, j < i ->
            nth_error (models_to_try (preferred_model model)) j = Some x ->
            exists e,
              attempt client j x api_key
                      (PORTFOLIO_EXTRACTION_PROMPT ++ resume_text) username
              = Raise e
              /\ recoverable e = true.
Proof.
  unfold generate_portfolio_data. intros H.
  pose proof (ok_origin client api_key
                (PORTFOLIO_EXTRACTION_PROMPT ++ resume_text) username
                (List.length (models_to_try (preferred_model model)))
                (models_to_try (preferred_model model)) 0 None d) as O.
  rewrite H in O. destruct (O eq_refl) as (i & m & Hm & A & P & B).
  destruct (attempt_ok_inv client api_key _ username _ _ _ A)
    as (s & parsed & C & F & ->).
  split; [reflexivity|].
  exists i, m, s, parsed. repeat split; auto.
Qed.

(** X4: a resume that [process_resume] returns is the generated
    portfolio with two additions: the ten normalised keys keep their
    values and order, [_raw_text] holds the whole extracted text, which
    is not blank, and [profile_image_url] is present exactly when a
    non-empty image URL was extracted.  The requests made are those of
    the generation. *)
Theorem processed_resume_extends_portfolio
    (client : http_client) (pdf_pages : pdf) (api_key : str)
    (model : option str) (username : str) (profile_image_url : option str)
    (p : dict) (tr : list event) :
  process_resume client pdf_pages api_key model username profile_image_url
  = (Ok p, tr) ->
  let text := extract_text_from_pdf pdf_pages in
  strip text <> []
  /\ exists d,
       generate_portfolio_data client text api_key model username = (Ok d, tr)
       /\ dict_keys p
          = REQUIRED_KEYS ++ [u "_raw_text"]
            ++ match profile_image_url with
               | Some (_ :: _) => [u "profile_image_url"]
               | _ => []
               end
       /\ (forall k, In k REQUIRED_KEYS -> dict_get p k = dict_get d k)
       /\ dict_get p (u "_raw_text") = Some (JStr text)
       /\ dict_get p (u "profile_image_url")
          = match profile_image_url with
            | Some ((_ :: _) as url) => Some (JStr url)
            | _ => None
            end.
Proof.
  intros H text. unfold process_resume in H. fold text in H.
  destruct (strip text) as [|c0 s0] eqn:S; [discriminate|].
  split; [discriminate|].
  destruct (generate_portfolio_data client text api_key model username)
    as [r tr'] eqn:G.
  destruct r as [d|e]; [|discriminate].
  injection H as <- <-. exists d. split; [reflexivity|].
  destruct (generated_is_normalised client text api_key model username d tr'
                                    G) as (parsed & ->).
  set (d := normalise_dict parsed username).
  assert (R : dict_set d (u "_raw_text") (JStr text)
              = d ++ [(u "_raw_text", JStr text)]) by reflexivity.
  rewrite R.
  assert (V : forall k, In k REQUIRED_KEYS ->
              exists v, dict_get d k = Some v).
  { intros k Hk. simpl in Hk.
    repeat (destruct Hk as [<-|Hk]; [eexists; reflexivity|]).
    contradiction. }
  destruct profile_image_url as [[|c url]|].
  - repeat split; try reflexivity.
    intros k Hk. destruct (V k Hk) as (v & E). rewrite E.
    now apply dict_get_app_left.
  - assert (I : forall v,
                dict_set (d ++ [(u "_raw_text", JStr text)])
                         (u "profile_image_url") v
                = d ++ [(u "_raw_text", JStr text);
                        (u "profile_image_url", v)])
      by reflexivity.
    rewrite I. repeat split; try reflexivity.
    intros k Hk. destruct (V k Hk) as (v & E). rewrite E.
    now apply dict_get_app_left.
  - repeat split; try reflexivity.
    intros k Hk. destruct (V k Hk) as (v & E). rewrite E.
    now apply dict_get_app_left.
Qed.

(** X5: when some page of the PDF has a character that is not white
    space, the run starts with a request to the preferred model, and
    whatever the models answer, [process_resume] raises none of the
    errors the fallback loop handles: no [ValueError] (a
    [JSONDecodeError] included), no [KeyError], no [HTTPStatusError]
    and no [TimeoutException].  What it raises is the terminal
    [RuntimeError] after the last candidate, or an error that an
    attempt raised and no handler of the loop catches. *)
Theorem readable_pdf_reaches_the_model
    (client : http_client) (pdf_pages : pdf) (api_key : str)
    (model : option str) (username : str) (profile_image_url : option str) :
  forallb isspace (extract_text_from_pdf pdf_pages) = false ->
  hd_error (snd (process_resume client pdf_pages api_key model username
                                profile_image_url))
  = Some (EvPost (preferred_model model))
  /\ forall e,
       fst (process_resume client pdf_pages api_key model username
                           profile_image_url)
       = Raise e ->
       is_value_or_key e = false /\ is_http_or_timeout e = false
       /\ ((exists last,
              e = RuntimeError (List.length (models_to_try
                                               (preferred_model model)))
                               last)
           \/ exists i m,
                nth_error (models_to_try (preferred_model model)) i = Some m
                /\ attempt client i m api_key
                     (PORTFOLIO_EXTRACTION_PROMPT
                      ++ extract_text_from_pdf pdf_pages) username
                   = Raise e).
Proof.
  intros H. apply nonblank_strip in H. unfold process_resume.
  destruct (strip (extract_text_from_pdf pdf_pages)) as [|c0 s0];
    [now elim H|].
  pose proof (first_event client api_key
                (PORTFOLIO_EXTRACTION_PROMPT ++ extract_text_from_pdf pdf_pages)
                username
                (List.length (models_to_try (preferred_model model))) 0
                (preferred_model model)
                (filter (fun m => negb (str_eqb m (preferred_model model)))
                        FALLBACK_MODELS) None) as F.
  pose proof (raised_origin client api_key
                (PORTFOLIO_EXTRACTION_PROMPT ++ extract_text_from_pdf pdf_pages)
                username
                (List.length (models_to_try (preferred_model model)))
                (models_to_try (preferred_model model)) 0 None) as O.
  unfold generate_portfolio_data.
  fold (models_to_try (preferred_model model)) in F.
  destruct (try_models client api_key
              (PORTFOLIO_EXTRACTION_PROMPT ++ extract_text_from_pdf pdf_pages)
              username (List.length (models_to_try (preferred_model model)))
              0 (models_to_try (preferred_model model)) None) as [r tr] eqn:T.
  try rewrite T in O.
  cbn [fst snd] in F, O. destruct r as [d|e]; cbn [fst snd];
    (split; [exact F|]).
  - discriminate.
  - intros e' E. injection E as <-.
    assert (E : fst (try_models client api_key
                       (PORTFOLIO_EXTRACTION_PROMPT
                        ++ extract_text_from_pdf pdf_pages)
                       username
                       (List.length (models_to_try (preferred_model model)))
                       0 (models_to_try (preferred_model model)) None)
                = Raise e) by now rewrite T.
    destruct (O e E) as [(last & ->)|(R & i & m & Hm & A)].
    + split; [reflexivity|]. split; [reflexivity|]. left. now exists last.
    + unfold recoverable in R. apply orb_false_iff in R as [R1 R2].
      split; [exact R2|]. split; [exact R1|]. right. now exists i, m.
Qed.

End SuccessTheorems.

(** The theorem at a run whose first answer is rate limited and whose
    second is an object. *)
Lemma returned_portfolio_is_normalised_witness :
  dict_keys (@normalise_dict sample_host [(u "name", JStr (u "Ada"))]
                             (u "ada"))
  = REQUIRED_KEYS.
Proof.
  apply (@returned_portfolio_is_normalised sample_host
           (rate_limited_until 1 OBJECT_ANSWER) [] [] None (u "ada")
           (@normalise_dict sample_host [(u "name", JStr (u "Ada"))]
                            (u "ada"))
           [EvPost (u "google/gemma-3-12b-it:free"); EvSleep 1;
            EvPost (u "google/gemma-3-4b-it:free")]).
  vm_compute. reflexivity.
Defined.

(** The theorem at a one-page PDF with an extracted image. *)
Lemma processed_resume_extends_portfolio_witness :
  let p :=
    dict_set
      (dict_set (@normalise_dict sample_host [(u "name", JStr (u "Ada"))]
                                 (u "ada"))
                (u "_raw_text") (JStr (u "Ada Lovelace")))
      (u "profile_image_url") (JStr (u "/uploads/a.png")) in
  dict_get p (u "_raw_text") = Some (JStr (u "Ada Lovelace"))
  /\ dict_get p (u "profile_image_url") = Some (JStr (u "/uploads/a.png")).
Proof.
  intros p.
  destruct (@processed_resume_extends_portfolio sample_host
              (rate_limited_until 0 OBJECT_ANSWER) [u "Ada Lovelace"] [] None
              (u "ada") (Some (u "/uploads/a.png")) p
              [EvPost (u "google/gemma-3-12b-it:free")])
    as (_ & d & _ & _ & _ & R & I).
  - unfold p. vm_compute. reflexivity.
  - split; [exact R|exact I].
Defined.

(** The theorem at a PDF whose second page has text and at models
    that answer 200 with a body that is not JSON: every attempt raises
    [JSONDecodeError], and the run does not. *)
Lemma readable_pdf_reaches_the_model_witness :
  hd_error (snd (@process_resume sample_host
                   (fun _ _ => PostReturns 200 (u "oops"))
                   [u " "; u "Ada"] [] None [] None))
  = Some (EvPost (u "google/gemma-3-12b-it:free"))
  /\ @attempt sample_host (fun _ _ => PostReturns 200 (u "oops")) 0
       (u "google/gemma-3-12b-it:free") []
       (@PORTFOLIO_EXTRACTION_PROMPT sample_host ++ u "Ada") []
     = Raise JSONDecodeError
  /\ fst (@process_resume sample_host
            (fun _ _ => PostReturns 200 (u "oops"))
            [u " "; u "Ada"] [] None [] None)
     = Raise (RuntimeError 7 (Some JSONDecodeError))
  /\ is_value_or_key (RuntimeError 7 (Some JSONDecodeError)) = false.
Proof.
  destruct (@readable_pdf_reaches_the_model sample_host
              (fun _ _ => PostReturns 200 (u "oops")) [u " "; u "Ada"] []
              None [] None eq_refl) as (F & R).
  split; [exact F|]. split; [reflexivity|]. split; [reflexivity|].
  exact (proj1 (R (RuntimeError 7 (Some JSONDecodeError)) eq_refl)).
Defined.

Module AtsFacts.
Import Ats.
Section WithHost.
Context {host : Host}.
Variables (client : http_client) (api_key prompt : str).




End WithHost.
End AtsFacts.
Import AtsFacts.

Section AtsTheorems.
Import Ats.
Context {host : Host}.
Variable ATS_RESUME_PROMPT : str.


End AtsTheorems.


Module ImageFacts.
Import ProfileImage.

(** The loop returns only when every image could be extracted. *)
Lemma largest_image_all_ok p : forall cur max r,
  largest_image p cur max = Ok r -> exists l, p = map Ok l.
Proof.
  induction p as [|img p IH]; intros cur max r H.
  - now exists [].
  - simpl in H. destruct img as [b|e]; [|discriminate]. simpl in H.
    destruct (max <? area b)%Z; apply IH in H as (l & ->);
      now exists (b :: l).
Qed.

Lemma largest_image_keeps l : forall cur max,
  (forall x, In x l -> (area x <= max)%Z) ->
  largest_image (map Ok l) cur max = Ok cur.
Proof.
  induction l as [|x l IH]; intros cur max H; [reflexivity|].
  simpl. assert (A : (area x <= max)%Z) by (apply H; now left).
  apply Z.ltb_ge in A. rewrite A. apply IH. intros y Hy. apply H. now right.
Qed.

Lemma largest_image_picks pre : forall b post cur max,
  (max < area b)%Z ->
  (forall x, In x pre -> (area x < area b)%Z) ->
  (forall x, In x post -> (area x <= area b)%Z) ->
  largest_image (map Ok (pre ++ b :: post)) cur max = Ok (Some b).
Proof.
  induction pre as [|x pre IH]; intros b post cur max M P Q.
  - simpl. apply Z.ltb_lt in M. rewrite M. now apply largest_image_keeps.
  - simpl. destruct (max <? area x)%Z.
    + apply IH; auto. apply P. now left. intros y Hy. apply P. now right.
    + apply IH; auto. intros y Hy. apply P. now right.
Qed.

Lemma largest_image_found l : forall cur max r,
  largest_image (map Ok l) cur max = Ok r ->
  (r = cur /\ forall x, In x l -> (area x <= max)%Z)
  \/ exists pre b post,
       l = pre ++ b :: post /\ r = Some b /\ (max < area b)%Z
       /\ (forall x, In x pre -> (area x < area b)%Z)
       /\ (forall x, In x post -> (area x <= area b)%Z).
Proof.
  induction l as [|x l IH]; intros cur max r H.
  - left. simpl in H. injection H as <-. now split.
  - simpl in H. destruct (max <? area x)%Z eqn:M.
    + apply Z.ltb_lt in M. right.
      destruct (IH _ _ _ H) as [(-> & A)|(pre & b & post & -> & -> & B & P & Q)].
      * exists [], x, l. repeat split; auto. intros y [].
      * exists (x :: pre), b, post. repeat split; auto; [lia|].
        intros y [<-|Hy]; [exact B|now apply P].
    + apply Z.ltb_ge in M.
      destruct (IH _ _ _ H) as [(-> & A)|(pre & b & post & -> & -> & B & P & Q)].
      * left. split; [reflexivity|]. intros y [<-|Hy]; auto.
      * right. exists (x :: pre), b, post. repeat split; auto.
        intros y [<-|Hy]; [lia|now apply P].
Qed.

End ImageFacts.
Import ImageFacts.

Section ImageTheorems.
Import ProfileImage.

(** X7: the extraction returns a URL exactly when the PDF opens, every
    image listed on its first page can be extracted, one of them has a
    positive area and the file can be written.  The image saved is then
    the first one of the largest area: [b] below, with strictly smaller
    images before it and none larger after it; the URL is
    [/uploads/{username}_profile_{hex8}.{ext}] and the file holds the
    bytes of that image. *)
Theorem profile_image_is_first_largest
    (doc : result (list page)) (username hex8 : str) (write_ok : bool)
    (url : str) :
  fst (extract_profile_image_from_pdf doc username hex8 write_ok) = Some url
  <-> exists pre b post rest,
        doc = Ok (map Ok (pre ++ b :: post) :: rest)
        /\ write_ok = true
        /\ (0 < area b)%Z
        /\ (forall x, In x pre -> (area x < area b)%Z)
        /\ (forall x, In x post -> (area x <= area b)%Z)
        /\ url = u "/uploads/" ++ username ++ u "_profile_" ++ hex8
                 ++ u "." ++ ext b
        /\ snd (extract_profile_image_from_pdf doc username hex8 write_ok)
           = Some {| sf_name := username ++ u "_profile_" ++ hex8 ++ u "."
                                ++ ext b;
                     sf_bytes := image b |}.
Proof.
  split.
  - unfold extract_profile_image_from_pdf.
    destruct doc as [[|p rest]|e]; try discriminate.
    destruct p as [|img p'] eqn:Hp; [discriminate|]. rewrite <- Hp.
    destruct (largest_image p None 0) as [[b|]|e] eqn:L; try discriminate.
    destruct write_ok; [|discriminate].
    intros H. injection H as <-.
    destruct (largest_image_all_ok p None 0 _ L) as (l & El).
    rewrite El in L.
    destruct (largest_image_found l None 0 _ L)
      as [(C & _)|(pre & b' & post & -> & [= ->] & B & P & Q)];
      [discriminate|].
    exists pre, b', post, rest. rewrite El. now repeat split.
  - intros (pre & b & post & rest & -> & -> & B & P & Q & -> & _).
    unfold extract_profile_image_from_pdf.
    rewrite (largest_image_picks pre b post None 0 B P Q).
    destruct pre; reflexivity.
Qed.

End ImageTheorems.

(** The theorem at a page with a logo and two photos of the same area:
    the first photo is saved. *)
Lemma profile_image_is_first_largest_witness :
  fst (ProfileImage.extract_profile_image_from_pdf
         (Ok [[Ok ImageSamples.logo; Ok ImageSamples.photo;
               Ok ImageSamples.scan]])
         (u "ada") (u "0a1b2c3d") true)
  = Some (u "/uploads/ada_profile_0a1b2c3d.jpeg").
Proof.
  apply (proj2 (profile_image_is_first_largest _ _ _ _ _)).
  exists [ImageSamples.logo], ImageSamples.photo, [ImageSamples.scan], [].
  split; [reflexivity|]. split; [reflexivity|].
  split; [reflexivity|]. split.
  - intros x [<-|[]]. reflexivity.
  - split.
    + intros x [<-|[]]. discriminate.
    + split; reflexivity.
Defined.

Module UploadFacts.
Section WithHost.
Context {host : Host}.

Lemma coerce_str_is_str default v :
  is_str default = true -> is_str (coerce default v) = true.
Proof.
  intros H. rewrite coerce_str by exact H.
  destruct (is_str v) eqn:V; [exact V|].
  destruct (truthy v); [reflexivity|exact H].
Qed.

Lemma coerce_list_is_list default v :
  is_list default = true -> is_list (coerce default v) = true.
Proof.
  intros H. rewrite coerce_list by exact H.
  destruct (is_list v) eqn:V; [exact V|exact H].
Qed.

Lemma coerce_dict_is_dict default v :
  is_dict default = true -> is_dict (coerce default v) = true.
Proof.
  intros H. rewrite coerce_dict by exact H.
  destruct (is_dict v) eqn:V; [exact V|exact H].
Qed.

End WithHost.
End UploadFacts.
Import UploadFacts.

Section UploadTheorems.
Import Upload.
Context {host : Host}.

(** X8: whatever the PDF holds and whatever the models answer, the
    upload handler builds a row whose four text columns hold strings,
    whose five list columns hold lists and whose contact column holds a
    mapping.  When [process_resume] returned, the stored resume text is
    the text extracted from the PDF and the image URL is the one
    extracted, if it is not empty; when it raised, the row is the one
    of the fallback data and has no image URL. *)
Theorem upload_row_is_well_typed
    (client : http_client) (pdf_pages : pdf) (api_key username : str)
    (profile_image_url : option str) :
  let processed :=
    fst (process_resume client pdf_pages api_key None username
                        profile_image_url) in
  let row :=
    fst (upload_resume client pdf_pages api_key username profile_image_url) in
  well_typed row
  /\ row_slug row = username
  /\ match processed with
     | Ok _ =>
         row_resume_text row = JStr (extract_text_from_pdf pdf_pages)
         /\ row_profile_image_url row
            = match profile_image_url with
              | Some ((_ :: _) as url) => Some (JStr url)
              | _ => None
              end
     | Raise _ =>
         row = portfolio_of (fallback_data username) username
         /\ row_resume_text row
            = JStr (u "Fallback portfolio created due to processing error")
         /\ row_profile_image_url row = None
     end.
Proof.
  intros processed row. subst processed row. unfold upload_resume.
  destruct (process_resume client pdf_pages api_key None username
                           profile_image_url) as [r tr] eqn:E.
  cbn [fst]. destruct r as [p|e].
  - unfold process_resume in E.
    destruct (strip (extract_text_from_pdf pdf_pages)); [discriminate|].
    destruct (generate_portfolio_data client (extract_text_from_pdf pdf_pages)
                api_key None username) as [r' tr'] eqn:G.
    destruct r' as [d|e]; [|discriminate].
    destruct (generated_is_normalised client _ api_key None username d tr' G)
      as (parsed & ->).
    injection E as <- <-.
    assert (T : forall v, well_typed
                (portfolio_of (normalise_dict parsed username ++ v) username)).
    { intros v. unfold well_typed. cbn -[coerce].
      repeat split;
        first [apply coerce_str_is_str | apply coerce_list_is_list
              | apply coerce_dict_is_dict]; reflexivity. }
    destruct profile_image_url as [[|c1 url]|].
    + split; [apply (T [(u "_raw_text", JStr _)])|]. now repeat split.
    + split; [apply (T [(u "_raw_text", JStr _);
                        (u "profile_image_url", JStr _)])|].
      now repeat split.
    + split; [apply (T [(u "_raw_text", JStr _)])|]. now repeat split.
  - cbn. unfold well_typed. cbn. now repeat split.
Qed.

End UploadTheorems.

Module RankingFacts.
Import JobsEngine JobsProps.
Section WithHost.
Context {host : Host}.

Lemma job_at_in jobs idx j : job_at jobs idx = Ok j -> In j jobs.
Proof.
  unfold job_at. destruct (as_int idx); [|discriminate].
  destruct (nth_error jobs (Z.to_nat z)) eqn:E; [|discriminate].
  intros [= <-]. eapply nth_error_In, E.
Qed.

(** The merge keeps what was collected and adds exactly the jobs
    written for the entries whose score passes the threshold test. *)
Lemma merge_scores_spec jobs scores : forall acc out,
  merge_scores jobs scores acc = Ok out ->
  exists added,
    out = acc ++ added
    /\ List.length added <= List.length scores
    /\ (forall j, In j added ->
         ge_int (score_of j) 40 = Ok true /\ scored_from jobs scores j)
    /\ (forall sd j, In (JDict sd) scores -> entry_job jobs sd j ->
         ge_int (score_of j) 40 = Ok true -> In j added).
Proof.
  induction scores as [|s scores IH]; intros acc out H.
  - simpl in H. injection H as <-. exists []. rewrite app_nil_r.
    split; [reflexivity|]. split; [simpl; lia|].
    split; [intros j []|intros sd j []].
  - cbn [merge_scores] in H. destruct s as [| | | | | |sd0]; try discriminate.
    destruct (index_in_range (get_or sd0 (u "index") JNull)
                             (List.length jobs)) as [[|]|e] eqn:R;
      try discriminate; cbn [bind] in H.
    + destruct (job_at jobs (get_or sd0 (u "index") JNull)) as [j0|e] eqn:J;
        [|discriminate].
      cbn [bind] in H.
      match type of H with
      | bind (ge_int (score_of ?x) 40) _ = _ => set (job := x) in *
      end.
      assert (Ej : entry_job jobs sd0 job) by (exists j0; now repeat split).
      assert (Uq : forall j, entry_job jobs sd0 j -> j = job).
      { intros j (j1 & _ & J1 & ->). rewrite J in J1.
        now injection J1 as <-. }
      destruct (ge_int (score_of job) 40) as [[|]|e] eqn:G;
        try discriminate; cbn [bind] in H.
      * destruct (IH _ _ H) as (added & -> & L & A & C).
        exists (job :: added). rewrite <- app_assoc.
        split; [reflexivity|]. split; [simpl; lia|]. split.
        -- intros j [<-|Hj].
           ++ split; [exact G|]. exists sd0. split; [now left|exact Ej].
           ++ destruct (A j Hj) as (Gj & sd & Hsd & Esd).
              split; [exact Gj|]. exists sd. split; [now right|exact Esd].
        -- intros sd j [E|Hsd] Esd Gj.
           ++ injection E as <-. left. symmetry. now apply Uq.
           ++ right. now apply (C sd).
      * destruct (IH _ _ H) as (added & -> & L & A & C).
        exists added. split; [reflexivity|]. split; [simpl; lia|]. split.
        -- intros j Hj. destruct (A j Hj) as (Gj & sd & Hsd & Esd).
           split; [exact Gj|]. exists sd. split; [now right|exact Esd].
        -- intros sd j [E|Hsd] Esd Gj.
           ++ injection E as <-. rewrite (Uq j Esd), G in Gj. discriminate.
           ++ now apply (C sd).
    + destruct (IH _ _ H) as (added & -> & L & A & C).
      exists added. split; [reflexivity|]. split; [simpl; lia|]. split.
      * intros j Hj. destruct (A j Hj) as (Gj & sd & Hsd & Esd).
        split; [exact Gj|]. exists sd. split; [now right|exact Esd].
      * intros sd j [E|Hsd] Esd Gj.
        -- injection E as <-. destruct Esd as (j1 & R1 & _).
           rewrite R in R1. discriminate.
        -- now apply (C sd).
Qed.

Lemma insert_desc_perm job sorted :
  Permutation (job :: sorted) (insert_desc job sorted).
Proof.
  induction sorted as [|j rest IH]; simpl; [reflexivity|].
  destruct (score_lt (score_of j) (score_of job)); [reflexivity|].
  rewrite perm_swap. now constructor.
Qed.

Lemma fold_insert_perm jobs : forall sorted,
  Permutation (sorted ++ jobs)
    (fold_left (fun sorted job => insert_desc job sorted) jobs sorted).
Proof.
  induction jobs as [|j jobs IH]; intros sorted; simpl.
  - now rewrite app_nil_r.
  - rewrite <- IH. rewrite <- insert_desc_perm.
    symmetry. apply Permutation_middle.
Qed.

(** The sort returns the jobs it was given. *)
Lemma sort_desc_perm jobs : Permutation jobs (sort_desc jobs).
Proof. apply (fold_insert_perm jobs []). Qed.

Lemma score_lt_int a b x y :
  as_int (score_of a) = Some x -> as_int (score_of b) = Some y ->
  score_lt (score_of a) (score_of b) = (x <? y)%Z.
Proof.
  intros A B. unfold score_lt.
  destruct (score_of a); try discriminate;
    destruct (score_of b); try discriminate; now rewrite ?A, ?B.
Qed.

Lemma insert_desc_sorted job sorted :
  int_scored job -> Forall int_scored sorted ->
  StronglySorted score_ge sorted ->
  StronglySorted score_ge (insert_desc job sorted).
Proof.
  intros (z & Z) F S. induction S as [|j rest S IH R]; simpl.
  - repeat constructor.
  - inversion F as [|? ? (y & Y) F']; subst.
    rewrite (score_lt_int j job y z Y Z).
    destruct (y <? z)%Z eqn:L.
    + apply Z.ltb_lt in L. constructor; [now constructor|].
      constructor.
      * unfold score_ge. rewrite Z, Y. lia.
      * rewrite Forall_forall in *. intros k Hk.
        pose proof (R k Hk) as Rk. pose proof (F' k Hk) as (w & W).
        unfold score_ge in *. rewrite Y, W in Rk. rewrite Z, W. lia.
    + apply Z.ltb_ge in L. constructor; [now apply IH|].
      rewrite Forall_forall in *. intros k Hk.
      apply (Permutation_in _ (Permutation_sym (insert_desc_perm job rest)))
        in Hk.
      destruct Hk as [<-|Hk]; [|now apply R].
      unfold score_ge. now rewrite Y, Z.
Qed.

Lemma fold_insert_sorted jobs : forall sorted,
  Forall int_scored jobs -> Forall int_scored sorted ->
  StronglySorted score_ge sorted ->
  StronglySorted score_ge
    (fold_left (fun sorted job => insert_desc job sorted) jobs sorted).
Proof.
  induction jobs as [|j jobs IH]; intros sorted F G S; simpl; [exact S|].
  inversion F; subst. apply IH; auto.
  - rewrite Forall_forall in *. intros k Hk.
    apply (Permutation_in _ (Permutation_sym (insert_desc_perm j sorted)))
      in Hk.
    destruct Hk as [<-|Hk]; auto.
  - now apply insert_desc_sorted.
Qed.

Lemma sort_desc_sorted jobs :
  Forall int_scored jobs -> StronglySorted score_ge (sort_desc jobs).
Proof. intros F. apply fold_insert_sorted; auto; constructor. Qed.

(** What a scoring attempt that returns went through. *)
Lemma scoring_attempt_inv answer jobs scored :
  scoring_attempt answer jobs = Ok (Some scored) ->
  exists items merged,
    answer_entries answer items
    /\ merge_scores jobs items [] = Ok merged /\ scored = sort_desc merged.
Proof.
  unfold scoring_attempt. intros H.
  destruct answer as [e|status text]; [discriminate|].
  destruct (Z.eqb_spec status 200) as [->|]; [|discriminate].
  destruct (json_loads text) as [data|] eqn:E1; [|discriminate].
  destruct (getitem_key data _) as [choices|] eqn:E2; [|discriminate].
  cbn [bind] in H.
  destruct (getitem_0 choices) as [choice|] eqn:E3; [|discriminate].
  cbn [bind] in H.
  destruct (getitem_key choice _) as [message|] eqn:E4; [|discriminate].
  cbn [bind] in H.
  destruct (getitem_key message _) as [content|] eqn:E5; [|discriminate].
  cbn [bind] in H. destruct content as [| | | |content| |]; try discriminate.
  destruct (json_loads (strip _)) as [scores|] eqn:E6; [|discriminate].
  destruct (iterate scores) as [items|] eqn:E7; cbn [bind] in H;
    [|discriminate].
  destruct (merge_scores jobs items []) as [merged|] eqn:M; cbn [bind] in H;
    [|discriminate].
  injection H as <-. exists items, merged.
  split; [|now split].
  exists text, data, choices, choice, message, content, scores.
  now repeat split.
Qed.

End WithHost.
End RankingFacts.
Import RankingFacts.

Section RankingTheorems.
Import JobsEngine JobsProps.
Context {host : Host}.

(** X9: for jobs and skills from which the prompt can be built, when
    the scoring path returns, the answer of the LLM was a 200 whose
    content, the fence markers removed, is JSON whose elements are the
    score entries, and the jobs returned are exactly the jobs written
    for the entries whose score is 40 or more: each is the job that
    the index of an entry designates among
    the fifteen jobs at most sent for scoring, with the score of that
    entry under [match_score] and its reason under [match_reason]
    (0 and a stock reason when the entry has none).  Entries with an
    index out of range or a score under 40 add nothing, and no job is
    made up.  When the scores are integers the list is in descending
    order of score. *)
Theorem scored_jobs_pass_the_threshold
    (answer : post_outcome) (jobs : list dict) (portfolio : Portfolio)
    (scored : list dict) :
  jobs <> [] ->
  Forall prompt_job_ok (firstn 15 jobs) ->
  prompt_skills_ok portfolio ->
  scoring_attempt answer (firstn 15 jobs) = Ok (Some scored) ->
  _score_and_filter_jobs answer jobs portfolio = (Ok scored, [EvScoring])
  /\ exists items,
       answer_entries answer items
       /\ List.length scored <= List.length items
       /\ (forall j, In j scored ->
            ge_int (score_of j) 40 = Ok true
            /\ scored_from (firstn 15 jobs) items j)
       /\ (forall sd j, In (JDict sd) items ->
            entry_job (firstn 15 jobs) sd j ->
            ge_int (score_of j) 40 = Ok true -> In j scored)
       /\ ((forall j, In j scored -> int_scored j) ->
           StronglySorted score_ge scored).
Proof.
  intros N Hjobs Hskills H.
  pose proof (prompt_shape_ok portfolio (firstn 15 jobs) Hjobs Hskills) as C.
  split.
  { unfold _score_and_filter_jobs. destruct jobs; [now elim N|].
    now rewrite C, H. }
  destruct (scoring_attempt_inv answer (firstn 15 jobs) scored H)
    as (items & merged & E & M & ->).
  destruct (merge_scores_spec (firstn 15 jobs) items [] merged M)
    as (added & -> & L & A & B).
  cbn [app] in *. exists items. split; [exact E|]. split.
  { now rewrite <- (Permutation_length (sort_desc_perm added)). }
  split; [|split].
  - intros j Hj. apply A.
    apply (Permutation_in _ (Permutation_sym (sort_desc_perm added))), Hj.
  - intros sd j Hsd Ej Gj.
    apply (Permutation_in _ (sort_desc_perm added)). now apply (B sd).
  - intros I. apply sort_desc_sorted. rewrite Forall_forall.
    intros j Hj. apply I.
    apply (Permutation_in _ (sort_desc_perm added)), Hj.
Qed.

End RankingTheorems.

(** The theorem at three jobs and four score entries: the job scored 30
    and the entry for a job that does not exist are left out, the two
    others come back by descending score. *)
Lemma scored_jobs_pass_the_threshold_witness :
  exists scored,
    @JobsEngine._score_and_filter_jobs sample_host
      (PostReturns 200 JobsSamples.SCORES_ANSWER)
      (map sample_job (seq 0 3)) sample_portfolio
    = (Ok scored, [JobsEngine.EvScoring])
    /\ map JobsEngine.score_of scored = [JInt 90; JInt 55]
    /\ map (fun j => dict_get j (u "id")) scored
       = [Some (JInt 1); Some (JInt 2)]
    /\ map (fun j => dict_get j (u "match_reason")) scored
       = [Some (JStr (u "fits"));
          Some (JStr (u "Good match for your profile."))].
Proof.
  eexists. split; [|split; [|split]].
  - apply (@scored_jobs_pass_the_threshold sample_host
             (PostReturns 200 JobsSamples.SCORES_ANSWER)
             (map sample_job (seq 0 3)) sample_portfolio).
    + discriminate.
    + repeat (apply Forall_cons;
              [split; [discriminate
                      |split; [discriminate|eexists; reflexivity]]|]).
      apply Forall_nil.
    + right. reflexivity.
    + vm_compute. reflexivity.
  - reflexivity.
  - reflexivity.
  - reflexivity.
Defined.

Module CacheInvariant.
Import JobsEngine JobsProps.










Lemma cache_find_remove_other c k k' :
  str_eqb k k' = false ->
  cache_find (cache_remove c k) k' = cache_find c k'.
Proof.
  intros N. induction c as [|x c IH]; simpl; [reflexivity|].
  destruct (str_eqb (ce_key x) k) eqn:E; simpl.
  - apply str_eqb_eq in E. rewrite E, N. exact IH.
  - destruct (str_eqb (ce_key x) k'); [reflexivity|exact IH].
Qed.

(** Reading an entry changes the order of the entries only. *)
Lemma cache_find_after_read c k e k' :
  cache_find c k = Some e ->
  cache_find (cache_remove c k ++ [e]) k' = cache_find c k'.
Proof.
  intros F. assert (K : ce_key e = k) by now apply (cache_find_key c).
  destruct (str_eqb k k') eqn:E.
  - apply str_eqb_eq in E. subst k'. rewrite <- K at 1 2.
    rewrite cache_find_moved. now rewrite F.
  - rewrite cache_find_app, cache_find_remove_other by exact E.
    destruct (cache_find c k'); [reflexivity|].
    simpl. now rewrite K, E.
Qed.

End CacheInvariant.
Import CacheInvariant.

Section CacheInvariantTheorems.
Import JobsEngine JobsProps.
Context {host : Host}.


(** X11: a request that returns without any request to the listings
    API or to the LLM read its result from an entry stored under its
    key that had not expired, neither at the membership test nor at the
    read; the entry stays in the cache with the expiry time it had, so
    a read does not extend the life of an entry. *)
Theorem cached_answer_comes_from_live_entry
    (jobs_cache : ttl_cache) (time : clock)
    (listings : str -> result (list dict)) (answer : post_outcome)
    (portfolio : Portfolio) (filters : JobFilter)
    (jobs : list dict) (cache' : ttl_cache) :
  get_recommended_jobs jobs_cache time listings answer portfolio filters
  = (Ok jobs, cache', []) ->
  exists e,
    cache_find jobs_cache (cache_key portfolio filters) = Some e
    /\ ce_value e = jobs
    /\ (t_lookup time < ce_expires e)%Z
    /\ (t_read time < ce_expires e)%Z
    /\ cache_find cache' (cache_key portfolio filters) = Some e.
Proof.
  unfold get_recommended_jobs, cache_contains, cache_getitem.
  destruct (cache_find jobs_cache (cache_key portfolio filters))
    as [e|] eqn:F.
  - destruct (t_lookup time <? ce_expires e)%Z eqn:L1.
    + destruct (t_read time <? ce_expires e)%Z eqn:L2; [|discriminate].
      intros [= <- <-]. exists e.
      apply Z.ltb_lt in L1, L2. repeat split; auto.
      rewrite (cache_find_after_read _ _ e) by exact F. exact F.
    + destruct (user_country portfolio) as [country|]; [|discriminate].
      unfold _fetch_adzuna_jobs.
      destruct ADZUNA_APP_ID; [discriminate|].
      destruct ADZUNA_APP_KEY; [discriminate|].
      destruct (listings country); [|discriminate].
      destruct (_score_and_filter_jobs _ _ _) as [[sc|] tr2]; discriminate.
  - destruct (user_country portfolio) as [country|]; [|discriminate].
    unfold _fetch_adzuna_jobs.
    destruct ADZUNA_APP_ID; [discriminate|].
    destruct ADZUNA_APP_KEY; [discriminate|].
    destruct (listings country); [|discriminate].
    destruct (_score_and_filter_jobs _ _ _) as [[sc|] tr2]; discriminate.
Qed.

(** X12: a request that raises stores nothing: every key is bound in
    the cache as it was before, so a failure is never remembered and
    never drops an entry. *)
Theorem failed_request_leaves_entries
    (jobs_cache : ttl_cache) (time : clock)
    (listings : str -> result (list dict)) (answer : post_outcome)
    (portfolio : Portfolio) (filters : JobFilter)
    (e : exn) (cache' : ttl_cache) (trace : list event) :
  get_recommended_jobs jobs_cache time listings answer portfolio filters
  = (Raise e, cache', trace) ->
  forall k, cache_find cache' k = cache_find jobs_cache k.
Proof.
  unfold get_recommended_jobs, cache_getitem.
  destruct (cache_contains _ _ _).
  - destruct (cache_find jobs_cache (cache_key portfolio filters))
      as [e0|] eqn:F.
    + destruct (t_read time <? ce_expires e0)%Z; [discriminate|].
      intros [= _ <- _] k. now apply cache_find_after_read.
    + now intros [= _ <- _].
  - destruct (user_country portfolio) as [country|]; [|now intros [= _ <- _]].
    destruct (_fetch_adzuna_jobs listings country) as [[raw|] tr1];
      [|now intros [= _ <- _]].
    destruct (_score_and_filter_jobs answer raw portfolio) as [[s|] tr2];
      [discriminate|now intros [= _ <- _]].
Qed.

End CacheInvariantTheorems.


(** The theorem at a second request made at time 100 on the cache the
    first request left, with a network that would fail. *)
Lemma cached_answer_comes_from_live_entry_witness :
  exists e,
    JobsEngine.cache_find (snd (fst first_request))
      (JobsEngine.cache_key sample_portfolio sample_filters) = Some e
    /\ (101 < JobsEngine.ce_expires e)%Z.
Proof.
  destruct (@cached_answer_comes_from_live_entry sample_host
              (snd (fst first_request))
              {| JobsEngine.t_lookup := 100; JobsEngine.t_read := 101;
                 JobsEngine.t_store := 102 |}
              (fun _ => Raise TransportError) (PostRaises TimeoutException)
              sample_portfolio sample_filters _ _ eq_refl)
    as (e & F & _ & _ & L & _).
  exists e. split; [exact F|exact L].
Defined.

(** The theorem at a request whose entry expires between the membership
    test and the read: it raises [KeyError] and the entry is still
    bound. *)
Lemma failed_request_leaves_entries_witness :
  exists e,
    JobsEngine.cache_find
      (snd (fst (@JobsEngine.get_recommended_jobs sample_host
                   (snd (fst first_request))
                   {| JobsEngine.t_lookup := 604; JobsEngine.t_read := 605;
                      JobsEngine.t_store := 606 |}
                   (fun _ => Raise TransportError)
                   (PostRaises TimeoutException)
                   sample_portfolio sample_filters)))
      (JobsEngine.cache_key sample_portfolio sample_filters)
    = Some e
    /\ JobsEngine.ce_expires e = 605%Z.
Proof.
  eexists. split.
  - rewrite (@failed_request_leaves_entries sample_host
               (snd (fst first_request))
               {| JobsEngine.t_lookup := 604; JobsEngine.t_read := 605;
                  JobsEngine.t_store := 606 |}
               (fun _ => Raise TransportError) (PostRaises TimeoutException)
               sample_portfolio sample_filters
               (KeyError (JStr (JobsEngine.cache_key sample_portfolio
                                                     sample_filters)))
               _ [] eq_refl).
    vm_compute. reflexivity.
  - reflexivity.
Defined.

Module AdzunaFacts.
Import JobsEngine Adzuna.

Lemma utf8_bytes c bs :
  code_point c -> utf8 c = Some bs -> Forall (fun b => (b < 256)%N) bs.
Proof.
  unfold code_point. intros V H.
  assert (G : match utf8 c with
              | Some bs => Forall (fun b => (b < 256)%N) bs
              | None => True
              end); [|now rewrite H in G].
  clear H. unfold utf8.
  assert (M1 : (c mod 64 < 64)%N) by (apply N.mod_lt; lia).
  assert (M2 : ((c / 64) mod 64 < 64)%N) by (apply N.mod_lt; lia).
  assert (M3 : ((c / 4096) mod 64 < 64)%N) by (apply N.mod_lt; lia).
  assert (D1 : (c < 2048 -> c / 64 < 32)%N)
    by (intros; apply N.Div0.div_lt_upper_bound; lia).
  assert (D2 : (c < 65536 -> c / 4096 < 16)%N)
    by (intros; apply N.Div0.div_lt_upper_bound; lia).
  assert (D3 : (c / 262144 < 5)%N)
    by (apply N.Div0.div_lt_upper_bound; lia).
  destruct (N.ltb_spec c 128);
    [repeat (apply Forall_cons; [cbv beta; lia|]); apply Forall_nil|].
  destruct (N.ltb_spec c 2048);
    [specialize (D1 ltac:(assumption));
     repeat (apply Forall_cons; [cbv beta; lia|]); apply Forall_nil|].
  destruct ((55296 <=? c) && (c <=? 57343))%N; [exact I|].
  destruct (N.ltb_spec c 65536);
    [specialize (D2 ltac:(assumption));
     repeat (apply Forall_cons; [cbv beta; lia|]); apply Forall_nil|].
  repeat (apply Forall_cons; [cbv beta; lia|]); apply Forall_nil.
Qed.

Lemma encode_bytes s : forall bs,
  Forall code_point s -> encode s = Some bs ->
  Forall (fun b => (b < 256)%N) bs.
Proof.
  induction s as [|c s IH]; intros bs V H.
  - injection H as <-. constructor.
  - inversion V; subst. simpl in H.
    destruct (utf8 c) as [b|] eqn:U; [|discriminate].
    destruct (encode s) as [bs'|]; [|discriminate].
    injection H as <-. apply Forall_app. split.
    + now apply (utf8_bytes c).
    + now apply IH.
Qed.

Lemma hex_digit_safe n : (n < 16)%N -> always_safe (hex_digit n) = true.
Proof.
  intros H. unfold hex_digit.
  destruct n as [|p]; [reflexivity|].
  do 5 (try (destruct p as [p|p|]; try reflexivity; try (exfalso; lia))).
Qed.

Lemma quote_byte_quoted b :
  (b < 256)%N -> Forall quoted (quote_byte b).
Proof.
  intros H. unfold quote_byte.
  destruct (always_safe b) eqn:S;
    [apply Forall_cons; [now left|constructor]|].
  destruct (b =? 32)%N;
    [apply Forall_cons; [right; now left|constructor]|].
  repeat apply Forall_cons; [| | |constructor].
  - right. now right.
  - left. apply hex_digit_safe. apply N.Div0.div_lt_upper_bound. lia.
  - left. apply hex_digit_safe. apply N.mod_lt. lia.
Qed.

(** What [quote_plus] returns has letters, digits and the characters
    [_.-~+%] only. *)
Lemma quote_plus_quoted s q :
  Forall code_point s -> quote_plus s = Some q -> Forall quoted q.
Proof.
  unfold quote_plus. intros V H.
  destruct (encode s) as [bs|] eqn:E; [|discriminate].
  injection H as <-. pose proof (encode_bytes s bs V E) as B.
  clear E. induction B; simpl; [constructor|].
  apply Forall_app. split; [now apply quote_byte_quoted|assumption].
Qed.

Lemma uint_quoted d : Forall quoted (u (NilEmpty.string_of_uint d)).
Proof.
  induction d; cbn [NilEmpty.string_of_uint]; try apply Forall_nil;
    (apply Forall_cons; [left; reflexivity|exact IHd]).
Qed.

(** The decimal writing of an integer has digits and [-] only. *)
Lemma Z_to_str_quoted z : Forall quoted (Z_to_str z).
Proof.
  unfold Z_to_str, NilZero.string_of_int, NilZero.string_of_uint.
  destruct (Z.to_int z) as [d|d].
  - destruct d; try (apply Forall_cons; [left; reflexivity|apply Forall_nil]);
      apply uint_quoted.
  - apply Forall_cons; [left; reflexivity|].
    destruct d; try (apply Forall_cons; [left; reflexivity|apply Forall_nil]);
      apply uint_quoted.
Qed.

Section WithHost.
Context {host : Host}.
Variable py_lower : str -> str.

Lemma join_nonempty sep (parts : list str) :
  join sep parts = [] -> forall p, In p parts -> p = [].
Proof.
  induction parts as [|p parts IH]; intros H x Hx; [contradiction|].
  destruct parts as [|p' parts].
  - simpl in H. destruct Hx as [<-|[]]. exact H.
  - cbn [join] in H. apply app_eq_nil in H as [H1 H2].
    apply app_eq_nil in H2 as [_ H2].
    destruct Hx as [<-|Hx]; [exact H1|now apply IH].
Qed.

(** A parsed listing of the documented shape has the eight keys and
    passes the checks of the scoring prompt. *)
Lemma parse_job_ok job :
  listing_ok (JDict job) ->
  exists parsed,
    parse_job job = Ok parsed
    /\ dict_keys parsed = JOB_KEYS
    /\ job_entry_check parsed = Ok tt.
Proof.
  intros (C & L & D). unfold parse_job, display_name.
  destruct (get_or job (u "company") (JDict [])); try discriminate.
  destruct (get_or job (u "location") (JDict [])); try discriminate.
  destruct (get_or job (u "description") (JStr [])) eqn:E; try discriminate.
  eexists. split; [reflexivity|]. split; reflexivity.
Qed.

Lemma parse_jobs_ok remote raw :
  Forall listing_ok raw ->
  exists jobs,
    parse_jobs py_lower remote raw = Ok jobs
    /\ Forall (fun j => dict_keys j = JOB_KEYS
                        /\ job_entry_check j = Ok tt) jobs
    /\ List.length jobs <= List.length raw
    /\ (remote = false -> List.length jobs = List.length raw).
Proof.
  induction 1 as [|l raw Hl _ (jobs & P & F & L & R)].
  - exists []. repeat split; auto.
  - destruct l as [| | | | | |job]; try contradiction.
    cbn [parse_jobs].
    destruct (remote && negb (mentions_remote py_lower job)) eqn:M.
    + exists jobs. split; [exact P|]. split; [exact F|].
      split; [simpl; lia|]. intros Hr. rewrite Hr in M. discriminate.
    + destruct (parse_job_ok job Hl) as (parsed & -> & K & C).
      rewrite P. exists (parsed :: jobs). simpl.
      split; [reflexivity|]. split; [now constructor|].
      split; [lia|]. intros Hr. now rewrite (R Hr).
Qed.

Lemma entries_check_firstn n : forall jobs,
  Forall (fun j => dict_keys j = JOB_KEYS /\ job_entry_check j = Ok tt) jobs ->
  job_entries_check (firstn n jobs) = Ok tt.
Proof.
  induction n as [|n IH]; intros jobs F; [reflexivity|].
  destruct F as [|j jobs [_ C] F]; [reflexivity|].
  simpl. rewrite C. simpl. now apply IH.
Qed.

End WithHost.
End AdzunaFacts.
Import AdzunaFacts.

Section AdzunaTheorems.
Import JobsEngine Adzuna.
Context {host : Host}.
Variable py_lower : str -> str.

(** X13: a 200 answer of the listings API whose [results] are listings
    of the documented shape (objects whose company and location, when
    present, are objects and whose description, when present, is a
    string) is read without an exception.  Every job read has the eight
    keys [id], [title], [company], [location], [salary_min],
    [salary_max], [description] and [url]; there is one per listing
    when the remote filter is off and at most one otherwise; and the
    entries of the scoring prompt can be built from the first fifteen
    of them, so no key is missing when the jobs reach the scorer. *)
Theorem well_formed_listings_reach_scoring
    (text : str) (data : dict) (raw : list json) (filters : JobFilter) :
  json_loads text = Some (JDict data) ->
  get_or data (u "results") (JList []) = JList raw ->
  Forall listing_ok raw ->
  exists jobs,
    read_response py_lower (PostReturns 200 text) filters = Ok jobs
    /\ Forall (fun j => dict_keys j = JOB_KEYS) jobs
    /\ List.length jobs <= List.length raw
    /\ (remote_wanted filters = false ->
        List.length jobs = List.length raw)
    /\ job_entries_check (firstn 15 jobs) = Ok tt.
Proof.
  intros T R W.
  destruct (parse_jobs_ok py_lower (remote_wanted filters) raw W)
    as (jobs & P & F & L & N).
  exists jobs. split.
  { unfold read_response. cbn [Z.eqb Pos.eqb negb]. rewrite T, R.
    cbn [iterate bind]. exact P. }
  split; [eapply Forall_impl; [|exact F]; now intros j [K _]|].
  split; [exact L|]. split; [exact N|].
  now apply entries_check_firstn.
Qed.

(** X14: user text reaches the URL of the request percent-encoded only.
    The text searched for is never empty; the URL is the fixed prefix
    followed by the encoding of the search text; then, exactly when the
    filters give a non-empty location, by [&where=] and the encoding of
    that location; then, exactly when they give a minimum salary other
    than 0, by [&salary_min=] and that number in decimal.  The two
    encodings and the number hold letters, digits and the characters
    [_.-~+%] only, so neither the skills nor the filters can add a
    parameter. *)
Theorem request_url_encodes_user_text
    (skills : json) (filters : JobFilter) (user_country q url : str) :
  search_query skills filters = Ok q ->
  request_url q filters user_country = Some url ->
  Forall code_point q ->
  (forall l, location filters = Some l -> Forall code_point l) ->
  q <> []
  /\ exists w l s,
       url = url_prefix user_country ++ w ++ l ++ s
       /\ quote_plus q = Some w /\ Forall quoted w
       /\ match location filters with
          | Some ((_ :: _) as loc) =>
              exists e, quote_plus loc = Some e /\ Forall quoted e
                        /\ l = u "&where=" ++ e
          | _ => l = []
          end
       /\ match salary_min filters with
          | Some z =>
              if (z =? 0)%Z then s = []
              else s = u "&salary_min=" ++ Z_to_str z
                   /\ Forall quoted (Z_to_str z)
          | None => s = []
          end.
Proof.
  intros Q U V VL. split.
  { unfold search_query in Q.
    destruct (match what filters with Some s => s | None => [] end)
      as [|c w].
    - destruct (truthy skills).
      + destruct (bind (py_slice_to 3 skills) join_spaces) as [[|c w]|];
          simpl in Q; try discriminate; injection Q as <-; discriminate.
      + simpl in Q. injection Q as <-. discriminate.
    - simpl in Q. injection Q as <-. discriminate. }
  unfold request_url in U.
  destruct (quote_plus q) as [w|] eqn:W; [|discriminate].
  pose proof (quote_plus_quoted q w V W) as Sw.
  assert (S : forall base,
            (match salary_min filters with
             | Some z =>
                 if (z =? 0)%Z then Some base
                 else Some (base ++ u "&salary_min=" ++ Z_to_str z)
             | None => Some base
             end = Some url) ->
            exists s, url = base ++ s
              /\ match salary_min filters with
                 | Some z =>
                     if (z =? 0)%Z then s = []
                     else s = u "&salary_min=" ++ Z_to_str z
                          /\ Forall quoted (Z_to_str z)
                 | None => s = []
                 end).
  { intros base H. destruct (salary_min filters) as [z|].
    - destruct (z =? 0)%Z.
      + injection H as <-. exists []. now rewrite app_nil_r.
      + injection H as <-. eexists. split; [reflexivity|].
        split; [reflexivity|apply Z_to_str_quoted].
    - injection H as <-. exists []. now rewrite app_nil_r. }
  destruct (location filters) as [[|c l]|] eqn:L.
  - destruct (S _ U) as (s & -> & Hs).
    exists w, [], s. rewrite <- app_assoc.
    split; [reflexivity|]. split; [reflexivity|]. split; [exact Sw|].
    split; [reflexivity|exact Hs].
  - destruct (quote_plus (c :: l)) as [e|] eqn:E; [|discriminate].
    cbn [option_map] in U. destruct (S _ U) as (s & -> & Hs).
    exists w, (u "&where=" ++ e), s. rewrite <- !app_assoc.
    split; [reflexivity|]. split; [reflexivity|]. split; [exact Sw|].
    split; [|exact Hs]. exists e. split; [reflexivity|].
    split; [|reflexivity].
    apply (quote_plus_quoted (c :: l)); [|exact E]. now apply VL.
  - destruct (S _ U) as (s & -> & Hs).
    exists w, [], s. rewrite <- app_assoc.
    split; [reflexivity|]. split; [reflexivity|]. split; [exact Sw|].
    split; [reflexivity|exact Hs].
Qed.


End AdzunaTheorems.

(** The theorem at an answer with two listings and the remote filter
    on: one job is read. *)
Lemma well_formed_listings_reach_scoring_witness :
  exists jobs,
    @Adzuna.read_response sample_host AdzunaSamples.lower
      (PostReturns 200 AdzunaSamples.LISTINGS_ANSWER) sample_filters
    = Ok jobs
    /\ List.length jobs <= 2
    /\ @JobsEngine.job_entries_check sample_host (firstn 15 jobs) = Ok tt.
Proof.
  edestruct (@well_formed_listings_reach_scoring sample_host
               AdzunaSamples.lower AdzunaSamples.LISTINGS_ANSWER)
    as (jobs & R & _ & L & _ & C).
  - vm_compute. reflexivity.
  - reflexivity.
  - repeat (apply Forall_cons; [vm_compute; repeat split; reflexivity|]).
    apply Forall_nil.
  - exists jobs. split; [exact R|]. split; [exact L|exact C].
Defined.

(** The theorem at two skills, a location and a minimum salary. *)
Lemma request_url_encodes_user_text_witness :
  exists w l s,
    @Adzuna.request_url sample_host (u "C++ Go") sample_filters (u "gb")
    = Some (@Adzuna.url_prefix sample_host (u "gb") ++ w ++ l ++ s)
    /\ w = u "C%2B%2B+Go" /\ l = u "&where=London"
    /\ s = u "&salary_min=50000".
Proof.
  destruct (@request_url_encodes_user_text sample_host
              (JList [JStr (u "C++"); JStr (u "Go")]) sample_filters
              (u "gb") (u "C++ Go")
              (@Adzuna.url_prefix sample_host (u "gb") ++ u "C%2B%2B+Go"
               ++ u "&where=London" ++ u "&salary_min=50000"))
    as (_ & w & l & s & _ & Q & _ & (e & E & _ & ->) & (-> & _)).
  - reflexivity.
  - vm_compute. reflexivity.
  - repeat (apply Forall_cons; [unfold Adzuna.code_point; vm_compute;
                                discriminate|]).
    apply Forall_nil.
  - intros l [= <-].
    repeat (apply Forall_cons; [unfold Adzuna.code_point; vm_compute;
                                discriminate|]).
    apply Forall_nil.
  - exists w, (u "&where=" ++ e), (u "&salary_min=" ++ Z_to_str 50000).
    vm_compute in Q. injection Q as <-.
    vm_compute in E. injection E as <-.
    split; [vm_compute; reflexivity|]. now repeat split.
Defined.


Module ChatFacts.
Import RagEngine Chat.
Section WithHost.
Context {host : Host}.

Lemma detect_intent_in (gemini : result json) :
  In (detect_intent gemini) INTENTS.
Proof.
  assert (R : In (u "RAG") INTENTS) by (simpl; tauto).
  unfold detect_intent. destruct gemini as [[]|e]; try exact R.
  destruct (existsb _ INTENTS) eqn:E; [|exact R].
  now apply existsb_str_eqb.
Qed.

Lemma ok_inj {A : Type} (a b : A) : Ok a = Ok b -> a = b.
Proof. now intros [= ->]. Qed.

Lemma detect_intent_raise e : detect_intent (Raise e) = u "RAG".
Proof. reflexivity. Qed.

Lemma list_at_empty pd k : empty_at pd k -> list_at pd k = None.
Proof.
  unfold empty_at, list_at. destruct (dict_get pd k) as [v|]; [|reflexivity].
  destruct v as [| | | | |[|x l]|]; try reflexivity. discriminate.
Qed.

Lemma field_length label pd k : List.length (field label pd k) <= 1.
Proof.
  unfold field. destruct (dict_get pd k) as [v|]; [|simpl; lia].
  destruct (truthy v); simpl; lia.
Qed.

Lemma field_empty label pd k : empty_at pd k -> field label pd k = [].
Proof.
  unfold empty_at, field. destruct (dict_get pd k) as [v|]; [|reflexivity].
  now intros ->.
Qed.

End WithHost.
End ChatFacts.
Import ChatFacts.

Section ChatTheorems.
Import RagEngine Chat.
Context {host : Host}.
Variable intent_prompt : str -> str.
Variables interview_prompt ats_prompt : str -> str -> str.

(** X16: once the context and the history text could be built, the
    chat returns whatever the model does: it sends two prompts, the
    first of which is the intent prompt; the mode of the reply is the
    detected intent, one of INTERVIEW, ATS and RAG; when the second
    call raises, the answer is the apology of that mode; and when both
    calls raise, the reply is the RAG apology. *)
Theorem chat_survives_model_failures
    (call : gemini) (user_message : str) (resume_text : option str)
    (portfolio_data : dict) (conversation_history : option (list json))
    (context prompt : str) :
  build_context portfolio_data resume_text = Ok context ->
  consolidated_prompt context user_message conversation_history
  = Ok prompt ->
  exists r p1,
    chat intent_prompt interview_prompt ats_prompt call user_message
         resume_text portfolio_data conversation_history
    = (Ok r, [intent_prompt user_message; p1])
    /\ mode r = detect_intent (call 0 (intent_prompt user_message))
    /\ In (mode r) INTENTS
    /\ ((exists e, call 1 p1 = Raise e) ->
        answer r = JStr (apology (mode r)))
    /\ ((exists e, call 0 (intent_prompt user_message) = Raise e) ->
        (exists e, call 1 p1 = Raise e) ->
        r = {| answer := JStr CHAT_APOLOGY; mode := u "RAG" |}).
Proof.
  intros B P. unfold chat. rewrite B.
  set (m := detect_intent (call 0 (intent_prompt user_message))).
  pose proof (detect_intent_in (call 0 (intent_prompt user_message))) as I.
  fold m in I.
  assert (A : forall e, call 0 (intent_prompt user_message) = Raise e ->
              m = u "RAG").
  { intros e E. unfold m. now rewrite E. }
  destruct (str_eqb m (u "INTERVIEW")) eqn:E1.
  - eexists. eexists. split; [reflexivity|]. cbn [mode answer].
    split; [reflexivity|]. split; [exact I|]. split.
    + intros (e & E). unfold generate_interview_questions, apology.
      now rewrite E, E1.
    + intros (e & E) _. rewrite (A e E) in E1. discriminate.
  - destruct (str_eqb m (u "ATS")) eqn:E2.
    + eexists. eexists. split; [reflexivity|]. cbn [mode answer].
      split; [reflexivity|]. split; [exact I|]. split.
      * intros (e & E). unfold generate_ats_analysis, apology.
        now rewrite E, E1, E2.
      * intros (e & E) _. rewrite (A e E) in E2. discriminate.
    + rewrite P. eexists. eexists. split; [reflexivity|].
      cbn [mode answer]. split; [reflexivity|]. split; [exact I|]. split.
      * intros (e & E). unfold apology. now rewrite E, E1, E2.
      * intros (e & E) (e' & E'). rewrite E'. now rewrite (A e E).
Qed.

(** X17: when the portfolio has no bio, no skills, no experience, no
    projects, no education, no achievements and no contact (each
    missing, empty or otherwise falsy), the context of the chat is the
    first 4000 characters of the raw resume text, whatever the name and
    the role are; it is empty when there is no raw text. *)
Theorem sparse_portfolio_uses_raw_text
    (portfolio_data : dict) (resume_text : option str) :
  (forall k, In k [u "bio"; u "skills"; u "experience"; u "projects";
                   u "education"; u "achievements"; u "contact"] ->
     empty_at portfolio_data k) ->
  build_context portfolio_data resume_text
  = Ok (firstn 4000 (match resume_text with Some t => t | None => [] end))
  /\ forall context,
       build_context portfolio_data resume_text = Ok context ->
       List.length context <= 4000.
Proof.
  intros H.
  assert (E : build_context portfolio_data resume_text
              = Ok (firstn 4000 (match resume_text with
                                 | Some t => t
                                 | None => []
                                 end))).
  { unfold build_context, context_parts.
    rewrite !list_at_empty by (apply H; simpl; tauto).
    rewrite (field_empty (u "Bio: ")) by (apply H; simpl; tauto).
    assert (C : empty_at portfolio_data (u "contact"))
      by (apply H; simpl; tauto).
    unfold empty_at in C.
    destruct (dict_get portfolio_data (u "contact")) as [v|] eqn:Ec.
    - destruct v as [| | | | | |[|kv d]]; try discriminate;
        cbn [bind app]; rewrite !app_nil_r;
        pose proof (field_length (u "Name: ") portfolio_data (u "name"));
        pose proof (field_length (u "Role: ") portfolio_data (u "role"));
        (destruct (Nat.ltb_spec
                     (List.length (field (u "Name: ") portfolio_data
                                         (u "name")
                                   ++ field (u "Role: ") portfolio_data
                                            (u "role"))) 3) as [_|G];
         [reflexivity|rewrite length_app in G; lia]).
    - cbn [bind app]. rewrite !app_nil_r.
      pose proof (field_length (u "Name: ") portfolio_data (u "name")).
      pose proof (field_length (u "Role: ") portfolio_data (u "role")).
      destruct (Nat.ltb_spec
                  (List.length (field (u "Name: ") portfolio_data (u "name")
                                ++ field (u "Role: ") portfolio_data
                                         (u "role"))) 3) as [_|G];
        [reflexivity|rewrite length_app in G; lia]. }
  split; [exact E|]. intros context C. rewrite E in C.
  apply ok_inj in C. rewrite <- C. apply firstn_le_length.
Qed.

(** X18: a portfolio whose skills are a list that holds a value other
    than a string makes the chat raise [TypeError] before any prompt is
    sent.  The normalisation of an extracted portfolio does not prevent
    it: it keeps a list of skills as it is. *)
Theorem non_string_skill_breaks_chat
    (call : gemini) (user_message : str) (resume_text : option str)
    (parsed : dict) (username : str) (skills : list json)
    (conversation_history : option (list json)) :
  dict_get parsed (u "skills") = Some (JList skills) ->
  forallb is_str skills = false ->
  dict_get (normalise_dict parsed username) (u "skills")
  = Some (JList skills)
  /\ chat intent_prompt interview_prompt ats_prompt call user_message
          resume_text (normalise_dict parsed username) conversation_history
     = (Raise TypeError, []).
Proof.
  intros S F.
  assert (N : dict_get (normalise_dict parsed username) (u "skills")
              = Some (JList skills)).
  { rewrite (normalise_get parsed username (u "skills") (JList []))
      by (simpl; tauto).
    unfold get_or. now rewrite S. }
  split; [exact N|].
  unfold chat, build_context, context_parts, list_at. rewrite N.
  destruct skills as [|x l]; [discriminate|].
  unfold join_commas. now rewrite F.
Qed.

End ChatTheorems.

(** The theorem at a model that cannot be reached and at one that
    classifies the message and then fails. *)
Lemma chat_survives_model_failures_witness :
  (exists p1,
     @Chat.chat sample_host (fun m => m) (fun c m => c ++ m)
       (fun c m => c ++ m) ChatSamples.offline (u "Hello")
       (Some (u "Ada Lovelace")) [] None
     = (Ok {| Chat.answer := JStr Chat.CHAT_APOLOGY; Chat.mode := u "RAG" |},
        [u "Hello"; p1]))
  /\ fst (@Chat.chat sample_host (fun m => m) (fun c m => c ++ m)
            (fun c m => c ++ m) ChatSamples.classifier_only (u "Hello")
            (Some (u "Ada Lovelace")) [] None)
     = Ok {| Chat.answer := JStr Chat.INTERVIEW_APOLOGY;
             Chat.mode := u "INTERVIEW" |}.
Proof.
  split.
  - edestruct (@chat_survives_model_failures sample_host (fun m => m)
                 (fun c m => c ++ m) (fun c m => c ++ m)
                 ChatSamples.offline (u "Hello") (Some (u "Ada Lovelace"))
                 [] None) as (r & p1 & E & _ & _ & _ & A).
    + reflexivity.
    + reflexivity.
    + exists p1. rewrite E. f_equal. f_equal.
      apply A; exists TimeoutException; reflexivity.
  - reflexivity.
Defined.

(** The theorem at the normalisation of an object without usable
    fields. *)
Lemma sparse_portfolio_uses_raw_text_witness :
  @Chat.build_context sample_host
    (@normalise_dict sample_host [(u "role", JStr (u "Engineer"))] (u "ada"))
    (Some (u "Ada Lovelace"))
  = Ok (u "Ada Lovelace").
Proof.
  apply (@sparse_portfolio_uses_raw_text sample_host
           (@normalise_dict sample_host [(u "role", JStr (u "Engineer"))]
                            (u "ada"))
           (Some (u "Ada Lovelace"))).
  intros k Hk. simpl in Hk.
  repeat (destruct Hk as [<-|Hk]; [reflexivity|]). contradiction.
Defined.

(** The theorem at an object whose skills are numbers. *)
Lemma non_string_skill_breaks_chat_witness :
  @Chat.chat sample_host (fun m => m) (fun c m => c ++ m)
    (fun c m => c ++ m) ChatSamples.offline (u "Hello") None
    (@normalise_dict sample_host [(u "skills", JList [JInt 1])] (u "ada"))
    None
  = (Raise TypeError, []).
Proof.
  apply (@non_string_skill_breaks_chat sample_host (fun m => m)
           (fun c m => c ++ m) (fun c m => c ++ m) ChatSamples.offline
           (u "Hello") None [(u "skills", JList [JInt 1])] (u "ada")
           [JInt 1] None); reflexivity.
Defined.

Section CollisionTheorems.
Import JobsEngine JobsProps.
Context {host : Host}.

(** A request that returns leaves its result under its key. *)
Lemma request_leaves_entry
    (jobs_cache : ttl_cache) (time : clock)
    (listings : str -> result (list dict)) (answer : post_outcome)
    (portfolio : Portfolio) (filters : JobFilter)
    (jobs : list dict) (cache' : ttl_cache) (trace : list event) :
  get_recommended_jobs jobs_cache time listings answer portfolio filters
  = (Ok jobs, cache', trace) ->
  exists e,
    cache_find cache' (cache_key portfolio filters) = Some e
    /\ ce_value e = jobs.
Proof.
  unfold get_recommended_jobs, cache_getitem.
  destruct (cache_contains _ _ _).
  - destruct (cache_find jobs_cache (cache_key portfolio filters))
      as [e|] eqn:F; [|discriminate].
    destruct (t_read time <? ce_expires e)%Z; [|discriminate].
    intros [= <- <- _]. exists e. split; [|reflexivity].
    rewrite (cache_find_after_read _ _ e) by exact F. exact F.
  - destruct (user_country portfolio) as [country|]; [|discriminate].
    destruct (_fetch_adzuna_jobs listings country) as [[raw|] tr1];
      [|discriminate].
    destruct (_score_and_filter_jobs answer raw portfolio) as [[sc|] tr2];
      [|discriminate].
    intros [= <- <- _]. eexists. split; [apply cache_find_setitem|].
    reflexivity.
Qed.

(** X19: the cache key does not keep the slug apart from the filters.
    A user whose slug is [b] followed by an underscore and [s], asking
    with the location [loc], and the user whose slug is [b], asking
    with the location made of [s], an underscore and [loc] and the same
    other filters, have the same key; so after a request of the first
    has returned, a request of the second made while the entry is live
    is answered with the jobs computed for the first, without any
    request to the listings API or to the LLM. *)
Theorem colliding_key_serves_another_users_jobs
    (jobs_cache : ttl_cache) (time1 : clock)
    (listings1 : str -> result (list dict)) (answer1 : post_outcome)
    (pa pb : Portfolio) (fa fb : JobFilter) (s loc : str)
    (jobs : list dict) (cache1 : ttl_cache) (trace1 : list event) :
  slug pa = slug pb ++ u "_" ++ s ->
  location fa = Some loc ->
  location fb = Some (s ++ u "_" ++ loc) ->
  level fa = level fb -> remote fa = remote fb ->
  salary_min fa = salary_min fb -> what fa = what fb ->
  get_recommended_jobs jobs_cache time1 listings1 answer1 pa fa
  = (Ok jobs, cache1, trace1) ->
  cache_key pa fa = cache_key pb fb
  /\ exists e,
       cache_find cache1 (cache_key pb fb) = Some e
       /\ forall (time2 : clock) (listings2 : str -> result (list dict))
                 (answer2 : post_outcome),
            (t_lookup time2 < ce_expires e)%Z ->
            (t_read time2 < ce_expires e)%Z ->
            exists cache2,
              get_recommended_jobs cache1 time2 listings2 answer2 pb fb
              = (Ok jobs, cache2, []).
Proof.
  intros Hs La Lb Hl Hr Hm Hw H.
  assert (K : cache_key pa fa = cache_key pb fb).
  { unfold cache_key, filters_hash.
    rewrite Hs, La, Lb, Hl, Hr, Hm, Hw. cbn [fmt_str].
    now rewrite <- !app_assoc. }
  split; [exact K|].
  destruct (request_leaves_entry _ _ _ _ _ _ _ _ _ H) as (e & F & V).
  rewrite K in F. exists e. split; [exact F|].
  intros time2 listings2 answer2 L1 L2. eexists. rewrite <- V.
  now apply cache_hit.
Qed.

End CollisionTheorems.

Section BlankUploadTheorems.
Import Upload.
Context {host : Host}.

(** X20: for a PDF without text the upload handler does not fail and
    does not report the missing text: no model is asked and the row
    written is the one of the fallback data, with the title-cased user
    name, the role [Professional], four stock skills and the note that
    a fallback was created as resume text. *)
Theorem blank_pdf_gets_fallback_portfolio
    (client : http_client) (pdf_pages : pdf) (api_key username : str)
    (profile_image_url : option str) :
  strip (extract_text_from_pdf pdf_pages) = [] ->
  upload_resume client pdf_pages api_key username profile_image_url
  = (portfolio_of (fallback_data username) username, [])
  /\ row_name (portfolio_of (fallback_data username) username)
     = JStr (py_title username)
  /\ row_role (portfolio_of (fallback_data username) username)
     = JStr (u "Professional")
  /\ row_skills (portfolio_of (fallback_data username) username)
     = JList [JStr (u "Python"); JStr (u "JavaScript"); JStr (u "AI");
              JStr (u "Web Development")]
  /\ row_resume_text (portfolio_of (fallback_data username) username)
     = JStr (u "Fallback portfolio created due to processing error")
  /\ row_profile_image_url (portfolio_of (fallback_data username) username)
     = None.
Proof.
  intros B. split; [|now repeat split].
  unfold upload_resume, process_resume. now rewrite B.
Qed.

End BlankUploadTheorems.

Section HistoryTheorems.
Import Chat.
Context {host : Host}.

Lemma last6_app {A : Type} (old recent : list A) :
  List.length recent = 6 -> last6 (old ++ recent) = recent.
Proof.
  intros L. unfold last6. rewrite length_app, L.
  replace (List.length old + 6 - 6) with (List.length old + 0) by lia.
  rewrite skipn_app, Nat.add_0_r, skipn_all.
  replace (List.length old - List.length old) with 0 by lia.
  reflexivity.
Qed.

(** X21: only the last six turns of the history reach the prompt: with
    six recent turns, whatever came before them, well formed or not,
    changes neither the prompt nor whether building it raises. *)
Theorem only_last_six_turns_count
    (context user_message : str) (old recent : list json) :
  List.length recent = 6 ->
  consolidated_prompt context user_message (Some (old ++ recent))
  = consolidated_prompt context user_message (Some recent).
Proof.
  intros L. unfold consolidated_prompt.
  rewrite (last6_app old recent L).
  pose proof (last6_app [] recent L) as E. cbn [app] in E.
  now rewrite E.
Qed.

End HistoryTheorems.

(** The theorem at two users, [ann_q] and [ann]. *)
Lemma colliding_key_serves_another_users_jobs_witness :
  @JobsEngine.cache_key
    {| JobsEngine.slug := u "ann_q"; JobsEngine.role := JNull;
       JobsEngine.bio := JNull; JobsEngine.skills := JNull;
       JobsEngine.experience := JNull; JobsEngine.contact := JNull |}
    {| JobsEngine.location := Some (u "Leeds"); JobsEngine.level := None;
       JobsEngine.remote := None; JobsEngine.salary_min := None;
       JobsEngine.what := None |}
  = @JobsEngine.cache_key
      {| JobsEngine.slug := u "ann"; JobsEngine.role := JNull;
         JobsEngine.bio := JNull; JobsEngine.skills := JNull;
         JobsEngine.experience := JNull; JobsEngine.contact := JNull |}
      {| JobsEngine.location := Some (u "q_Leeds"); JobsEngine.level := None;
         JobsEngine.remote := None; JobsEngine.salary_min := None;
         JobsEngine.what := None |}.
Proof.
  apply (@colliding_key_serves_another_users_jobs sample_host []
           {| JobsEngine.t_lookup := 0; JobsEngine.t_read := 0;
              JobsEngine.t_store := 5 |}
           (fun _ => Ok []) (PostRaises TransportError)
           _ _ _ _ (u "q") (u "Leeds") []
           (JobsEngine.cache_setitem []
              (u "ann_q_Leeds-None-None-None-None") [] 5)
           [JobsEngine.EvListings (u "us")]); reflexivity.
Defined.

(** The theorem at a PDF whose only page is blank. *)
Lemma blank_pdf_gets_fallback_portfolio_witness :
  @Upload.upload_resume sample_host (fun _ _ => PostRaises TransportError)
    [u "  "] [] (u "ada") None
  = (Upload.portfolio_of (@Upload.fallback_data sample_host (u "ada"))
                         (u "ada"), []).
Proof.
  apply (@blank_pdf_gets_fallback_portfolio sample_host
           (fun _ _ => PostRaises TransportError) [u "  "] [] (u "ada") None).
  reflexivity.
Defined.

(** The theorem at a history whose first turn is not an object. *)
Lemma only_last_six_turns_count_witness :
  @Chat.consolidated_prompt sample_host (u "Name: Ada") (u "Hello")
    (Some (JInt 0 :: repeat (JDict [(u "content", JStr (u "Hi"))]) 6))
  = @Chat.consolidated_prompt sample_host (u "Name: Ada") (u "Hello")
      (Some (repeat (JDict [(u "content", JStr (u "Hi"))]) 6)).
Proof.
  apply (@only_last_six_turns_count sample_host (u "Name: Ada") (u "Hello")
           [JInt 0] (repeat (JDict [(u "content", JStr (u "Hi"))]) 6)).
  reflexivity.
Defined.
